(** * VancedHelper: the prompt engine and the troubleshoot pager

    A shallow embedding of [PromptManager] (the interactive prompt class:
    [sendQuestion], [delete], [message], [reaction], [chooseOne]) and of the
    page arithmetic of the [troubleshoot] command, followed by the properties
    of the prompt/response design that hold of them.

    Modelling conventions.
    - JavaScript strings are [string]s (byte sequences); the static
      [Set<string>] of user ids is a [gset string].
    - An [async] method is a function of the state it reads (the instance
      [this], the process-wide [World]) and of what the chat transport
      answers: the message a [channel.send] resolves to and the timed events
      the channel delivers afterwards. It returns its completion value and
      the states it leaves.  A request handed to the transport is appended
      to [outbox]; a request resolves before the next awaited event is
      delivered.  Where the source does not wait for a request and its
      outcome depends on it, the request in flight is modelled as well:
      [Unawaited] for the renders of [message], [Transport] for the
      requests [reaction] awaits.
    - Calls that overlap in time are interleaved at their awaits: [System]
      holds the calls suspended there.
    - [undefined]/[void] is [None]. *)

From Stdlib Require Import ZArith Ascii String List Lia.
From Stdlib Require Import DecimalString DecimalNat.
From stdpp Require Import base decidable option list strings gmap.
From Equations Require Import Equations.

Local Open Scope string_scope.
Local Open Scope Z_scope.

(** ** JavaScript string primitives used by the sources *)

Module JS.

(** [c.toLowerCase()] on one code unit: the letters A-Z move to a-z. *)
Definition lower_ascii (c : ascii) : ascii :=
  let n := nat_of_ascii c in
  if ((65 <=? n)%nat && (n <=? 90)%nat)%bool then ascii_of_nat (n + 32) else c.

(** [s.toLowerCase()].  Only the ASCII letters are folded; no other
    character lower-cases to an ASCII letter on its own, so the test
    ['quit'.startsWith(s.toLowerCase())] is the same on every input. *)
Fixpoint toLowerCase (s : string) : string :=
  match s with
  | EmptyString => EmptyString
  | String c r => String (lower_ascii c) (toLowerCase r)
  end.

(** [s.startsWith(p)] *)
Fixpoint startsWith (s p : string) {struct p} : bool :=
  match p, s with
  | EmptyString, _ => true
  | String _ _, EmptyString => false
  | String a p', String b s' => if Ascii.eqb a b then startsWith s' p' else false
  end.

(** Truthiness of a string: only [''] is falsy. *)
Definition truthy (s : string) : bool :=
  match s with EmptyString => false | _ => true end.

(** [a || b] on strings where [a] may be [undefined]/[null]. *)
Definition or_else (a : option string) (b : string) : string :=
  match a with
  | Some s => if truthy s then s else b
  | None => b
  end.

(** [l.indexOf(x) !== -1] *)
Definition includes (l : list string) (x : string) : bool :=
  existsb (String.eqb x) l.

(** [l.join(sep)] *)
Fixpoint join (sep : string) (l : list string) : string :=
  match l with
  | [] => ""
  | [x] => x
  | x :: r => x +:+ sep +:+ join sep r
  end.

(** [n.toString()] for a non-negative integer: its decimal digits. *)
Definition toString (n : nat) : string :=
  NilEmpty.string_of_uint (Nat.to_uint n).

(** Value of a digit character in the given radix (10 or 16). *)
Definition digit_value (radix : Z) (c : ascii) : option Z :=
  let n := Z.of_nat (nat_of_ascii c) in
  let v :=
    if (48 <=? n) && (n <=? 57) then Some (n - 48)
    else if (97 <=? n) && (n <=? 122) then Some (n - 87)
    else if (65 <=? n) && (n <=? 90) then Some (n - 55)
    else None in
  match v with
  | Some d => if d <? radix then Some d else None
  | None => None
  end.

(** The longest prefix of digits, accumulated left to right; [None] when
    there is no digit at all. *)
Fixpoint parse_digits (radix : Z) (acc : option Z) (s : string) : option Z :=
  match s with
  | EmptyString => acc
  | String c r =>
      match digit_value radix c with
      | Some d => parse_digits radix (Some (default 0 acc * radix + d)) r
      | None => acc
      end
  end.

Definition is_space (c : ascii) : bool :=
  let n := nat_of_ascii c in
  (((9 <=? n)%nat && (n <=? 13)%nat) || (n =? 32)%nat)%bool.

Fixpoint trimStart (s : string) : string :=
  match s with
  | String c r => if is_space c then trimStart r else s
  | EmptyString => s
  end.

(** An optional sign in front of the digits. *)
Definition read_sign (s : string) : Z * string :=
  match s with
  | String "-" r => (-1, r)
  | String "+" r => (1, r)
  | _ => (1, s)
  end.

(** A [0x]/[0X] prefix selects radix 16; otherwise the radix is 10. *)
Definition read_radix (s : string) : Z * string :=
  match s with
  | String "0" (String "x" r) => (16, r)
  | String "0" (String "X" r) => (16, r)
  | _ => (10, s)
  end.

(** [parseInt(s)] without a radix argument: leading white space is
    skipped, a sign is read, the radix is chosen, then the longest run of
    digits is the value; characters after it are ignored.  [None] is
    [NaN]. *)
Definition parseInt (s : string) : option Z :=
  let '(sign, s) := read_sign (trimStart s) in
  let '(radix, s) := read_radix s in
  match parse_digits radix None s with
  | Some v => Some (sign * v)
  | None => None
  end.

End JS.

(** ** Data model *)

(** A chat message as the engine sees it: who wrote it, its text, and
    whether the bot may delete it ([Message.deletable]). *)
Record Message := {
  mid : string;
  author : string;
  content : string;
  deletable : bool;
}.

(** [GuildEmoji | ReactionEmoji]: a custom emoji has an [id], a Unicode
    emoji has only its [name]. *)
Record Emoji := {
  emoji_id : option string;
  emoji_name : string;
}.

(** What [awaitReactions] hands to its filter: the reaction and the user. *)
Record MessageReaction := {
  emoji : Emoji;
  reactor : string;
}.

(** The validation argument [options: string[] | RegExp].  A regular
    expression is represented by its [test] method. *)
Inductive Options :=
| RegExp (test : string -> bool)
| Array (choices : list string).

(** Requests handed to the chat transport. [caught] records whether the
    source attaches [.catch(() => null)] to the request. *)
Inductive Request :=
| ChannelSend (channel text : string)
| ChannelSendEmbed (channel description : string)
| MessageEdit (m : Message) (description : string) (caught : bool)
| MessageDelete (m : Message) (delay : Z) (caught : bool)
| MessageReact (m : Message) (emoji : string).

(** The instance fields of a [PromptManager]. [promptTimeout] is
    [client.settings.promptTimeout]. *)
Record PromptManager := {
  user : string;
  channel : string;
  trigger_channel : string;
  promptTimeout : Z;
  msg : option Message;
}.

(** Process-wide state: the static [PromptManager.prompts] and the
    requests issued so far, oldest first. *)
Record World := {
  prompts : gset string;
  outbox : list Request;
}.

Definition set_msg (this : PromptManager) (m : option Message) : PromptManager :=
  {| user := user this; channel := channel this;
     trigger_channel := trigger_channel this;
     promptTimeout := promptTimeout this; msg := m |}.

Definition request (r : Request) (w : World) : World :=
  {| prompts := prompts w; outbox := outbox w ++ [r] |}.

Definition prompts_add (u : string) (w : World) : World :=
  {| prompts := {[u]} ∪ prompts w; outbox := outbox w |}.

Definition prompts_delete (u : string) (w : World) : World :=
  {| prompts := prompts w ∖ {[u]}; outbox := outbox w |}.

(** ** The transport's collectors *)

(** [awaitMessages(filter, {max: 1, time})] and
    [awaitReactions(filter, {max: 1, time})], then [.first()].  Each event
    carries the milliseconds elapsed since the previous one (since the
    start of the wait for the first).  The first event passing the filter
    before [time] has run out is returned with the events still to come;
    otherwise the collection is empty. *)
Fixpoint awaitFirst {E} (filter : E -> bool) (time : Z) (events : list (Z * E))
  : option (E * list (Z * E)) :=
  match events with
  | [] => None
  | (gap, e) :: rest =>
      if time <=? gap then None
      else if filter e then Some (e, rest)
      else awaitFirst filter (time - gap) rest
  end.

Definition awaitMessages (this : PromptManager) (timeout : Z)
    (events : list (Z * Message)) :=
  awaitFirst (fun m => String.eqb (author m) (user this)) (1000 * 60 * timeout) events.

Definition awaitReactions (this : PromptManager) (timeout : Z)
    (events : list (Z * MessageReaction)) :=
  awaitFirst (fun r => String.eqb (reactor r) (user this)) (1000 * 60 * timeout) events.

(** ** PromptManager methods *)

(** [sendQuestion(question)]: the first render sends the embed and keeps
    the message the channel answers with ([sent]); later renders edit it.
    [message] starts the first render without awaiting it: here the send
    is taken to have resolved, and [this.msg] to be set, when the awaited
    input arrives.  The send that is still in flight at that moment is
    modelled apart, in [Unawaited]. *)
Definition sendQuestion (sent : Message) (question : string)
    (this : PromptManager) (w : World) : PromptManager * World :=
  match msg this with
  | None => (set_msg this (Some sent), request (ChannelSendEmbed (channel this) question) w)
  | Some m => (this, request (MessageEdit m question true) w)
  end.

(** [delete()] *)
Definition delete (this : PromptManager) (w : World) : World :=
  let w := prompts_delete (user this) w in
  match msg this with
  | Some m => if deletable m then request (MessageDelete m 0 false) w else w
  | None => w
  end.

(** The placeholder of an error template. *)
Definition placeholder : string := "{VALUE}".

(** Modelled from the spec: [String.prototype.substitute] is a helper of the
    repository that is not among the sources; by the spec it replaces the
    literal placeholder [{VALUE}] of an error template by the invalid input.
    [substitute_go value skip s] copies [s], replacing each occurrence of
    the placeholder by [value] and skipping the [skip] characters that
    remain of the occurrence just replaced. *)
Fixpoint substitute_go (value : string) (skip : nat) (s : string) : string :=
  match s with
  | EmptyString => EmptyString
  | String c r =>
      match skip with
      | S k => substitute_go value k r
      | O =>
          if JS.startsWith s placeholder
          then value +:+ substitute_go value (String.length placeholder - 1) r
          else String c (substitute_go value 0 r)
      end
  end.

(** Modelled from the spec: [template.substitute({ VALUE: value })]. *)
Definition substitute (template value : string) : string :=
  substitute_go value 0 template.

(** The test of lines 75-76 of [message]: a pattern must be found by
    [test]; an array accepts when it is empty or lists the text. *)
Definition accepts (options : Options) (text : string) : bool :=
  match options with
  | RegExp test => test text
  | Array choices =>
      match choices with
      | [] => true
      | _ => JS.includes choices text
      end
  end.

(** ['quit'.startsWith(input.content.toLowerCase())] *)
Definition is_quit (text : string) : bool :=
  JS.startsWith "quit" (JS.toLowerCase text).

(** The error line of a rejected text input. *)
Definition error_line (error : option string) (text : string) : string :=
  JS.or_else (option_map (fun e => substitute e text) error)
             ("`" +:+ text +:+ "` is not a valid choice! Please try again.").

(** One activation of an asynchronous method either completes or ends in
    the tail call that asks again, with the events not yet consumed. *)
Inductive Step (R E : Type) :=
| Done (result : R * PromptManager * World)
| Again (this : PromptManager) (w : World) (rest : list (Z * E)).
Arguments Done {R E} _.
Arguments Again {R E} _ _ _.

(** The state in which an activation of [message] that passed the guard
    is suspended at its [await] (lines 54-58), once the send that line 56
    starts without awaiting it has resolved: the user is registered and,
    on the initial activation, the question is rendered. *)
Definition message_pending (this : PromptManager) (w : World)
    (question : string) (initial : bool) (sent : Message) : PromptManager * World :=
  let w := prompts_add (user this) w in
  if initial then sendQuestion sent question this w else (this, w).

(** The body of [message] up to the recursive call of its last line. *)
Definition message_body (this : PromptManager) (w : World)
    (question : string) (options : Options) (error : option string)
    (timeout : option Z) (initial : bool)
    (sent : Message) (events : list (Z * Message))
  : Step (option string) Message :=
  let timeout := default (promptTimeout this) timeout in
  if decide (user this ∈ prompts w) then
    Done (None, this,
          request (ChannelSend (trigger_channel this) "You already have another prompt open!") w)
  else
    let '(this, w) := message_pending this w question initial sent in
    match awaitMessages this timeout events with
    | None =>
        let w := prompts_delete (user this) w in
        let w := delete this w in
        Done (None, this,
              request (ChannelSend (trigger_channel this) "The prompt timed out!") w)
    | Some (input, rest) =>
        let w := prompts_delete (user this) w in
        let w := if deletable input then request (MessageDelete input 1000 true) w else w in
        if is_quit (content input) then
          Done (None, this,
                request (ChannelSend (trigger_channel this) "Successfully cancelled the prompt!") w)
        else if accepts options (content input) then
          Done (Some (content input), this, w)
        else
          let '(this, w) :=
            sendQuestion sent
              (error_line error (content input) +:+ String "010" (String "010" question))
              this w in
          Again this w rest
    end.

(** Case analysis that remembers which case was taken. *)
Definition inspect {A} (a : A) : {b : A | a = b} := exist _ a eq_refl.

(** [message(question, options, error, timeout, initial)] *)
Equations? message (this : PromptManager) (w : World)
    (question : string) (options : Options) (error : option string)
    (timeout : option Z) (initial : bool)
    (sent : Message) (events : list (Z * Message))
  : option string * PromptManager * World by wf (length events) lt :=
  message this w question options error timeout initial sent events
    with inspect (message_body this w question options error timeout initial sent events) := {
    | exist _ (Done r) _ => r
    | exist _ (Again this' w' rest) H =>
        message this' w' question options error timeout false sent rest }.
Proof.
  revert H. unfold message_body. case_decide; [done|].
  destruct (message_pending _ _ _ _ _) as [this1 w1]. unfold awaitMessages.
  destruct (awaitFirst _ _ events) as [[input rest0]|] eqn:Hw; [|done].
  destruct (is_quit _); [done|]. destruct (accepts _ _); [done|].
  destruct (sendQuestion _ _ _ _). intros [= _ _ <-].
  revert Hw. generalize (1000 * 60 * default (promptTimeout this) timeout).
  generalize (user this1). clear.
  induction events as [|[gap x] events IH]; intros u time; simpl; [done|].
  destruct (time <=? gap); [done|]. destruct (_ =? _)%string.
  - intros [= _ <-]. lia.
  - intros Hw. apply IH in Hw. lia.
Defined.

(** A promise settles with a value (or [void]) or rejects. *)
Inductive Completion (A : Type) :=
| Returned (value : option A)
| Thrown (exn : string).
Arguments Returned {A} _.
Arguments Thrown {A} _.

(** The stable identity of an emoji, [input.emoji.id || input.emoji.name]. *)
Definition identity (e : Emoji) : string :=
  JS.or_else (emoji_id e) (emoji_name e).

(** The test of lines 116-117 of [reaction]. *)
Definition accepts_emoji (options : Options) (e : Emoji) : bool :=
  match options with
  | RegExp test => test (emoji_name e)
  | Array choices =>
      match choices with
      | [] => true
      | _ => JS.includes choices (identity e)
      end
  end.

(** [options.map(r => this.msg?.react(r))] when [react] is set and
    [options] is an array. *)
Definition seed_reactions (react : bool) (options : Options)
    (this : PromptManager) (w : World) : World :=
  match options with
  | Array choices =>
      if react then
        match msg this with
        | Some m => foldl (fun w r => request (MessageReact m r) w) w choices
        | None => w
        end
      else w
  | RegExp _ => w
  end.

(** The state in which an activation of [reaction] that passed the guard
    reaches its [await] (lines 101-106): the user is registered, the
    question is rendered on the initial activation, and the options are
    attached as reactions when asked for. *)
Definition reaction_pending (this : PromptManager) (w : World)
    (question : string) (options : Options) (react : bool) (initial : bool)
    (sent : Message) : PromptManager * World :=
  let w := prompts_add (user this) w in
  let '(this, w) :=
    if initial then sendQuestion sent question this w else (this, w) in
  (this, seed_reactions react options this w).

(** The body of [reaction] up to the recursive call of its last line, on
    the runs in which the transport fulfils the requests awaited at lines
    103 and 104 (their rejection is part of [reaction_start]).
    [this.msg!.awaitReactions] throws when no message was ever rendered. *)
Definition reaction_body (this : PromptManager) (w : World)
    (question : string) (options : Options) (react : bool)
    (error : option string) (timeout : option Z) (initial : bool)
    (sent : Message) (events : list (Z * MessageReaction))
  : Step (Completion Emoji) MessageReaction :=
  let timeout := default (promptTimeout this) timeout in
  if decide (user this ∈ prompts w) then
    Done (Returned None, this,
          request (ChannelSend (trigger_channel this) "You already have another prompt open!") w)
  else
    let '(this, w) := reaction_pending this w question options react initial sent in
    match msg this with
    | None => Done (Thrown "TypeError", this, w)
    | Some _ =>
        match awaitReactions this timeout events with
        | None =>
            let w := prompts_delete (user this) w in
            let w := delete this w in
            Done (Returned None, this,
                  request (ChannelSend (trigger_channel this) "The prompt timed out!") w)
        | Some (input, rest) =>
            let w := prompts_delete (user this) w in
            if accepts_emoji options (emoji input) then
              Done (Returned (Some (emoji input)), this, w)
            else
              let '(this, w) :=
                sendQuestion sent
                  (JS.or_else error "That is not a valid choice! Please try again."
                     +:+ String "010" (String "010" question))
                  this w in
              Again this w rest
        end
    end.

(** [reaction(question, options, react, error, timeout, initial)] *)
Equations? reaction (this : PromptManager) (w : World)
    (question : string) (options : Options) (react : bool)
    (error : option string) (timeout : option Z) (initial : bool)
    (sent : Message) (events : list (Z * MessageReaction))
  : Completion Emoji * PromptManager * World by wf (length events) lt :=
  reaction this w question options react error timeout initial sent events
    with inspect (reaction_body this w question options react error timeout initial
                    sent events) := {
    | exist _ (Done r) _ => r
    | exist _ (Again this' w' rest) H =>
        reaction this' w' question options react error timeout false sent rest }.
Proof.
  revert H. unfold reaction_body. case_decide; [done|].
  destruct (reaction_pending _ _ _ _ _ _ _) as [this1 w1].
  destruct (msg this1); [|done]. unfold awaitReactions.
  destruct (awaitFirst _ _ events) as [[input rest0]|] eqn:Hw; [|done].
  destruct (accepts_emoji _ _); [done|].
  destruct (sendQuestion _ _ _ _). intros [= _ _ <-].
  revert Hw. generalize (1000 * 60 * default (promptTimeout this) timeout).
  generalize (user this1). clear.
  induction events as [|[gap x] events IH]; intros u time; simpl; [done|].
  destruct (time <=? gap); [done|]. destruct (_ =? _)%string.
  - intros [= _ <-]. lia.
  - intros Hw. apply IH in Hw. lia.
Defined.

Section ChooseOne.

(** The element type of the choices, its conversion to a string in a
    template literal, and the repository's [String.prototype.toCodeblock]
    (not among the sources; its first argument is the language). *)
Context {T : Type} (show : T → string) (toCodeblock : string → string → string).

(** [choices.map((c, i) => `${i + 1} | ${c}`)] *)
Definition choice_lines (choices : list T) : list string :=
  imap (fun i c => JS.toString (i + 1) +:+ " | " +:+ show c) choices.

(** [choices.map((_, i) => (i + 1).toString())] *)
Definition choice_keys (choices : list T) : list string :=
  imap (fun i _ => JS.toString (i + 1)) choices.

(** [choices[parseInt(choice) - 1]] *)
Definition pick (choices : list T) (choice : string) : option T :=
  match JS.parseInt choice with
  | Some n => if 0 <=? n - 1 then choices !! Z.to_nat (n - 1) else None
  | None => None
  end.

(** [chooseOne(question, choices)] *)
Definition chooseOne (this : PromptManager) (w : World)
    (question : string) (choices : list T)
    (sent : Message) (events : list (Z * Message))
  : option T * PromptManager * World :=
  let '(choice, this, w) :=
    message this w
      (question +:+ toCodeblock "css" (JS.join (String "010" "") (choice_lines choices)))
      (Array (choice_keys choices))
      (Some "`{VALUE}` is not a valid option! Please try again.")
      None true sent events in
  match choice with
  | Some c => if JS.truthy c then (pick choices c, this, w) else (None, this, w)
  | None => (None, this, w)
  end.

End ChooseOne.

(** ** The troubleshoot command *)

Module Troubleshoot.

(** A help page: the title and footer of its embed. *)
Record Embed := { title : string; footer : string }.

(** The pages pushed by [execute], in order. *)
Definition pages : list Embed :=
  [ {| title := "Troubleshooting"; footer := "1/10" |};
    {| title := "Notice for MiUI users!"; footer := "2/10" |};
    {| title := "App Compatibility issue"; footer := "3/10" |};
    {| title := "How to enable dark splashscreen?"; footer := "4/10" |};
    {| title := "Disable 60fps playback"; footer := "5/10" |};
    {| title := "What to do if I don't get any notifications?"; footer := "6/10" |};
    {| title := "I changed the password of my Google account, now I can't use Vanced, help!";
       footer := "7/10" |};
    {| title := "Smartphones are turning back into dumbphones"; footer := "8/10" |};
    {| title := "Home Ads"; footer := "9/10" |};
    {| title := "My issue isn't listed here"; footer := "10/10" |} ].

(** [pages.length] *)
Definition pages_length : Z := Z.of_nat (length pages).

(** [parseInt(args[0])]; a missing argument parses to [NaN]. *)
Definition parsed (args : list string) : option Z :=
  match args with
  | a :: _ => JS.parseInt a
  | [] => None
  end.

(** Lines 137-143: the page the command opens on. *)
Definition start_page (args : list string) : Z :=
  let page :=
    match parsed args with
    | None => 0
    | Some n => if (n >? pages_length) || (n <=? 0) then 0 else n - 1
    end in
  if page >? pages_length then 0 else page.

(** What [execute] leaves behind: a page sent on its own (a page other
    than the index was asked for), or the index page with its reaction
    collector installed and the page counter the collector closes over. *)
Inductive Session :=
| Static (page : Z)
| Paged (page : Z).

Definition execute (args : list string) : Session :=
  let page := start_page args in
  if page >? 0 then Static page else Paged page.

(** The [collect] handler of the author's collector: the new value of
    [page] and the page the message is edited to, if any. *)
Definition collect (page : Z) (name : string) : Z * option Z :=
  if String.eqb name "⏪" then
    if page =? 0 then (page, None) else (0, Some 0)
  else if String.eqb name "⬅️" then
    if page =? 0 then (page, None) else (page - 1, Some (page - 1))
  else if String.eqb name "➡️" then
    if page + 1 =? pages_length then (page, None) else (page + 1, Some (page + 1))
  else if String.eqb name "⏩" then
    if page + 1 =? pages_length then (page, None)
    else (pages_length - 1, Some (pages_length - 1))
  else (page, None).

(** The counter after a sequence of collected reactions. *)
Definition browse (page : Z) (names : list string) : Z :=
  foldl (fun p n => fst (collect p n)) page names.

End Troubleshoot.

(** ** Vocabulary of the properties *)

(** The notice a refused call leaves on the trigger's channel. *)
Definition refuse (this : PromptManager) (w : World) : World :=
  request (ChannelSend (trigger_channel this) "You already have another prompt open!") w.

(** A notice on the trigger's channel. *)
Definition notify (text : string) (this : PromptManager) (w : World) : World :=
  request (ChannelSend (trigger_channel this) text) w.

(** Lines 60 and 68 of [message]: the await delivered [input]; the
    registry entry is released and the input's deletion is requested
    (with its failure caught) when it is deletable. *)
Definition received (input : Message) (this : PromptManager) (w : World) : World :=
  let w := prompts_delete (user this) w in
  if deletable input then request (MessageDelete input 1000 true) w else w.

(** Lines 60-65 of [message], 108-113 of [reaction]: the await delivered
    nothing. *)
Definition timed_out (this : PromptManager) (w : World) : World :=
  notify "The prompt timed out!" this (delete this (prompts_delete (user this) w)).

(** The re-render of a rejected text input. *)
Definition retry_text (error : option string) (question text : string) : string :=
  error_line error text +:+ String "010" (String "010" question).

(** The text is, ignoring case, a non-empty prefix of the word quit. *)
Definition quit_prefix (text : string) : Prop :=
  text ≠ "" ∧ ∃ suffix, JS.toLowerCase text +:+ suffix = "quit".


(** The request [sendQuestion] issues: a send while no message was
    rendered yet, an edit of the rendered message afterwards. *)
Definition render (this : PromptManager) (question : string) : Request :=
  match msg this with
  | None => ChannelSendEmbed (channel this) question
  | Some m => MessageEdit m question true
  end.

(** The request [delete()] issues: the rendered message is deleted when it
    is deletable. *)
Definition cleanup (this : PromptManager) : list Request :=
  match msg this with
  | Some m => if deletable m then [MessageDelete m 0 false] else []
  | None => []
  end.

(** A deletion request is the caught, delayed deletion of a message written
    by user [u]; any other kind of request passes. *)
Definition input_deletion (u : string) (r : Request) : Prop :=
  match r with
  | MessageDelete m d c => author m = u ∧ d = 1000 ∧ c = true
  | _ => True
  end.

(** The request sends a new embed (rather than editing a rendered one). *)
Definition fresh_render (r : Request) : bool :=
  match r with
  | ChannelSendEmbed _ _ => true
  | _ => false
  end.

(** Two states of one instance: all fields but [msg] are read-only. *)
Definition same_session (a b : PromptManager) : Prop :=
  user a = user b ∧ channel a = channel b ∧
  trigger_channel a = trigger_channel b ∧ promptTimeout a = promptTimeout b.

(** The text is the decimal numeral of an integer between [lo] and [hi]. *)
Definition integer_between (lo hi : nat) (s : string) : Prop :=
  ∃ n : nat, (lo ≤ n ≤ hi)%nat ∧ s = JS.toString n.

(** ** Example data *)

(** A concrete session used by the examples below: user 42 in channel
    "general", the message the channel answers a send with, and the user's
    replies. *)
Definition alice : PromptManager :=
  {| user := "42"; channel := "general"; trigger_channel := "general";
     promptTimeout := 5; msg := None |}.

Definition idle : World := {| prompts := ∅; outbox := [] |}.

Definition busy : World := {| prompts := {["42"]}; outbox := [] |}.

Definition card : Message :=
  {| mid := "900"; author := "bot"; content := ""; deletable := true |}.

Definition reply (text : string) : Message :=
  {| mid := "901"; author := "42"; content := text; deletable := true |}.

Definition passerby (text : string) : Message :=
  {| mid := "902"; author := "7"; content := text; deletable := false |}.

Definition thumbs_up : Emoji := {| emoji_id := None; emoji_name := "👍" |}.

Definition party : Emoji := {| emoji_id := Some "123"; emoji_name := "party" |}.

Definition reacts (e : Emoji) : MessageReaction := {| emoji := e; reactor := "42" |}.

(** ** Vocabulary of the further properties *)



(** The embeds among a list of requests. *)
Definition embeds (added : list Request) : list Request :=
  List.filter fresh_render added.

(** How the rendered message of an instance and the embeds sent relate
    between two states of the instance with the requests [added] in
    between: either the instance keeps its [msg] and no embed was sent, or
    it had none, one embed was sent to its channel, and [msg] is the
    message [sent] the channel answered with. *)
Definition accounted (sent : Message) (this this' : PromptManager)
    (added : list Request) : Prop :=
  same_session this' this ∧
  ((msg this' = msg this ∧ embeds added = []) ∨
   (msg this = None ∧ msg this' = Some sent ∧
    ∃ description, embeds added = [ChannelSendEmbed (channel this) description])).

(** [pages[page]]: the embed at an index, [undefined] outside the array. *)
Definition page_at (page : Z) : option Troubleshoot.Embed :=
  if 0 <=? page then Troubleshoot.pages !! Z.to_nat page else None.

(** The request is a plain text sent to a channel (in [PromptManager],
    always one of the three notices). *)
Definition is_notice (r : Request) : bool :=
  match r with
  | ChannelSend _ _ => true
  | _ => false
  end.

(** The three notices of [message] and [reaction]. *)
Definition notices : list string :=
  ["You already have another prompt open!"; "The prompt timed out!";
   "Successfully cancelled the prompt!"].

(** The request attaches a reaction to a message. *)
Definition is_react (r : Request) : bool :=
  match r with
  | MessageReact _ _ => true
  | _ => false
  end.

(** ** The two phases of an activation

    An asynchronous method runs from its call to its await, is suspended
    there while other calls run, and goes on when the await settles.  The
    two halves of [message] and of [reaction] are given here on their own;
    between them the state of the world is whatever the calls that ran in
    the meantime left. *)

(** How the first half ends: refused by the guard, ended by an exception,
    or suspended at the await. *)
Inductive Entry :=
| Refused (w : World)
| Threw (this : PromptManager) (w : World)
| Suspended (this : PromptManager) (w : World).

(** Lines 51-58 of [message]: from the call to the await. *)
Definition message_start (this : PromptManager) (w : World)
    (question : string) (initial : bool) (sent : Message) : Entry :=
  if decide (user this ∈ prompts w) then
    Refused (request (ChannelSend (trigger_channel this)
                        "You already have another prompt open!") w)
  else
    let w := prompts_add (user this) w in
    let '(this, w) :=
      if initial then sendQuestion sent question this w else (this, w) in
    Suspended this w.

(** Lines 60-78 of [message]: from the settled await to the return or to
    the tail call. *)
Definition message_resume (this : PromptManager) (w : World)
    (question : string) (options : Options) (error : option string) (sent : Message)
    (awaited : option (Message * list (Z * Message)))
  : Step (option string) Message :=
  match awaited with
  | None =>
      let w := prompts_delete (user this) w in
      let w := delete this w in
      Done (None, this,
            request (ChannelSend (trigger_channel this) "The prompt timed out!") w)
  | Some (input, rest) =>
      let w := prompts_delete (user this) w in
      let w := if deletable input then request (MessageDelete input 1000 true) w else w in
      if is_quit (content input) then
        Done (None, this,
              request (ChannelSend (trigger_channel this)
                         "Successfully cancelled the prompt!") w)
      else if accepts options (content input) then
        Done (Some (content input), this, w)
      else
        let '(this, w) :=
          sendQuestion sent
            (error_line error (content input) +:+ String "010" (String "010" question))
            this w in
        Again this w rest
  end.

(** How the transport answers the requests an activation of [reaction]
    awaits before its await of the reactions: all fulfilled, the send of
    line 103 rejected, or a reaction of line 104 rejected. *)
Inductive Transport :=
| Delivered
| SendRejected
| ReactRejected.

(** [sendQuestion] sends a new embed: there is no rendered message yet. *)
Definition sends_embed (initial : bool) (this : PromptManager) : bool :=
  match msg this with
  | None => initial
  | Some _ => false
  end.

(** Line 104 attaches at least one reaction. *)
Definition attaches (react : bool) (options : Options) (this : PromptManager) : bool :=
  match options, msg this with
  | Array (_ :: _), Some _ => react
  | _, _ => false
  end.

(** Lines 98-106 of [reaction]: from the call to the await of the
    reactions.  The awaits of lines 103 and 104 throw when the request they
    wait for is rejected, and [this.msg!.awaitReactions] throws when there
    is no rendered message; the edit of a rendered message is not awaited
    and its failure is swallowed. *)
Definition reaction_start (this : PromptManager) (w : World)
    (question : string) (options : Options) (react : bool) (initial : bool)
    (sent : Message) (transport : Transport) : Entry :=
  if decide (user this ∈ prompts w) then
    Refused (request (ChannelSend (trigger_channel this)
                        "You already have another prompt open!") w)
  else
    let w := prompts_add (user this) w in
    match transport, sends_embed initial this with
    | SendRejected, true =>
        Threw this (request (ChannelSendEmbed (channel this) question) w)
    | _, _ =>
        let '(this, w) :=
          if initial then sendQuestion sent question this w else (this, w) in
        let w := seed_reactions react options this w in
        match transport, attaches react options this with
        | ReactRejected, true => Threw this w
        | _, _ =>
            match msg this with
            | None => Threw this w
            | Some _ => Suspended this w
            end
        end
    end.

(** Lines 108-119 of [reaction]: from the settled await to the return or
    to the tail call. *)
Definition reaction_resume (this : PromptManager) (w : World)
    (question : string) (options : Options) (error : option string) (sent : Message)
    (awaited : option (MessageReaction * list (Z * MessageReaction)))
  : Step (Completion Emoji) MessageReaction :=
  match awaited with
  | None =>
      let w := prompts_delete (user this) w in
      let w := delete this w in
      Done (Returned None, this,
            request (ChannelSend (trigger_channel this) "The prompt timed out!") w)
  | Some (input, rest) =>
      let w := prompts_delete (user this) w in
      if accepts_emoji options (emoji input) then
        Done (Returned (Some (emoji input)), this, w)
      else
        let '(this, w) :=
          sendQuestion sent
            (JS.or_else error "That is not a valid choice! Please try again."
               +:+ String "010" (String "010" question))
            this w in
        Again this w rest
  end.

(** ** Calls in flight

    The process as the event loop sees it: the world, and the calls that
    are suspended at their await, each with the instance it runs on and the
    arguments its tail call passes on. *)

Inductive Call :=
| MessageCall (question : string) (options : Options) (error : option string)
    (sent : Message)
| ReactionCall (question : string) (options : Options) (react : bool)
    (error : option string) (sent : Message).

Record Suspension := {
  holder : PromptManager;
  call : Call;
}.

Record System := {
  world : World;
  suspended : list Suspension;
}.

(** What settles an await: its timer, a message or a reaction. *)
Inductive Outcome :=
| Timeout
| Received (m : Message)
| Reacted (r : MessageReaction).

(** What the event loop runs: a call of [message] or [reaction] up to its
    await, the rest of the [i]-th suspended call once its await settles, an
    assignment of [this.msg] on the instance of the [i]-th suspended call,
    or a call of [delete()].  [t] is the answer of the transport to the
    requests that the activation of [reaction] so started awaits.  The
    phases take the send of a render to resolve at once; [Resolve] makes
    [this.msg] what the sends in flight have made it by then, [None] when
    none has resolved yet. *)
Inductive Action :=
| Enter (c : Call) (initial : bool) (t : Transport) (this : PromptManager)
| Settle (i : nat) (o : Outcome) (t : Transport)
| Resolve (i : nat) (m : option Message)
| CallDelete (this : PromptManager).

(** A call runs to its await.  The awaits of lines 103 and 104 are taken to
    settle before another call runs: the registry entry is held from line
    101 on, so a call that ran in between would find what one that runs
    during the await of line 106 finds. *)
Definition enter (c : Call) (initial : bool) (t : Transport) (this : PromptManager)
    (s : System) : System :=
  let entry :=
    match c with
    | MessageCall question _ _ sent =>
        message_start this (world s) question initial sent
    | ReactionCall question options react _ sent =>
        reaction_start this (world s) question options react initial sent t
    end in
  match entry with
  | Refused w | Threw _ w => {| world := w; suspended := suspended s |}
  | Suspended this w =>
      {| world := w; suspended := {| holder := this; call := c |} :: suspended s |}
  end.

(** The second half of the suspended call [x] on the settled await, when
    the outcome is of the kind the call awaits. *)
Definition resume (x : Suspension) (o : Outcome) (w : World)
  : option (bool * PromptManager * World) :=
  match call x, o with
  | MessageCall question options error sent, Timeout =>
      match message_resume (holder x) w question options error sent None with
      | Done (_, this, w) => Some (false, this, w)
      | Again this w _ => Some (true, this, w)
      end
  | MessageCall question options error sent, Received m =>
      match message_resume (holder x) w question options error sent (Some (m, [])) with
      | Done (_, this, w) => Some (false, this, w)
      | Again this w _ => Some (true, this, w)
      end
  | ReactionCall question options _ error sent, Timeout =>
      match reaction_resume (holder x) w question options error sent None with
      | Done (_, this, w) => Some (false, this, w)
      | Again this w _ => Some (true, this, w)
      end
  | ReactionCall question options _ error sent, Reacted r =>
      match reaction_resume (holder x) w question options error sent (Some (r, [])) with
      | Done (_, this, w) => Some (false, this, w)
      | Again this w _ => Some (true, this, w)
      end
  | _, _ => None
  end.

(** The [i]-th suspended call goes on: it completes, or its tail call runs
    to the next await. *)
Definition settle (i : nat) (o : Outcome) (t : Transport) (s : System) : System :=
  match suspended s !! i with
  | None => s
  | Some x =>
      match resume x o (world s) with
      | None => s
      | Some (again, this, w) =>
          let others := (take i (suspended s) ++ drop (S i) (suspended s))%list in
          if again then enter (call x) false t this {| world := w; suspended := others |}
          else {| world := w; suspended := others |}
      end
  end.

(** [this.msg] of the instance of the [i]-th suspended call becomes [m]. *)
Definition resolve (i : nat) (m : option Message) (s : System) : System :=
  {| world := world s;
     suspended :=
       alter (fun x => {| holder := set_msg (holder x) m; call := call x |})
             i (suspended s) |}.

Definition perform (s : System) (a : Action) : System :=
  match a with
  | Enter c initial t this => enter c initial t this s
  | Settle i o t => settle i o t s
  | Resolve i m => resolve i m s
  | CallDelete this => {| world := delete this (world s); suspended := suspended s |}
  end.

Definition run (actions : list Action) (s : System) : System :=
  foldl perform s actions.

(** The action is a phase of [message] or [reaction]. *)
Definition prompt_action (a : Action) : Prop :=
  match a with
  | CallDelete _ => False
  | _ => True
  end.

(** At most one call is suspended per user, and the registry holds the
    entry of every user with a suspended call. *)
Definition one_per_user (s : System) : Prop :=
  NoDup ((fun x => user (holder x)) <$> suspended s) ∧
  ∀ x, x ∈ suspended s → user (holder x) ∈ prompts (world s).

(** A second instance of the user of [alice], in another channel. *)
Definition alice_elsewhere : PromptManager :=
  {| user := "42"; channel := "help"; trigger_channel := "help";
     promptTimeout := 5; msg := None |}.

Definition nothing_open : System := {| world := idle; suspended := [] |}.

(** ** The renders of [message] are not awaited

    Line 56 calls [sendQuestion] without awaiting it, and so does line 78:
    [message] goes on to its await while [channel.send] is in flight, and
    [this.msg] is assigned only when the send resolves (line 25).  The
    definitions of [message] above take every send to have resolved when
    the awaited input arrives.  Here a send takes time: the transport
    answers each embed sent with the message it creates and the
    milliseconds it takes to do so. *)

(** The first event passing the filter before [time] has run out, with the
    milliseconds elapsed when it arrives and the events still to come. *)
Fixpoint awaitFirstAt {E} (filter : E -> bool) (time elapsed : Z) (events : list (Z * E))
  : option (E * Z * list (Z * E)) :=
  match events with
  | [] => None
  | (gap, e) :: rest =>
      if time <=? gap then None
      else if filter e then Some (e, elapsed + gap, rest)
      else awaitFirstAt filter (time - gap) (elapsed + gap) rest
  end.

(** A send in flight is put in the order in which the sends resolve. *)
Fixpoint lodge (x : Z * Message) (l : list (Z * Message)) : list (Z * Message) :=
  match l with
  | [] => [x]
  | y :: l' => if x.1 <? y.1 then x :: l else y :: lodge x l'
  end.

Module Unawaited.

(** The instance, the sends in flight (milliseconds left, message
    created) and the answers of the transport to the sends to come. *)
Record Racing := {
  manager : PromptManager;
  inflight : list (Z * Message);
  answers : list (Z * Message);
}.

(** [ms] milliseconds pass: the sends that resolve assign [this.msg]
    (line 25), in the order in which they resolve. *)
Definition elapse (ms : Z) (r : Racing) : Racing :=
  foldl (fun r '(wait, m) =>
           if wait <=? ms then
             {| manager := set_msg (manager r) (Some m);
                inflight := inflight r; answers := answers r |}
           else
             {| manager := manager r;
                inflight := (inflight r ++ [(wait - ms, m)])%list;
                answers := answers r |})
        {| manager := manager r; inflight := []; answers := answers r |}
        (inflight r).

(** [sendQuestion(question)] up to its await: with no [this.msg] the
    embed is sent, whether or not an earlier send is still in flight. *)
Definition sendQuestion (question : string) (r : Racing) (w : World)
  : Racing * World :=
  match msg (manager r) with
  | None =>
      let w := request (ChannelSendEmbed (channel (manager r)) question) w in
      match answers r with
      | [] => (r, w)
      | a :: more =>
          ({| manager := manager r; inflight := lodge a (inflight r);
              answers := more |}, w)
      end
  | Some m => (r, request (MessageEdit m question true) w)
  end.

Inductive Step :=
| Done (result : option string * Racing * World)
| Again (r : Racing) (w : World) (rest : list (Z * Message)).

(** The body of [message] up to the recursive call of its last line. *)
Definition message_body (r : Racing) (w : World)
    (question : string) (options : Options) (error : option string)
    (timeout : option Z) (initial : bool) (events : list (Z * Message)) : Step :=
  let this := manager r in
  let timeout := default (promptTimeout this) timeout in
  if decide (user this ∈ prompts w) then
    Done (None, r,
          request (ChannelSend (trigger_channel this)
                     "You already have another prompt open!") w)
  else
    let w := prompts_add (user this) w in
    let '(r, w) := if initial then sendQuestion question r w else (r, w) in
    match awaitFirstAt (fun m => String.eqb (author m) (user this))
            (1000 * 60 * timeout) 0 events with
    | None =>
        let r := elapse (1000 * 60 * timeout) r in
        let w := prompts_delete (user this) w in
        let w := delete (manager r) w in
        Done (None, r,
              request (ChannelSend (trigger_channel this) "The prompt timed out!") w)
    | Some (input, elapsed, rest) =>
        let r := elapse elapsed r in
        let w := prompts_delete (user this) w in
        let w := if deletable input then request (MessageDelete input 1000 true) w else w in
        if is_quit (content input) then
          Done (None, r,
                request (ChannelSend (trigger_channel this)
                           "Successfully cancelled the prompt!") w)
        else if accepts options (content input) then
          Done (Some (content input), r, w)
        else
          let '(r, w) :=
            sendQuestion
              (error_line error (content input) +:+ String "010" (String "010" question))
              r w in
          Again r w rest
    end.

(** [message(question, options, error, timeout, initial)] *)
Equations? message (r : Racing) (w : World)
    (question : string) (options : Options) (error : option string)
    (timeout : option Z) (initial : bool) (events : list (Z * Message))
  : option string * Racing * World by wf (length events) lt :=
  message r w question options error timeout initial events
    with inspect (message_body r w question options error timeout initial events) := {
    | exist _ (Done res) _ => res
    | exist _ (Again r' w' rest) H =>
        message r' w' question options error timeout false rest }.
Proof.
  revert H. unfold message_body. case_decide; [done|].
  destruct (if initial then _ else _) as [r1 w1].
  destruct (awaitFirstAt _ _ _ events) as [[[input elapsed] rest0]|] eqn:Hw; [|done].
  destruct (is_quit _); [done|]. destruct (accepts _ _); [done|].
  destruct (sendQuestion _ _ _). intros [= _ _ <-].
  revert Hw. generalize (1000 * 60 * default (promptTimeout (manager r)) timeout).
  generalize 0. generalize (user (manager r)). clear.
  induction events as [|[gap x] events IH]; intros u e0 time; simpl; [done|].
  destruct (time <=? gap); [done|]. destruct (_ =? _)%string.
  - intros [= _ _ <-]. lia.
  - intros Hw. apply IH in Hw. lia.
Defined.

(** An instance with nothing in flight. *)
Definition at_rest (this : PromptManager) (answers : list (Z * Message)) : Racing :=
  {| manager := this; inflight := []; answers := answers |}.

End Unawaited.

(** The send that takes [latency] milliseconds has resolved when the
    collector of the call settles: when the first message of the user
    arrives or, if none does, when the time has run out. *)
Definition resolved_by_then (latency : Z) (this : PromptManager) (timeout : Z)
    (events : list (Z * Message)) : Prop :=
  match awaitFirstAt (fun m => String.eqb (author m) (user this))
          (1000 * 60 * timeout) 0 events with
  | Some (_, elapsed, _) => latency <= elapsed
  | None => latency <= 1000 * 60 * timeout
  end.

(** A second message the channel may answer a send with. *)
Definition second_card : Message :=
  {| mid := "903"; author := "bot"; content := ""; deletable := true |}.

(** * Properties *)

(** ** Unfolding the two retry loops *)

Lemma message_step this w question options error timeout initial sent events :
  message this w question options error timeout initial sent events =
  match message_body this w question options error timeout initial sent events with
  | Done r => r
  | Again this' w' rest => message this' w' question options error timeout false sent rest
  end.
Proof.
  rewrite message_equation_1. unfold inspect.
  enough (G : ∀ s (H : message_body this w question options error timeout initial
                         sent events = s),
    message_unfold_clause_1 this w question options error timeout initial sent events
      (s ↾ H) =
    match s with
    | Done r => r
    | Again this' w' rest => message this' w' question options error timeout false sent rest
    end) by apply G.
  intros [r|this' w' rest] H; simp message; reflexivity.
Qed.

Lemma reaction_step this w question options react error timeout initial sent events :
  reaction this w question options react error timeout initial sent events =
  match reaction_body this w question options react error timeout initial sent events with
  | Done r => r
  | Again this' w' rest =>
      reaction this' w' question options react error timeout false sent rest
  end.
Proof.
  rewrite reaction_equation_1. unfold inspect.
  enough (G : ∀ s (H : reaction_body this w question options react error timeout
                         initial sent events = s),
    reaction_unfold_clause_1 this w question options react error timeout initial sent
      events (s ↾ H) =
    match s with
    | Done r => r
    | Again this' w' rest =>
        reaction this' w' question options react error timeout false sent rest
    end) by apply G.
  intros [r|this' w' rest] H; simp reaction; reflexivity.
Qed.

(** ** The model on small inputs *)

Example parseInt_examples :
  JS.parseInt "7" = Some 7 ∧ JS.parseInt "3abc" = Some 3 ∧
  JS.parseInt "  -0x1f" = Some (-31) ∧ JS.parseInt "ten" = None ∧ JS.parseInt "" = None.
Proof. repeat split. Qed.

Example is_quit_examples :
  is_quit "q" = true ∧ is_quit "QuI" = true ∧ is_quit "" = true ∧
  is_quit "quite" = false ∧ is_quit "2" = false.
Proof. repeat split. Qed.

Example substitute_example :
  substitute "`{VALUE}` is not a valid option! Please try again." "9"
  = "`9` is not a valid option! Please try again.".
Proof. reflexivity. Qed.

Example reaction_by_name :
  (reaction alice idle "Sure?" (RegExp (fun s => String.eqb s "👍")) false None None true
     card [(10, reacts thumbs_up)]).1.1 = Returned (Some thumbs_up).
Proof. vm_compute. reflexivity. Qed.

Example chooseOne_retry_then_quit :
  chooseOne id (fun _ body => body) alice idle "Pick one" ["A"; "B"; "C"] card
    [(10, reply "9"); (10, reply "quit")]
  = (None, set_msg alice (Some card),
     {| prompts := ∅;
        outbox :=
          [ChannelSendEmbed "general"
             ("Pick one1 | A" +:+ String "010" ("2 | B" +:+ String "010" "3 | C"));
           MessageDelete (reply "9") 1000 true;
           MessageEdit card
             ("`9` is not a valid option! Please try again." +:+ String "010" (String "010"
                ("Pick one1 | A" +:+ String "010" ("2 | B" +:+ String "010" "3 | C"))))
             true;
           MessageDelete (reply "quit") 1000 true;
           ChannelSend "general" "Successfully cancelled the prompt!"] |}).
Proof. vm_compute. reflexivity. Qed.

(** ** The collectors *)

Lemma awaitFirst_shorter {E} (filter : E → bool) events :
  ∀ time e rest, awaitFirst filter time events = Some (e, rest) →
  (length rest < length events)%nat.
Proof.
  induction events as [|[gap x] events IH]; intros time e rest; simpl; [done|].
  destruct (time <=? gap); [done|].
  destruct (filter x).
  - intros [= _ <-]. lia.
  - intros H. apply IH in H. lia.
Qed.

Lemma awaitFirst_filter {E} (filter : E → bool) events :
  ∀ time e rest, awaitFirst filter time events = Some (e, rest) → filter e = true.
Proof.
  induction events as [|[gap x] events IH]; intros time e rest; simpl; [done|].
  destruct (time <=? gap); [done|].
  destruct (filter x) eqn:Hf.
  - intros [= <- _]. exact Hf.
  - apply IH.
Qed.

(** ** The registry *)

Lemma same_session_refl a : same_session a a.
Proof. repeat split. Qed.

Lemma sendQuestion_session sent question this w :
  same_session (sendQuestion sent question this w).1 this.
Proof. unfold sendQuestion. destruct (msg this); repeat split. Qed.

Lemma prompts_add_delete u w :
  u ∉ prompts w → prompts (prompts_delete u (prompts_add u w)) = prompts w.
Proof.
  intros Hu. simpl. apply set_eq. intros x.
  rewrite elem_of_difference, elem_of_union, elem_of_singleton.
  split; [tauto|]. intros Hx. split; [tauto|]. congruence.
Qed.

Lemma sendQuestion_prompts sent question this w :
  prompts (sendQuestion sent question this w).2 = prompts w.
Proof. unfold sendQuestion. destruct (msg this); reflexivity. Qed.

Lemma sendQuestion_user sent question this w :
  user (sendQuestion sent question this w).1 = user this.
Proof. unfold sendQuestion. destruct (msg this); reflexivity. Qed.

Lemma seed_reactions_prompts react options this w :
  prompts (seed_reactions react options this w) = prompts w.
Proof.
  unfold seed_reactions. destruct options as [|choices]; [done|].
  destruct react; [|done]. destruct (msg this) as [m|]; [|done].
  revert w. induction choices as [|r choices IH]; intros w; simpl; [done|].
  rewrite IH. done.
Qed.

Lemma message_pending_prompts this w question initial sent :
  prompts (message_pending this w question initial sent).2 = {[user this]} ∪ prompts w.
Proof.
  unfold message_pending. destruct initial; [|done].
  rewrite sendQuestion_prompts. done.
Qed.

Lemma message_pending_session this w question initial sent :
  same_session (message_pending this w question initial sent).1 this.
Proof.
  unfold message_pending. destruct initial; [|apply same_session_refl].
  apply sendQuestion_session.
Qed.

Lemma message_pending_user this w question initial sent :
  user (message_pending this w question initial sent).1 = user this.
Proof.
  unfold message_pending. destruct initial; [|done]. apply sendQuestion_user.
Qed.

Lemma reaction_pending_prompts this w question options react initial sent :
  prompts (reaction_pending this w question options react initial sent).2
  = {[user this]} ∪ prompts w.
Proof.
  unfold reaction_pending.
  destruct initial; simpl.
  - destruct (sendQuestion _ _ _ _) as [this1 w1] eqn:E. simpl.
    rewrite seed_reactions_prompts.
    change w1 with (this1, w1).2. rewrite <- E. apply sendQuestion_prompts.
  - apply seed_reactions_prompts.
Qed.

(** ** One activation of [message] *)

Section Activation.

Context (this : PromptManager) (w : World) (question : string)
        (options : Options) (error : option string) (timeout : option Z)
        (initial : bool) (sent : Message) (events : list (Z * Message)).
Context (this1 : PromptManager) (w1 : World).
Hypothesis Hfree : user this ∉ prompts w.
Hypothesis Hpending : message_pending this w question initial sent = (this1, w1).

Let minutes := default (promptTimeout this) timeout.

Lemma pending_user : user this1 = user this.
Proof.
  change this1 with (this1, w1).1. rewrite <- Hpending. apply message_pending_user.
Qed.

Lemma pending_prompts : prompts w1 = {[user this]} ∪ prompts w.
Proof.
  change w1 with (this1, w1).2. rewrite <- Hpending. apply message_pending_prompts.
Qed.

Lemma released_prompts : prompts (prompts_delete (user this1) w1) = prompts w.
Proof.
  simpl. rewrite pending_prompts, pending_user. apply set_eq. intros x.
  rewrite elem_of_difference, elem_of_union, elem_of_singleton.
  split; [tauto|]. intros Hx. split; [tauto|]. congruence.
Qed.

Lemma received_prompts input : prompts (received input this1 w1) = prompts w.
Proof.
  unfold received. destruct (deletable input); simpl; apply released_prompts.
Qed.

Lemma message_body_timeout :
  awaitMessages this1 minutes events = None →
  message_body this w question options error timeout initial sent events
    = Done (None, this1, timed_out this1 w1).
Proof.
  intros Hwait. unfold message_body. rewrite decide_False by exact Hfree.
  rewrite Hpending. fold minutes. rewrite Hwait. reflexivity.
Qed.

Lemma message_body_input input rest :
  awaitMessages this1 minutes events = Some (input, rest) →
  message_body this w question options error timeout initial sent events
    = if is_quit (content input) then
        Done (None, this1,
              notify "Successfully cancelled the prompt!" this1 (received input this1 w1))
      else if accepts options (content input) then
        Done (Some (content input), this1, received input this1 w1)
      else
        Again (sendQuestion sent (retry_text error question (content input))
                 this1 (received input this1 w1)).1
              (sendQuestion sent (retry_text error question (content input))
                 this1 (received input this1 w1)).2
              rest.
Proof.
  intros Hwait. unfold message_body. rewrite decide_False by exact Hfree.
  rewrite Hpending. fold minutes. rewrite Hwait.
  destruct (is_quit _); [reflexivity|]. destruct (accepts _ _); [reflexivity|].
  unfold retry_text, received.
  destruct (sendQuestion _ _ _ _); reflexivity.
Qed.

End Activation.

(** ** Induction along the retries of [message] *)

Section MessageLoop.

Context (question : string) (options : Options) (error : option string)
        (timeout : option Z) (sent : Message).

Let Result : Type := option string * PromptManager * World.

(** A property of a call and its result holds of every call as soon as
    it holds on the four paths that complete, and passes from the tail
    call to the call that makes it. *)
Lemma message_ind
    (P : PromptManager → World → bool → list (Z * Message) → Result → Prop) :
  (∀ this w initial events,
      user this ∈ prompts w →
      P this w initial events (None, this, refuse this w)) →
  (∀ this w initial events this1 w1,
      user this ∉ prompts w →
      message_pending this w question initial sent = (this1, w1) →
      awaitMessages this1 (default (promptTimeout this) timeout) events = None →
      P this w initial events (None, this1, timed_out this1 w1)) →
  (∀ this w initial events this1 w1 input rest,
      user this ∉ prompts w →
      message_pending this w question initial sent = (this1, w1) →
      awaitMessages this1 (default (promptTimeout this) timeout) events
        = Some (input, rest) →
      is_quit (content input) = true →
      P this w initial events
        (None, this1,
         notify "Successfully cancelled the prompt!" this1 (received input this1 w1))) →
  (∀ this w initial events this1 w1 input rest,
      user this ∉ prompts w →
      message_pending this w question initial sent = (this1, w1) →
      awaitMessages this1 (default (promptTimeout this) timeout) events
        = Some (input, rest) →
      is_quit (content input) = false →
      accepts options (content input) = true →
      P this w initial events (Some (content input), this1, received input this1 w1)) →
  (∀ this w initial events this1 w1 input rest this2 w2 res,
      user this ∉ prompts w →
      message_pending this w question initial sent = (this1, w1) →
      awaitMessages this1 (default (promptTimeout this) timeout) events
        = Some (input, rest) →
      is_quit (content input) = false →
      accepts options (content input) = false →
      sendQuestion sent (retry_text error question (content input)) this1
        (received input this1 w1) = (this2, w2) →
      user this2 ∉ prompts w2 →
      promptTimeout this2 = promptTimeout this →
      P this2 w2 false rest res →
      P this w initial events res) →
  ∀ this w initial events,
    P this w initial events
      (message this w question options error timeout initial sent events).
Proof.
  intros Hrefuse Htimeout Hquit Haccept Hretry this w initial events.
  remember (length events) as n eqn:Hn.
  revert this w initial events Hn.
  induction n as [n IH] using lt_wf_ind.
  intros this w initial events ->.
  rewrite message_step.
  destruct (decide (user this ∈ prompts w)) as [Hopen|Hfree].
  { unfold message_body. rewrite decide_True by done. by apply Hrefuse. }
  destruct (message_pending this w question initial sent) as [this1 w1] eqn:Hp.
  destruct (awaitMessages this1 (default (promptTimeout this) timeout) events)
    as [[input rest]|] eqn:Hwait.
  - rewrite (message_body_input _ _ _ _ _ _ _ _ _ _ _ Hfree Hp _ _ Hwait).
    destruct (is_quit (content input)) eqn:Hq; [by eapply Hquit|].
    destruct (accepts options (content input)) eqn:Ha; [by eapply Haccept|].
    destruct (sendQuestion _ _ _ _) as [this2 w2] eqn:Hs. simpl.
    assert (Hu2 : user this2 = user this).
    { change this2 with (this2, w2).1. rewrite <- Hs, sendQuestion_user.
      by eapply pending_user. }
    assert (Hp2 : prompts w2 = prompts w).
    { change w2 with (this2, w2).2. rewrite <- Hs, sendQuestion_prompts.
      by eapply received_prompts. }
    eapply Hretry; eauto.
    + by rewrite Hu2, Hp2.
    + change this2 with (this2, w2).1. rewrite <- Hs.
      pose proof (sendQuestion_session sent
        (retry_text error question (content input)) this1 (received input this1 w1))
        as (_ & _ & _ & ->).
      change this1 with (this1, w1).1. rewrite <- Hp.
      apply message_pending_session.
    + eapply IH; [|reflexivity].
      unfold awaitMessages in Hwait. eapply awaitFirst_shorter, Hwait.
  - rewrite (message_body_timeout _ _ _ _ _ _ _ _ _ _ _ Hfree Hp Hwait).
    by eapply Htimeout.
Qed.

End MessageLoop.

(** ** Requests issued along a call *)

Lemma sendQuestion_outbox sent question this w :
  outbox (sendQuestion sent question this w).2 = (outbox w ++ [render this question])%list.
Proof. unfold sendQuestion, render. destruct (msg this); reflexivity. Qed.

Lemma message_pending_outbox this w question initial sent :
  outbox (message_pending this w question initial sent).2
  = (outbox w ++ if initial then [render this question] else [])%list.
Proof.
  unfold message_pending. destruct initial.
  - by rewrite sendQuestion_outbox.
  - simpl. by rewrite app_nil_r.
Qed.

Lemma received_outbox input this w :
  outbox (received input this w)
  = (outbox w ++ if deletable input then [MessageDelete input 1000 true] else [])%list.
Proof. unfold received. destruct (deletable input); simpl; [done|]. by rewrite app_nil_r. Qed.

Lemma timed_out_outbox this w :
  outbox (timed_out this w)
  = (outbox w ++ cleanup this ++ [ChannelSend (trigger_channel this) "The prompt timed out!"])%list.
Proof.
  unfold timed_out, notify, delete, cleanup.
  destruct (msg this) as [m|]; [destruct (deletable m)|]; simpl;
    by rewrite <- ?app_assoc.
Qed.

Lemma timed_out_prompts this w :
  prompts (timed_out this w) = prompts w ∖ {[user this]}.
Proof.
  unfold timed_out, notify, delete.
  destruct (msg this) as [m|]; [destruct (deletable m)|]; simpl;
    apply set_eq; intros x; rewrite !elem_of_difference; tauto.
Qed.

Lemma awaited_author this minutes events input rest :
  awaitMessages this minutes events = Some (input, rest) → author input = user this.
Proof.
  intros H. apply awaitFirst_filter in H. by apply String.eqb_eq in H.
Qed.

(** ** C2: what every completed call leaves behind *)

Lemma message_prompts this w question options error timeout initial sent events :
  prompts (message this w question options error timeout initial sent events).2 = prompts w.
Proof.
  revert this w initial events.
  apply (message_ind question options error timeout sent
           (fun this w _ _ res => prompts res.2 = prompts w)); cbn [fst snd].
  - done.
  - intros this w initial events this1 w1 Hfree Hp _.
    rewrite timed_out_prompts.
    rewrite (pending_prompts _ _ _ _ _ _ _ Hp), (pending_user _ _ _ _ _ _ _ Hp).
    apply set_eq. intros x.
    rewrite !elem_of_difference, elem_of_union, elem_of_singleton.
    split; [tauto|]. intros Hx. split; [tauto|]. congruence.
  - intros this w initial events this1 w1 input rest Hfree Hp _ _.
    by eapply received_prompts.
  - intros this w initial events this1 w1 input rest Hfree Hp _ _ _.
    by eapply received_prompts.
  - intros this w initial events this1 w1 input rest this2 w2 res Hfree Hp _ _ _ Hs _ _ ->.
    change w2 with (this2, w2).2. rewrite <- Hs, sendQuestion_prompts.
    by eapply received_prompts.
Qed.

Lemma message_added this w question options error timeout initial sent events :
  ∃ added,
    outbox (message this w question options error timeout initial sent events).2
      = (outbox w ++ added)%list ∧
    (is_Some (message this w question options error timeout initial sent events).1.1 →
     Forall (input_deletion (user this)) added).
Proof.
  revert this w initial events.
  apply (message_ind question options error timeout sent
           (fun this w _ _ res =>
              ∃ added, outbox res.2 = (outbox w ++ added)%list ∧
                       (is_Some res.1.1 → Forall (input_deletion (user this)) added)));
    cbn [fst snd].
  - intros this w _ _ _. eexists. split; [reflexivity|]. by intros [? ?].
  - intros this w initial events this1 w1 _ Hp _.
    rewrite timed_out_outbox.
    change w1 with (this1, w1).2. rewrite <- Hp, message_pending_outbox, <- app_assoc.
    eexists. split; [reflexivity|]. by intros [? ?].
  - intros this w initial events this1 w1 input rest _ Hp _ _.
    unfold notify. cbn [request outbox]. rewrite received_outbox.
    change w1 with (this1, w1).2. rewrite <- Hp, message_pending_outbox, <- !app_assoc.
    eexists. split; [reflexivity|]. by intros [? ?].
  - intros this w initial events this1 w1 input rest _ Hp Hwait _ _.
    rewrite received_outbox.
    change w1 with (this1, w1).2. rewrite <- Hp, message_pending_outbox, <- !app_assoc.
    eexists. split; [reflexivity|]. intros _.
    apply awaited_author in Hwait. rewrite (pending_user _ _ _ _ _ _ _ Hp) in Hwait.
    apply Forall_app. split.
    + destruct initial; [|constructor]. repeat constructor.
      unfold render. by destruct (msg this).
    + destruct (deletable input); repeat constructor. exact Hwait.
  - intros this w initial events this1 w1 input rest this2 w2 res _ Hp Hwait _ _ Hs _ _
      (added & Hout & Hadded).
    rewrite Hout. change w2 with (this2, w2).2.
    rewrite <- Hs, sendQuestion_outbox, received_outbox.
    change w1 with (this1, w1).2 at 1.
    rewrite <- Hp, message_pending_outbox, <- !app_assoc.
    eexists. split; [reflexivity|]. intros Hsome.
    apply awaited_author in Hwait. rewrite (pending_user _ _ _ _ _ _ _ Hp) in Hwait.
    assert (Hu : user this2 = user this).
    { change this2 with (this2, w2).1. rewrite <- Hs, sendQuestion_user.
      by eapply pending_user. }
    rewrite Hu in Hadded.
    repeat (apply Forall_app; split).
    + destruct initial; [|constructor]. repeat constructor.
      unfold render. by destruct (msg this).
    + destruct (deletable input); repeat constructor. exact Hwait.
    + repeat constructor. unfold render. by destruct (msg this1).
    + by apply Hadded.
Qed.

(** C2, as the code has it.  Every call of [message] that passed the guard
    has released the registry entry of its user when it returns, whichever
    path completed it.  The path of the timeout deletes the rendered
    message when it is deletable, then sends its notice.  A call that
    returns a result has requested no other deletion than the delayed,
    caught deletion of messages written by the user: the rendered message
    stays. *)
Theorem message_terminal_paths
    this w question options error timeout initial sent events r this' w' :
  user this ∉ prompts w →
  message this w question options error timeout initial sent events = (r, this', w') →
  (user this ∉ prompts w') ∧
  (∀ this1 w1,
      message_pending this w question initial sent = (this1, w1) →
      awaitMessages this1 (default (promptTimeout this) timeout) events = None →
      r = None ∧ this' = this1 ∧
      outbox w' = (outbox w1 ++ cleanup this1 ++
                   [ChannelSend (trigger_channel this1) "The prompt timed out!"])%list) ∧
  (is_Some r →
   ∃ added, outbox w' = (outbox w ++ added)%list ∧
            Forall (input_deletion (user this)) added).
Proof.
  intros Hfree Hrun. split; [|split].
  - change w' with (r, this', w').2. rewrite <- Hrun, message_prompts. exact Hfree.
  - intros this1 w1 Hp Hwait.
    rewrite message_step, (message_body_timeout _ _ _ _ _ _ _ _ _ _ _ Hfree Hp Hwait) in Hrun.
    injection Hrun as <- <- <-. by rewrite timed_out_outbox.
  - intros Hsome.
    destruct (message_added this w question options error timeout initial sent events)
      as (added & Hout & Hadded).
    rewrite Hrun in Hout, Hadded. exists added. split; [exact Hout|]. by apply Hadded.
Qed.

Lemma message_terminal_paths_witness :
  (user alice ∉ prompts idle) ∧
  message alice idle "Continue?" (Array []) None None true card [(10, reply "yes")]
    = (Some "yes", set_msg alice (Some card),
       {| prompts := ∅;
          outbox := [ChannelSendEmbed "general" "Continue?";
                     MessageDelete (reply "yes") 1000 true] |}) ∧
  (user alice ∉ prompts
     {| prompts := ∅;
        outbox := [ChannelSendEmbed "general" "Continue?";
                   MessageDelete (reply "yes") 1000 true] |}).
Proof.
  assert (H1 : user alice ∉ prompts idle) by (vm_compute; discriminate).
  assert (H2 : message alice idle "Continue?" (Array []) None None true card
                 [(10, reply "yes")]
               = (Some "yes", set_msg alice (Some card),
                  {| prompts := ∅;
                     outbox := [ChannelSendEmbed "general" "Continue?";
                                MessageDelete (reply "yes") 1000 true] |}))
    by (vm_compute; reflexivity).
  split; [exact H1|]. split; [exact H2|].
  exact (proj1 (message_terminal_paths _ _ _ _ _ _ _ _ _ _ _ _ H1 H2)).
Defined.

(** C2 as stated fails on the path of success: the call returns the reply
    and the rendered message is not deleted. *)
Lemma message_success_keeps_card :
  let res := message alice idle "Continue?" (Array []) None None true card
               [(10, reply "yes")] in
  res.1.1 = Some "yes" ∧ msg res.1.2 = Some card ∧
  ¬ ∃ delay caught, MessageDelete card delay caught ∈ outbox res.2.
Proof.
  vm_compute. split; [reflexivity|]. split; [reflexivity|].
  intros (delay & caught & H).
  repeat (apply elem_of_cons in H as [H|H]; [discriminate H|]).
  by apply elem_of_nil in H.
Qed.

(** ** The cancel keyword *)

Lemma startsWith_spec s p :
  JS.startsWith s p = true ↔ ∃ suffix, p +:+ suffix = s.
Proof.
  revert s. induction p as [|a p IH]; intros s; simpl.
  - split; [intros _; by exists s|reflexivity].
  - destruct s as [|b s].
    + split; [discriminate|]. intros [suffix H]. discriminate H.
    + destruct (Ascii.eqb a b) eqn:Hab.
      * apply Ascii.eqb_eq in Hab as ->. rewrite IH.
        split; intros [suffix H]; exists suffix; [by rewrite <- H|by injection H].
      * split; [discriminate|]. intros [suffix H]. injection H as -> _.
        by rewrite Ascii.eqb_refl in Hab.
Qed.

Lemma is_quit_spec text :
  is_quit text = true ↔ ∃ suffix, JS.toLowerCase text +:+ suffix = "quit".
Proof. apply startsWith_spec. Qed.

Lemma quit_prefix_is_quit text : quit_prefix text → is_quit text = true.
Proof. intros [_ H]. by apply is_quit_spec. Qed.

Lemma append_cons c s t : String c s +:+ t = String c (s +:+ t).
Proof. reflexivity. Qed.

Lemma append_empty t : "" +:+ t = t.
Proof. reflexivity. Qed.

Lemma quit_prefix_cases text :
  quit_prefix text ↔ JS.toLowerCase text ∈ ["q"; "qu"; "qui"; "quit"].
Proof.
  unfold quit_prefix. split.
  - intros [Hne (suffix & H)].
    destruct text as [|c0 text]; [by destruct Hne|]. cbn [JS.toLowerCase] in *.
    destruct (JS.toLowerCase text) as [|b [|c [|d [|e l]]]];
      repeat (rewrite ?append_cons, ?append_empty in H;
              first [discriminate H
                    | injection H as Hc H; rewrite Hc in *; clear Hc]);
      subst.
    + apply elem_of_cons. by left.
    + apply elem_of_cons. right. apply elem_of_cons. by left.
    + do 2 (apply elem_of_cons; right). apply elem_of_cons. by left.
    + do 3 (apply elem_of_cons; right). apply elem_of_cons. by left.
  - intros H. split.
    + intros ->. simpl in H.
      repeat (apply elem_of_cons in H as [H|H]; [discriminate H|]).
      by apply elem_of_nil in H.
    + repeat (apply elem_of_cons in H as [->|H]); [by exists "uit"|by exists "it"|
        by exists "t"|by exists ""|by apply elem_of_nil in H].
Qed.

Section Received.

Context (this : PromptManager) (w : World) (question : string)
        (options : Options) (error : option string) (timeout : option Z)
        (initial : bool) (sent : Message) (events : list (Z * Message)).
Context (this1 : PromptManager) (w1 : World) (input : Message)
        (rest : list (Z * Message)).
Hypothesis Hfree : user this ∉ prompts w.
Hypothesis Hpending : message_pending this w question initial sent = (this1, w1).
Hypothesis Hwait :
  awaitMessages this1 (default (promptTimeout this) timeout) events = Some (input, rest).

Lemma message_cancelled :
  is_quit (content input) = true →
  message_body this w question options error timeout initial sent events
    = Done (None, this1,
            notify "Successfully cancelled the prompt!" this1 (received input this1 w1)) ∧
  message this w question options error timeout initial sent events
    = (None, this1,
       notify "Successfully cancelled the prompt!" this1 (received input this1 w1)) ∧
  (user this ∉
     prompts (notify "Successfully cancelled the prompt!" this1 (received input this1 w1))) ∧
  outbox (notify "Successfully cancelled the prompt!" this1 (received input this1 w1))
    = (outbox w1 ++
       (if deletable input then [MessageDelete input 1000 true] else []) ++
       [ChannelSend (trigger_channel this1) "Successfully cancelled the prompt!"])%list.
Proof.
  intros Hq.
  pose proof (message_body_input _ _ _ options error _ _ _ _ _ _ Hfree Hpending _ _ Hwait)
    as Hbody.
  rewrite Hq in Hbody. split; [exact Hbody|]. split; [|split].
  - by rewrite message_step, Hbody.
  - unfold notify. cbn [prompts request].
    by rewrite (received_prompts _ _ _ _ _ _ _ Hfree Hpending).
  - unfold notify. cbn [outbox request]. by rewrite received_outbox, <- app_assoc.
Qed.

Lemma message_resolved :
  is_quit (content input) = false →
  accepts options (content input) = true →
  message_body this w question options error timeout initial sent events
    = Done (Some (content input), this1, received input this1 w1) ∧
  message this w question options error timeout initial sent events
    = (Some (content input), this1, received input this1 w1) ∧
  (user this ∉ prompts (received input this1 w1)).
Proof.
  intros Hq Ha.
  pose proof (message_body_input _ _ _ options error _ _ _ _ _ _ Hfree Hpending _ _ Hwait)
    as Hbody.
  rewrite Hq, Ha in Hbody. split; [exact Hbody|]. split.
  - by rewrite message_step, Hbody.
  - by rewrite (received_prompts _ _ _ _ _ _ _ Hfree Hpending).
Qed.

Lemma message_rejected :
  is_quit (content input) = false →
  accepts options (content input) = false →
  message_body this w question options error timeout initial sent events
    = Again (sendQuestion sent (retry_text error question (content input))
               this1 (received input this1 w1)).1
            (sendQuestion sent (retry_text error question (content input))
               this1 (received input this1 w1)).2
            rest.
Proof.
  intros Hq Ha.
  pose proof (message_body_input _ _ _ options error _ _ _ _ _ _ Hfree Hpending _ _ Hwait)
    as Hbody.
  by rewrite Hq, Ha in Hbody.
Qed.

End Received.

(** C3. An active prompt of [message] that receives a text which is,
    ignoring case, a non-empty prefix of quit ends there: the call returns
    no result and its last request is the notice 'Successfully cancelled the
    prompt!'.  This holds for every validation argument, also one that
    accepts the text, and on the first activation as on a retry. *)
Theorem quit_prefix_cancels
    this w question options error timeout initial sent events this1 w1 input rest :
  user this ∉ prompts w →
  message_pending this w question initial sent = (this1, w1) →
  awaitMessages this1 (default (promptTimeout this) timeout) events = Some (input, rest) →
  quit_prefix (content input) →
  message this w question options error timeout initial sent events
    = (None, this1,
       notify "Successfully cancelled the prompt!" this1 (received input this1 w1)) ∧
  (user this ∉
     prompts (notify "Successfully cancelled the prompt!" this1 (received input this1 w1))) ∧
  outbox (notify "Successfully cancelled the prompt!" this1 (received input this1 w1))
    = (outbox w1 ++
       (if deletable input then [MessageDelete input 1000 true] else []) ++
       [ChannelSend (trigger_channel this1) "Successfully cancelled the prompt!"])%list.
Proof.
  intros Hfree Hp Hwait Hquit.
  apply quit_prefix_is_quit in Hquit.
  by destruct (message_cancelled _ _ _ options error _ _ _ _ _ _ _ _ Hfree Hp Hwait Hquit)
    as (_ & ? & ? & ?).
Qed.

Lemma quit_prefix_cancels_witness :
  accepts (Array ["Qu"; "no"]) "Qu" = true ∧
  message alice idle "Continue?" (Array ["Qu"; "no"]) None None true card [(10, reply "Qu")]
    = (None, set_msg alice (Some card),
       notify "Successfully cancelled the prompt!" (set_msg alice (Some card))
         (received (reply "Qu") (set_msg alice (Some card))
            (message_pending alice idle "Continue?" true card).2)).
Proof.
  split; [reflexivity|].
  refine (proj1 (quit_prefix_cancels alice idle "Continue?" (Array ["Qu"; "no"]) None None
                   true card [(10, reply "Qu")] (set_msg alice (Some card))
                   (message_pending alice idle "Continue?" true card).2
                   (reply "Qu") [] _ _ _ _)).
  - vm_compute. discriminate.
  - reflexivity.
  - reflexivity.
  - split; [discriminate|]. exists "it". reflexivity.
Defined.

(** C9. An active prompt of [message] that receives the empty text ends as
    a cancellation, for every validation argument: the activation
    completes (it neither resolves with the text nor asks again), the call
    returns no result and its last request is the notice 'Successfully
    cancelled the prompt!'. *)
Theorem empty_input_cancels
    this w question options error timeout initial sent events this1 w1 input rest :
  user this ∉ prompts w →
  message_pending this w question initial sent = (this1, w1) →
  awaitMessages this1 (default (promptTimeout this) timeout) events = Some (input, rest) →
  content input = "" →
  is_quit (content input) = true ∧
  message_body this w question options error timeout initial sent events
    = Done (None, this1,
            notify "Successfully cancelled the prompt!" this1 (received input this1 w1)) ∧
  message this w question options error timeout initial sent events
    = (None, this1,
       notify "Successfully cancelled the prompt!" this1 (received input this1 w1)) ∧
  outbox (notify "Successfully cancelled the prompt!" this1 (received input this1 w1))
    = (outbox w1 ++
       (if deletable input then [MessageDelete input 1000 true] else []) ++
       [ChannelSend (trigger_channel this1) "Successfully cancelled the prompt!"])%list.
Proof.
  intros Hfree Hp Hwait Hempty.
  assert (Hq : is_quit (content input) = true) by (by rewrite Hempty).
  split; [exact Hq|].
  by destruct (message_cancelled _ _ _ options error _ _ _ _ _ _ _ _ Hfree Hp Hwait Hq)
    as (? & ? & _ & ?).
Qed.

Lemma empty_input_cancels_witness :
  message alice idle "Continue?" (Array []) None None true card [(10, reply "")]
    = (None, set_msg alice (Some card),
       notify "Successfully cancelled the prompt!" (set_msg alice (Some card))
         (received (reply "") (set_msg alice (Some card))
            (message_pending alice idle "Continue?" true card).2)).
Proof.
  refine (proj1 (proj2 (proj2 (empty_input_cancels alice idle "Continue?" (Array []) None
                   None true card [(10, reply "")] (set_msg alice (Some card))
                   (message_pending alice idle "Continue?" true card).2
                   (reply "") [] _ _ _ _)))).
  - vm_compute. discriminate.
  - reflexivity.
  - reflexivity.
  - reflexivity.
Defined.

(** ** Validation of a text input *)

Lemma includes_spec choices text : JS.includes choices text = true ↔ text ∈ choices.
Proof.
  unfold JS.includes. rewrite existsb_exists. split.
  - intros (x & Hx & Heq). apply String.eqb_eq in Heq as ->. by apply list_elem_of_In.
  - intros H. exists text. split; [by apply list_elem_of_In|apply String.eqb_refl].
Qed.

Lemma accepts_spec options text :
  accepts options text = true ↔
  (∃ test, options = RegExp test ∧ test text = true) ∨
  options = Array [] ∨
  (∃ choices, options = Array choices ∧ text ∈ choices).
Proof.
  destruct options as [test|choices]; simpl.
  - split.
    + intros H. left. by exists test.
    + intros [(test' & [= <-] & H)|[H|(choices & H & _)]]; done.
  - destruct choices as [|c choices].
    + split; [by intros _; right; left|done].
    + rewrite includes_spec. split.
      * intros H. right. right. by eexists.
      * intros [(test' & H & _)|[H|(choices' & [= <-] & H)]]; done.
Qed.

(** C4, as the code has it.  For the text received by an active prompt of
    [message]: the validation accepts it exactly when the argument is a
    pattern whose [test] finds it, an empty array, or an array that lists
    it (compared as it is, case included); the activation resolves with a
    text exactly when the received text is not a prefix of quit (ignoring
    case, the empty text included) and the validation accepts it; the call
    then returns the received text unchanged, and the registry entry of
    the user is absent from the state it returns. *)
Theorem message_resolves_iff
    this w question options error timeout initial sent events this1 w1 input rest :
  user this ∉ prompts w →
  message_pending this w question initial sent = (this1, w1) →
  awaitMessages this1 (default (promptTimeout this) timeout) events = Some (input, rest) →
  (accepts options (content input) = true ↔
     (∃ test, options = RegExp test ∧ test (content input) = true) ∨
     options = Array [] ∨
     (∃ choices, options = Array choices ∧ content input ∈ choices)) ∧
  ((∃ v this' w',
       message_body this w question options error timeout initial sent events
         = Done (Some v, this', w')) ↔
     (¬ ∃ suffix, JS.toLowerCase (content input) +:+ suffix = "quit") ∧
     accepts options (content input) = true) ∧
  ((¬ ∃ suffix, JS.toLowerCase (content input) +:+ suffix = "quit") →
   accepts options (content input) = true →
   message this w question options error timeout initial sent events
     = (Some (content input), this1, received input this1 w1) ∧
   (user this ∉ prompts (received input this1 w1))).
Proof.
  intros Hfree Hp Hwait. split; [apply accepts_spec|].
  pose proof (message_body_input _ _ _ options error _ _ _ _ _ _ Hfree Hp _ _ Hwait)
    as Hbody.
  rewrite <- is_quit_spec.
  destruct (is_quit (content input)) eqn:Hq.
  - split.
    + rewrite Hbody. split; [by intros (v & ? & ? & ?)|]. by intros [? _].
    + by intros ?.
  - destruct (accepts options (content input)) eqn:Ha.
    + split.
      * rewrite Hbody. split; [done|]. intros _. by do 3 eexists.
      * intros _ _.
        by destruct (message_resolved _ _ _ options error _ _ _ _ _ _ _ _
                       Hfree Hp Hwait Hq Ha) as (_ & ? & ?).
    + split; [|done].
      rewrite Hbody. split; [by intros (v & ? & ? & ?)|]. by intros [_ ?].
Qed.

Lemma message_resolves_iff_witness :
  message alice idle "Which?" (RegExp (fun s => bool_decide (is_Some (index 0 "b" s))))
    None None true card [(10, reply "abc")]
  = (Some "abc", set_msg alice (Some card),
     received (reply "abc") (set_msg alice (Some card))
       (message_pending alice idle "Which?" true card).2).
Proof.
  refine (proj1 (proj2 (proj2 (message_resolves_iff alice idle "Which?"
            (RegExp (fun s => bool_decide (is_Some (index 0 "b" s)))) None None true card
            [(10, reply "abc")] (set_msg alice (Some card))
            (message_pending alice idle "Which?" true card).2 (reply "abc") [] _ _ _)) _ _)).
  - vm_compute. discriminate.
  - reflexivity.
  - reflexivity.
  - rewrite <- is_quit_spec. vm_compute. discriminate.
  - vm_compute. reflexivity.
Defined.

(** C4 as stated fails on a text the cancel keyword captures: the empty
    array accepts every text, yet the reply quit is not returned. *)
Lemma message_empty_array_quit :
  accepts (Array []) "quit" = true ∧
  (message alice idle "Continue?" (Array []) None None true card [(10, reply "quit")]).1.1
    = None.
Proof. split; vm_compute; reflexivity. Qed.

(** ** C6: the deadline *)





(** ** C5: a rejected input *)

Lemma substitute_placeholder rest value :
  substitute (placeholder +:+ rest) value = value +:+ substitute rest value.
Proof. reflexivity. Qed.

Lemma substitute_other c rest value :
  JS.startsWith (String c rest) placeholder = false →
  substitute (String c rest) value = String c (substitute rest value).
Proof. unfold substitute. cbn [substitute_go]. by intros ->. Qed.

Lemma sendQuestion_card sent question this w card :
  msg this = Some card →
  sendQuestion sent question this w = (this, request (MessageEdit card question true) w).
Proof. unfold sendQuestion. by intros ->. Qed.

Lemma message_pending_card this w question initial sent card :
  msg this = Some card →
  (message_pending this w question initial sent).1 = this ∧
  ∃ added, outbox (message_pending this w question initial sent).2
             = (outbox w ++ added)%list ∧
           Forall (fun r => fresh_render r = false) added.
Proof.
  intros Hcard. unfold message_pending. destruct initial.
  - rewrite (sendQuestion_card _ _ _ _ _ Hcard). split; [done|].
    eexists. split; [reflexivity|]. by repeat constructor.
  - split; [done|]. exists []. split; [by rewrite app_nil_r|constructor].
Qed.

Lemma message_keeps_card this w question options error timeout initial sent events card :
  msg this = Some card →
  (message this w question options error timeout initial sent events).1.2 = this ∧
  ∃ added,
    outbox (message this w question options error timeout initial sent events).2
      = (outbox w ++ added)%list ∧
    Forall (fun r => fresh_render r = false) added.
Proof.
  revert card. revert this w initial events.
  apply (message_ind question options error timeout sent
           (fun this w _ _ res =>
              ∀ card, msg this = Some card →
                res.1.2 = this ∧
                ∃ added, outbox res.2 = (outbox w ++ added)%list ∧
                         Forall (fun r => fresh_render r = false) added));
    cbn [fst snd].
  - intros this w _ _ _ card _. split; [done|].
    eexists. split; [reflexivity|]. by repeat constructor.
  - intros this w initial events this1 w1 _ Hp _ card Hcard.
    destruct (message_pending_card this w question initial sent card Hcard)
      as (H1 & added & Hout & Hadded).
    rewrite Hp in H1, Hout. cbn [fst snd] in H1, Hout. subst this1.
    split; [done|]. rewrite timed_out_outbox, Hout, <- app_assoc.
    eexists. split; [reflexivity|]. repeat (apply Forall_app; split); try done.
    + unfold cleanup. rewrite Hcard. destruct (deletable card); by repeat constructor.
    + by repeat constructor.
  - intros this w initial events this1 w1 input rest _ Hp _ _ card Hcard.
    destruct (message_pending_card this w question initial sent card Hcard)
      as (H1 & added & Hout & Hadded).
    rewrite Hp in H1, Hout. cbn [fst snd] in H1, Hout. subst this1.
    split; [done|]. unfold notify. cbn [outbox request].
    rewrite received_outbox, Hout, <- !app_assoc.
    eexists. split; [reflexivity|]. repeat (apply Forall_app; split); try done.
    + destruct (deletable input); by repeat constructor.
    + by repeat constructor.
  - intros this w initial events this1 w1 input rest _ Hp _ _ _ card Hcard.
    destruct (message_pending_card this w question initial sent card Hcard)
      as (H1 & added & Hout & Hadded).
    rewrite Hp in H1, Hout. cbn [fst snd] in H1, Hout. subst this1.
    split; [done|]. rewrite received_outbox, Hout, <- !app_assoc.
    eexists. split; [reflexivity|]. repeat (apply Forall_app; split); try done.
    destruct (deletable input); by repeat constructor.
  - intros this w initial events this1 w1 input rest this2 w2 res _ Hp _ _ _ Hs _ _ IH
      card Hcard.
    destruct (message_pending_card this w question initial sent card Hcard)
      as (H1 & added & Hout & Hadded).
    rewrite Hp in H1, Hout. cbn [fst snd] in H1, Hout. subst this1.
    rewrite (sendQuestion_card _ _ _ _ _ Hcard) in Hs. injection Hs as <- <-.
    destruct (IH card Hcard) as (Hthis & added2 & Hout2 & Hadded2).
    split; [done|]. rewrite Hout2. cbn [outbox request].
    rewrite received_outbox, Hout, <- !app_assoc.
    eexists. split; [reflexivity|]. repeat (apply Forall_app; split); try done.
    + destruct (deletable input); by repeat constructor.
    + by repeat constructor.
Qed.

(** The re-render once the send of the first render has resolved
    ([msg this1 = Some card] at the await).  When the text received by an
    active prompt of [message] is neither a prefix of quit nor accepted,
    the activation does not complete: it edits the message already
    rendered, setting the description to the error line, an empty line and
    the question, and the call continues as the non-initial call on the
    events still to come.  The error line is the template with its
    placeholder substituted when a template is given (and the result is
    not empty), the default sentence otherwise.  Neither this re-render nor
    any later one of the call sends a new embed, and the instance keeps its
    rendered message.  The reply that arrives before the send has resolved
    is the subject of [Unawaited.message] below. *)
Theorem rejected_input_rerenders
    this w question options error timeout initial sent events this1 w1 input rest card :
  user this ∉ prompts w →
  message_pending this w question initial sent = (this1, w1) →
  awaitMessages this1 (default (promptTimeout this) timeout) events = Some (input, rest) →
  is_quit (content input) = false →
  accepts options (content input) = false →
  msg this1 = Some card →
  let w2 :=
    request (MessageEdit card
               (error_line error (content input) +:+ String "010" (String "010" question))
               true)
            (received input this1 w1) in
  message_body this w question options error timeout initial sent events
    = Again this1 w2 rest ∧
  message this w question options error timeout initial sent events
    = message this1 w2 question options error timeout false sent rest ∧
  (error = None →
   error_line error (content input)
     = "`" +:+ content input +:+ "` is not a valid choice! Please try again.") ∧
  (∀ template, error = Some template → substitute template (content input) ≠ "" →
   error_line error (content input) = substitute template (content input)) ∧
  (message this1 w2 question options error timeout false sent rest).1.2 = this1 ∧
  (∃ added,
      outbox (message this1 w2 question options error timeout false sent rest).2
        = (outbox w2 ++ added)%list ∧
      Forall (fun r => fresh_render r = false) added) ∧
  (initial = true → card = default sent (msg this)).
Proof.
  intros Hfree Hp Hwait Hq Ha Hcard w2.
  pose proof (message_rejected _ _ _ options error _ _ _ _ _ _ _ _ Hfree Hp Hwait Hq Ha)
    as Hbody.
  rewrite (sendQuestion_card _ _ _ _ _ Hcard) in Hbody. cbn [fst snd] in Hbody.
  change (message_body this w question options error timeout initial sent events
          = Again this1 w2 rest) in Hbody.
  split; [exact Hbody|]. split; [by rewrite message_step, Hbody|].
  split; [by intros ->|]. split.
  { intros template -> Hne. unfold error_line. simpl.
    by destruct (substitute template (content input)). }
  destruct (message_keeps_card this1 w2 question options error timeout false sent rest
              card Hcard) as (Hthis & Hadded).
  split; [exact Hthis|]. split; [exact Hadded|].
  intros ->. revert Hp Hcard. unfold message_pending, sendQuestion.
  destruct (msg this) as [m|] eqn:Hm; intros [= <- _]; simpl; rewrite ?Hm; by intros [= ->].
Qed.

Lemma rejected_input_rerenders_witness :
  message alice idle "Continue?" (Array ["yes"; "no"]) (Some "{VALUE}? yes or no!") None
    true card [(10, reply "maybe"); (10, reply "no")]
  = (Some "no", set_msg alice (Some card),
     {| prompts := ∅;
        outbox := [ChannelSendEmbed "general" "Continue?";
                   MessageDelete (reply "maybe") 1000 true;
                   MessageEdit card ("maybe? yes or no!" +:+
                                     String "010" (String "010" "Continue?")) true;
                   MessageDelete (reply "no") 1000 true] |}).
Proof.
  refine (eq_trans (proj1 (proj2 (rejected_input_rerenders alice idle "Continue?"
            (Array ["yes"; "no"]) (Some "{VALUE}? yes or no!") None true card
            [(10, reply "maybe"); (10, reply "no")] (set_msg alice (Some card))
            (message_pending alice idle "Continue?" true card).2 (reply "maybe")
            [(10, reply "no")] card _ _ _ _ _ _))) _).
  - vm_compute. discriminate.
  - reflexivity.
  - reflexivity.
  - reflexivity.
  - reflexivity.
  - reflexivity.
  - vm_compute. reflexivity.
Defined.

(** ** Numbers and their decimal strings *)

Lemma to_uint_nonnil n : Nat.to_uint n ≠ Decimal.Nil.
Proof.
  intros H. pose proof (DecimalNat.Unsigned.of_to n) as Hn. rewrite H in Hn.
  simpl in Hn. subst n. discriminate H.
Qed.

Ltac eval_digit :=
  match goal with
  | |- context [JS.digit_value 10 ?c] =>
      let v := eval vm_compute in (JS.digit_value 10 c) in
      change (JS.digit_value 10 c) with v
  end.

Lemma parse_digits_uint d :
  ∀ acc : nat,
    JS.parse_digits 10 (Some (Z.of_nat acc)) (NilEmpty.string_of_uint d)
    = Some (Z.of_nat (Nat.of_uint_acc d acc)).
Proof.
  induction d as [|d IH|d IH|d IH|d IH|d IH|d IH|d IH|d IH|d IH|d IH]; intros acc;
    [reflexivity|..];
    cbn [NilEmpty.string_of_uint JS.parse_digits Nat.of_uint_acc];
    eval_digit; cbn [default]; rewrite <- IH;
    apply (f_equal (fun a => JS.parse_digits 10 (Some a) _));
    unfold id; rewrite Nat.tail_mul_spec; lia.
Qed.

Lemma parse_digits_uint_start d :
  d ≠ Decimal.Nil →
  JS.parse_digits 10 None (NilEmpty.string_of_uint d) = Some (Z.of_nat (Nat.of_uint d)).
Proof.
  intros Hd. unfold Nat.of_uint.
  destruct d as [|d|d|d|d|d|d|d|d|d|d]; [done|..];
    cbn [NilEmpty.string_of_uint JS.parse_digits Nat.of_uint_acc];
    eval_digit; cbn [default]; rewrite <- parse_digits_uint;
    apply (f_equal (fun a => JS.parse_digits 10 (Some a) _));
    unfold id; rewrite Nat.tail_mul_spec; lia.
Qed.

Lemma trimStart_uint d : JS.trimStart (NilEmpty.string_of_uint d) = NilEmpty.string_of_uint d.
Proof. destruct d; reflexivity. Qed.

Lemma read_sign_uint d :
  JS.read_sign (NilEmpty.string_of_uint d) = (1, NilEmpty.string_of_uint d).
Proof. destruct d; reflexivity. Qed.

Lemma read_radix_uint d :
  JS.read_radix (NilEmpty.string_of_uint d) = (10, NilEmpty.string_of_uint d).
Proof. destruct d as [|d|d|d|d|d|d|d|d|d|d]; try reflexivity. destruct d; reflexivity. Qed.

Lemma parseInt_toString n : JS.parseInt (JS.toString n) = Some (Z.of_nat n).
Proof.
  unfold JS.parseInt, JS.toString.
  rewrite trimStart_uint, read_sign_uint, read_radix_uint.
  rewrite (parse_digits_uint_start _ (to_uint_nonnil n)), DecimalNat.Unsigned.of_to.
  f_equal. lia.
Qed.

Lemma toString_not_quit n : is_quit (JS.toString n) = false.
Proof.
  unfold JS.toString. pose proof (to_uint_nonnil n) as Hnil.
  destruct (Nat.to_uint n); [done|..]; reflexivity.
Qed.

Lemma toString_truthy n : JS.truthy (JS.toString n) = true.
Proof.
  unfold JS.toString. pose proof (to_uint_nonnil n) as Hnil.
  destruct (Nat.to_uint n); [done|..]; reflexivity.
Qed.

(** ** C7: choosing one of a list *)

Lemma message_result_accepted this w question options error timeout initial sent events v :
  (message this w question options error timeout initial sent events).1.1 = Some v →
  is_quit v = false ∧ accepts options v = true.
Proof.
  revert this w initial events.
  apply (message_ind question options error timeout sent
           (fun _ _ _ _ res => res.1.1 = Some v → is_quit v = false ∧ accepts options v = true));
    cbn [fst snd]; try done.
  intros this w initial events this1 w1 input rest _ _ _ Hq Ha [= <-]. done.
Qed.

Section ChooseOneProperties.

Context {T : Type} (show : T → string) (toCodeblock : string → string → string).

Lemma choice_keys_seq (choices : list T) :
  choice_keys choices = JS.toString <$> seq 1 (length choices).
Proof.
  unfold choice_keys. rewrite <- (imap_seq choices JS.toString 1).
  apply imap_ext. intros i c _. simpl. f_equal. lia.
Qed.

Lemma choice_keys_lookup (choices : list T) i c :
  choices !! i = Some c → choice_keys choices !! i = Some (JS.toString (i + 1)).
Proof. intros H. unfold choice_keys. by rewrite list_lookup_imap, H. Qed.

Lemma pick_toString (choices : list T) i :
  pick choices (JS.toString (S i)) = choices !! i.
Proof.
  unfold pick. rewrite parseInt_toString.
  replace (Z.of_nat (S i) - 1) with (Z.of_nat i) by lia.
  destruct (Z.leb_spec 0 (Z.of_nat i)); [|lia]. by rewrite Nat2Z.id.
Qed.

Lemma accepts_key (choices : list T) i c :
  choices !! i = Some c → accepts (Array (choice_keys choices)) (JS.toString (i + 1)) = true.
Proof.
  intros H. apply accepts_spec. right. right. eexists. split; [reflexivity|].
  apply list_elem_of_lookup. exists i. by eapply choice_keys_lookup.
Qed.

Lemma accepted_key (choices : list T) v :
  choices ≠ [] → accepts (Array (choice_keys choices)) v = true →
  ∃ i c, choices !! i = Some c ∧ v = JS.toString (S i).
Proof.
  intros Hne Ha. unfold accepts in Ha.
  destruct (choice_keys choices) as [|k ks] eqn:Hk.
  { destruct choices; [done|discriminate Hk]. }
  rewrite <- Hk in Ha. apply includes_spec in Ha.
  apply elem_of_lookup_imap_1 in Ha as (i & c & -> & Hi).
  exists i, c. split; [done|]. f_equal. lia.
Qed.

(** C7, as the code has it.  [chooseOne] asks [message] the question
    followed by the code block of the lines [i | choice], [i] counting
    from 1, with the array of the decimal strings of 1..N as validation.
    When the text received by the prompt is the decimal string of an
    index [i] between 1 and N, it returns the choice at position [i-1].
    When the list of choices is not empty, it returns no result exactly
    when [message] returns none. *)
Theorem chooseOne_maps_index (choices : list T) :
  (∀ i c, choices !! i = Some c →
     choice_lines show choices !! i = Some (JS.toString (i + 1) +:+ " | " +:+ show c)) ∧
  choice_keys choices = JS.toString <$> seq 1 (length choices) ∧
  (∀ this w question sent events,
     let res :=
       message this w
         (question +:+
            toCodeblock "css" (JS.join (String "010" "") (choice_lines show choices)))
         (Array (JS.toString <$> seq 1 (length choices)))
         (Some "`{VALUE}` is not a valid option! Please try again.")
         None true sent events in
     (chooseOne show toCodeblock this w question choices sent events).1.2 = res.1.2 ∧
     (chooseOne show toCodeblock this w question choices sent events).2 = res.2 ∧
     (∀ this1 w1 input rest i c,
        user this ∉ prompts w →
        message_pending this w
          (question +:+
             toCodeblock "css" (JS.join (String "010" "") (choice_lines show choices)))
          true sent = (this1, w1) →
        awaitMessages this1 (promptTimeout this) events = Some (input, rest) →
        choices !! i = Some c →
        content input = JS.toString (i + 1) →
        chooseOne show toCodeblock this w question choices sent events
          = (Some c, this1, received input this1 w1)) ∧
     (choices ≠ [] →
      (chooseOne show toCodeblock this w question choices sent events).1.1 = None ↔
      res.1.1 = None)).
Proof.
  split; [|split; [apply choice_keys_seq|]].
  { intros i c H. unfold choice_lines. by rewrite list_lookup_imap, H. }
  intros this w question sent events. rewrite <- choice_keys_seq. cbn zeta.
  unfold chooseOne.
  destruct (message _ _ _ _ _ _ _ _ _) as [[r this'] w'] eqn:Hrun. cbn [fst snd].
  split; [|split; [|split]].
  - destruct r as [v|]; [destruct (JS.truthy v)|]; reflexivity.
  - destruct r as [v|]; [destruct (JS.truthy v)|]; reflexivity.
  - intros this1 w1 input rest i c Hfree Hp Hwait Hi Hin.
    assert (Hq : is_quit (content input) = false)
      by (rewrite Hin; apply toString_not_quit).
    assert (Ha : accepts (Array (choice_keys choices)) (content input) = true)
      by (rewrite Hin; by eapply accepts_key).
    destruct (message_resolved _ _ _ (Array (choice_keys choices))
                (Some "`{VALUE}` is not a valid option! Please try again.")
                None _ _ _ _ _ _ _ Hfree Hp Hwait Hq Ha) as (_ & Hm & _).
    rewrite Hm in Hrun. injection Hrun as <- <- <-.
    rewrite Hin, toString_truthy. replace (i + 1)%nat with (S i) by lia.
    by rewrite pick_toString, Hi.
  - intros Hne. destruct r as [v|]; [|done]. split; [|done].
    pose proof (message_result_accepted _ _ _ _ _ _ _ _ _ v (f_equal (fun x => x.1.1) Hrun))
      as [_ Ha].
    apply (accepted_key _ _ Hne) in Ha as (i & c & Hi & ->).
    rewrite toString_truthy, pick_toString, Hi. done.
Qed.

End ChooseOneProperties.

Lemma chooseOne_maps_index_witness :
  chooseOne id (fun lang body => "```" +:+ lang +:+ String "010" body +:+ "```")
    alice idle "Pick one" ["A"; "B"; "C"] card [(10, reply "2")]
  = (Some "B", set_msg alice (Some card),
     {| prompts := ∅;
        outbox :=
          [ChannelSendEmbed "general"
             ("Pick one```css" +:+ String "010" ("1 | A" +:+ String "010" ("2 | B" +:+
                String "010" "3 | C```")));
           MessageDelete (reply "2") 1000 true] |}).
Proof.
  pose (block := fun lang body : string => "```" +:+ lang +:+ String "010" body +:+ "```").
  refine (eq_trans
    (proj1 (proj2 (proj2 (proj2 (proj2 (chooseOne_maps_index id block ["A"; "B"; "C"]))
       alice idle "Pick one" card [(10, reply "2")])))
       (set_msg alice (Some card))
       (message_pending alice idle
          ("Pick one" +:+ block "css" (JS.join (String "010" "")
                                         (choice_lines id ["A"; "B"; "C"])))
          true card).2
       (reply "2") [] 1%nat "B" _ _ _ _ _) _).
  - vm_compute. discriminate.
  - reflexivity.
  - reflexivity.
  - reflexivity.
  - reflexivity.
  - vm_compute. reflexivity.
Defined.

(** C7 as stated fails on the empty list of choices: the empty array
    accepts every text, [message] returns the reply, and [chooseOne]
    returns no result. *)
Lemma chooseOne_empty_choices :
  let block := fun _ body : string => body in
  (message alice idle
     ("Pick one" +:+ block "css" (JS.join (String "010" "") (choice_lines id [])))
     (Array (choice_keys ([] : list string)))
     (Some "`{VALUE}` is not a valid option! Please try again.") None true card
     [(10, reply "hello")]).1.1 = Some "hello" ∧
  (chooseOne id block alice idle "Pick one" [] card [(10, reply "hello")]).1.1 = None.
Proof. split; vm_compute; reflexivity. Qed.

(** ** C8: validation of a reaction *)

Lemma accepts_emoji_spec options e :
  accepts_emoji options e = true ↔
  (∃ test, options = RegExp test ∧ test (emoji_name e) = true) ∨
  options = Array [] ∨
  (∃ choices, options = Array choices ∧ identity e ∈ choices).
Proof.
  destruct options as [test|choices]; simpl.
  - split.
    + intros H. left. by exists test.
    + intros [(test' & [= <-] & H)|[H|(choices & H & _)]]; done.
  - destruct choices as [|c choices].
    + split; [by intros _; right; left|done].
    + rewrite includes_spec. split.
      * intros H. right. right. by eexists.
      * intros [(test' & H & _)|[H|(choices' & [= <-] & H)]]; done.
Qed.

Lemma identity_spec e :
  (∀ i, emoji_id e = Some i → i ≠ "" → identity e = i) ∧
  (emoji_id e = None → identity e = emoji_name e).
Proof.
  unfold identity. split.
  - intros i -> Hi. simpl. by destruct i.
  - by intros ->.
Qed.

Lemma reaction_pending_user this w question options react initial sent :
  user (reaction_pending this w question options react initial sent).1 = user this.
Proof.
  unfold reaction_pending. destruct initial; [|done].
  destruct (sendQuestion _ _ _ _) as [this1 w1] eqn:E. simpl.
  change this1 with (this1, w1).1. rewrite <- E. apply sendQuestion_user.
Qed.

(** C8, as the code has it.  For the reaction received by an active
    prompt of [reaction]: a pattern is tested on the visible name of the
    emoji; an array accepts when it is empty or lists the identity of the
    emoji, its identifier when it has a (non-empty) one and its name
    otherwise.  On acceptance the call returns the emoji object of the
    reaction and the user has no registry entry; otherwise it re-renders
    and the call continues as the non-initial call on the events still to
    come. *)
Theorem reaction_validates_emoji
    this w question options react error timeout initial sent events this1 w1 card
    input rest :
  user this ∉ prompts w →
  reaction_pending this w question options react initial sent = (this1, w1) →
  msg this1 = Some card →
  awaitReactions this1 (default (promptTimeout this) timeout) events = Some (input, rest) →
  (accepts_emoji options (emoji input) = true ↔
     (∃ test, options = RegExp test ∧ test (emoji_name (emoji input)) = true) ∨
     options = Array [] ∨
     (∃ choices, options = Array choices ∧ identity (emoji input) ∈ choices)) ∧
  (∀ i, emoji_id (emoji input) = Some i → i ≠ "" → identity (emoji input) = i) ∧
  (emoji_id (emoji input) = None → identity (emoji input) = emoji_name (emoji input)) ∧
  (accepts_emoji options (emoji input) = true →
   reaction this w question options react error timeout initial sent events
     = (Returned (Some (emoji input)), this1, prompts_delete (user this1) w1) ∧
   (user this ∉ prompts (prompts_delete (user this1) w1))) ∧
  (accepts_emoji options (emoji input) = false →
   reaction this w question options react error timeout initial sent events
     = reaction this1
         (request (MessageEdit card
                     (JS.or_else error "That is not a valid choice! Please try again."
                        +:+ String "010" (String "010" question)) true)
                  (prompts_delete (user this1) w1))
         question options react error timeout false sent rest).
Proof.
  intros Hfree Hp Hcard Hwait.
  split; [apply accepts_emoji_spec|]. split; [apply identity_spec|].
  split; [apply identity_spec|].
  assert (Hbody :
    reaction_body this w question options react error timeout initial sent events
    = if accepts_emoji options (emoji input)
      then Done (Returned (Some (emoji input)), this1, prompts_delete (user this1) w1)
      else Again this1
             (request (MessageEdit card
                         (JS.or_else error "That is not a valid choice! Please try again."
                            +:+ String "010" (String "010" question)) true)
                      (prompts_delete (user this1) w1))
             rest).
  { unfold reaction_body. rewrite decide_False by exact Hfree.
    rewrite Hp, Hcard, Hwait. destruct (accepts_emoji _ _); [reflexivity|].
    by rewrite (sendQuestion_card _ _ _ _ _ Hcard). }
  split.
  - intros Ha. rewrite Ha in Hbody. split; [by rewrite reaction_step, Hbody|].
    assert (Hu : user this1 = user this).
    { change this1 with (this1, w1).1. rewrite <- Hp. apply reaction_pending_user. }
    simpl. rewrite Hu. intros [_ H]%elem_of_difference. apply H. by apply elem_of_singleton.
  - intros Ha. rewrite Ha in Hbody. by rewrite reaction_step, Hbody.
Qed.

Lemma reaction_validates_emoji_witness :
  reaction alice idle "Sure?" (Array ["123"; "👎"]) false None None true card
    [(10, reacts party)]
  = (Returned (Some party), set_msg alice (Some card),
     {| prompts := ∅; outbox := [ChannelSendEmbed "general" "Sure?"] |}).
Proof.
  refine (eq_trans (proj1 (proj1 (proj2 (proj2 (proj2 (reaction_validates_emoji alice idle
            "Sure?" (Array ["123"; "👎"]) false None None true card [(10, reacts party)]
            (set_msg alice (Some card))
            (reaction_pending alice idle "Sure?" (Array ["123"; "👎"]) false true card).2
            card (reacts party) [] _ _ _ _)))) _)) _).
  - vm_compute. discriminate.
  - reflexivity.
  - reflexivity.
  - reflexivity.
  - reflexivity.
  - vm_compute. reflexivity.
Defined.

(** C8 as stated fails for a pattern: the pattern matches the identifier of
    the custom emoji, which is its identity, but the code tests the name;
    the reaction is rejected and, nothing else arriving, the call times
    out. *)
Lemma reaction_pattern_tests_name :
  let by_identity := RegExp (fun s => String.eqb s "123") in
  identity party = "123" ∧
  (reaction alice idle "Sure?" by_identity false None None true card
     [(10, reacts party)]).1.1 = Returned None ∧
  (reaction alice idle "Sure?" by_identity false None None true card
     [(10, reacts party)]).1.1 ≠ Returned (Some party).
Proof. split; [reflexivity|]. split; [vm_compute; reflexivity|]. vm_compute. discriminate. Qed.

(** ** C10: the page counter of troubleshoot *)

Module TroubleshootProperties.
Import Troubleshoot.

Lemma pages_length_10 : pages_length = 10.
Proof. reflexivity. Qed.

Lemma start_page_parsed args :
  start_page args =
  match parsed args with
  | Some n => if (1 <=? n) && (n <=? 10) then n - 1 else 0
  | None => 0
  end.
Proof.
  unfold start_page. rewrite pages_length_10.
  destruct (parsed args) as [n|]; [|reflexivity].
  destruct (Z.gtb_spec n 10), (Z.leb_spec n 0), (Z.leb_spec 1 n), (Z.leb_spec n 10);
    simpl; try lia; try reflexivity.
  destruct (Z.gtb_spec (n - 1) 10); [lia|reflexivity].
Qed.

Lemma start_page_range args : 0 ≤ start_page args ≤ 9.
Proof.
  rewrite start_page_parsed. destruct (parsed args) as [n|]; [|lia].
  destruct (Z.leb_spec 1 n), (Z.leb_spec n 10); simpl; lia.
Qed.

Lemma collect_range page name :
  0 ≤ page ≤ 9 → 0 ≤ (collect page name).1 ≤ 9.
Proof.
  intros Hp. unfold collect. rewrite pages_length_10.
  repeat match goal with
         | |- context [if ?b then _ else _] => destruct b eqn:?
         end; simpl; lia.
Qed.

Lemma browse_range names : ∀ page, 0 ≤ page ≤ 9 → 0 ≤ browse page names ≤ 9.
Proof.
  unfold browse. induction names as [|name names IH]; intros page Hp; simpl; [done|].
  apply IH. by apply collect_range.
Qed.

(** C10, as the code has it.  The page counter of the troubleshoot
    command stays between 0 and 9, the indices of the 10 pages.  The
    command opens on index 0 when [parseInt] of the argument is [NaN] or
    a number outside 1..10, and on that number minus one otherwise; the
    collector is installed only on index 0.  On a collected reaction the
    counter becomes 0 for the rewind emoji and 9 for the fast-forward
    emoji, is decremented by the left arrow exactly when it is greater
    than 0, incremented by the right arrow exactly when it is not 9, and
    is left unchanged by any other emoji; the message is edited to the
    new index exactly when the counter changed. *)
Theorem page_stays_in_range :
  (∀ args, 0 ≤ start_page args ≤ 9) ∧
  (∀ args, parsed args = None → start_page args = 0) ∧
  (∀ args n, parsed args = Some n → ¬ (1 ≤ n ≤ 10) → start_page args = 0) ∧
  (∀ args n, parsed args = Some n → 1 ≤ n ≤ 10 → start_page args = n - 1) ∧
  (∀ args page, execute args = Paged page → page = 0) ∧
  (∀ page, 0 ≤ page ≤ 9 →
     (collect page "⏪").1 = 0 ∧
     (collect page "⏩").1 = 9 ∧
     (0 < page → (collect page "⬅️").1 = page - 1) ∧
     (page = 0 → (collect page "⬅️").1 = page) ∧
     (page ≠ 9 → (collect page "➡️").1 = page + 1) ∧
     (page = 9 → (collect page "➡️").1 = page) ∧
     (∀ name, name ∉ ["⏪"; "⬅️"; "➡️"; "⏩"] → collect page name = (page, None)) ∧
     (∀ name, 0 ≤ (collect page name).1 ≤ 9) ∧
     (∀ name, (collect page name).2 =
              if (collect page name).1 =? page then None else Some (collect page name).1)) ∧
  (∀ args names, 0 ≤ browse (start_page args) names ≤ 9).
Proof.
  split; [apply start_page_range|].
  split; [by intros args H; rewrite start_page_parsed, H|].
  split.
  { intros args n H Hn. rewrite start_page_parsed, H.
    destruct (Z.leb_spec 1 n), (Z.leb_spec n 10); simpl; lia. }
  split.
  { intros args n H Hn. rewrite start_page_parsed, H.
    destruct (Z.leb_spec 1 n), (Z.leb_spec n 10); simpl; lia. }
  split.
  { intros args page. unfold execute.
    pose proof (start_page_range args).
    destruct (Z.gtb_spec (start_page args) 0); [done|]. intros [= <-]. lia. }
  split; [|intros args names; apply browse_range, start_page_range].
  intros page Hp. unfold collect. rewrite pages_length_10.
  change (String.eqb "⏪" "⏪") with true.
  change (String.eqb "⏩" "⏪") with false.
  change (String.eqb "⏩" "⬅️") with false.
  change (String.eqb "⏩" "➡️") with false.
  change (String.eqb "⏩" "⏩") with true.
  change (String.eqb "⬅️" "⏪") with false.
  change (String.eqb "⬅️" "⬅️") with true.
  change (String.eqb "➡️" "⏪") with false.
  change (String.eqb "➡️" "⬅️") with false.
  change (String.eqb "➡️" "➡️") with true.
  cbv iota.
  split_and!.
  - destruct (Z.eqb_spec page 0); simpl; lia.
  - destruct (Z.eqb_spec (page + 1) 10); simpl; lia.
  - intros ?. destruct (Z.eqb_spec page 0); simpl; lia.
  - intros ?. destruct (Z.eqb_spec page 0); simpl; lia.
  - intros ?. destruct (Z.eqb_spec (page + 1) 10); simpl; lia.
  - intros ?. destruct (Z.eqb_spec (page + 1) 10); simpl; lia.
  - intros name Hname.
    repeat (apply not_elem_of_cons in Hname as [?%String.eqb_neq Hname]).
    by repeat match goal with H : String.eqb name _ = false |- _ => rewrite H; clear H end.
  - intros name. pose proof (collect_range page name Hp) as H. unfold collect in H.
    rewrite pages_length_10 in H. exact H.
  - intros name.
    repeat match goal with
           | |- context [if String.eqb name ?s then _ else _] =>
               destruct (String.eqb name s)
           end;
    repeat match goal with
           | |- context [if ?a =? ?b then _ else _] => destruct (Z.eqb_spec a b)
           end; simpl;
    repeat match goal with
           | |- context [if ?a =? ?b then _ else _] => destruct (Z.eqb_spec a b)
           end; first [reflexivity | exfalso; simpl in *; lia].
Qed.

Lemma page_stays_in_range_witness :
  parsed ["7"] = Some 7 ∧ start_page ["7"] = 6 ∧ (collect 6 "⬅️").1 = 5.
Proof.
  assert (H : parsed ["7"] = Some 7) by reflexivity.
  assert (H6 : 0 ≤ 6 ≤ 9) by lia.
  assert (H0 : 0 < 6) by lia.
  split; [exact H|]. split.
  - exact (proj1 (proj2 (proj2 (proj2 page_stays_in_range))) ["7"] 7 H ltac:(lia)).
  - exact (proj1 (proj2 (proj2 (proj1 (proj2 (proj2 (proj2 (proj2 (proj2
             page_stays_in_range))))) 6 H6))) H0).
Defined.

(** C10 as stated fails on an argument that only starts with an integer:
    3abc is not an integer between 1 and 10, yet [parseInt] reads 3 and
    the command opens on index 2. *)
Lemma start_page_reads_prefix :
  ¬ integer_between 1 10 "3abc" ∧ start_page ["3abc"] = 2.
Proof.
  split; [|reflexivity].
  intros (n & [Hlo Hhi] & Hn).
  do 11 (destruct n as [|n]; [try lia; discriminate Hn|]). lia.
Qed.

End TroubleshootProperties.

(** ** C1: one prompt per user *)

(** [message] is its two phases, one after the other. *)
Lemma message_body_phases this w question options error timeout initial sent events :
  message_body this w question options error timeout initial sent events
  = match message_start this w question initial sent with
    | Refused w' => Done (None, this, w')
    | Threw this1 w1 => Done (None, this1, w1)
    | Suspended this1 w1 =>
        message_resume this1 w1 question options error sent
          (awaitMessages this1 (default (promptTimeout this) timeout) events)
    end.
Proof.
  unfold message_body, message_start, message_pending, message_resume.
  case_decide; [done|].
  destruct initial; [destruct (sendQuestion _ _ _ _)|]; reflexivity.
Qed.

(** [reaction] is its two phases, one after the other, when the transport
    fulfils the requests it awaits. *)
Lemma reaction_body_phases this w question options react error timeout initial sent events :
  reaction_body this w question options react error timeout initial sent events
  = match reaction_start this w question options react initial sent Delivered with
    | Refused w' => Done (Returned None, this, w')
    | Threw this1 w1 => Done (Thrown "TypeError", this1, w1)
    | Suspended this1 w1 =>
        reaction_resume this1 w1 question options error sent
          (awaitReactions this1 (default (promptTimeout this) timeout) events)
    end.
Proof.
  unfold reaction_body, reaction_start, reaction_pending, reaction_resume.
  case_decide; [done|].
  destruct initial; [destruct (sendQuestion _ _ _ _) as [this1 w1]|];
    cbv beta iota zeta; (destruct (msg _); reflexivity).
Qed.

(** What the first phase leaves: a refused call only sends the notice, and
    a call that passed the guard holds the entry of its user. *)
Lemma message_start_spec this w question initial sent :
  match message_start this w question initial sent with
  | Refused w' => user this ∈ prompts w ∧ w' = refuse this w
  | Threw _ _ => False
  | Suspended this1 w1 =>
      (user this ∉ prompts w) ∧ user this1 = user this ∧
      prompts w1 = {[user this]} ∪ prompts w
  end.
Proof.
  unfold message_start. case_decide; [done|].
  destruct initial.
  - destruct (sendQuestion _ _ _ _) as [this1 w1] eqn:E.
    split_and!; [done|..].
    + change this1 with (this1, w1).1. rewrite <- E. apply sendQuestion_user.
    + change w1 with (this1, w1).2. rewrite <- E. by rewrite sendQuestion_prompts.
  - done.
Qed.

Lemma reaction_start_spec this w question options react initial sent t :
  match reaction_start this w question options react initial sent t with
  | Refused w' => user this ∈ prompts w ∧ w' = refuse this w
  | Threw this1 w1 =>
      (user this ∉ prompts w) ∧ user this1 = user this ∧
      prompts w1 = {[user this]} ∪ prompts w
  | Suspended this1 w1 =>
      (user this ∉ prompts w) ∧ user this1 = user this ∧
      prompts w1 = {[user this]} ∪ prompts w
  end.
Proof.
  unfold reaction_start. case_decide; [done|].
  assert (G : ∀ t this1 w1, user this1 = user this →
              prompts w1 = {[user this]} ∪ prompts w →
              match
                (let w2 := seed_reactions react options this1 w1 in
                 match t, attaches react options this1 with
                 | ReactRejected, true => Threw this1 w2
                 | _, _ => match msg this1 with
                           | None => Threw this1 w2
                           | Some _ => Suspended this1 w2
                           end
                 end)
              with
              | Refused w' => user this ∈ prompts w ∧ w' = refuse this w
              | Threw this2 w2 | Suspended this2 w2 =>
                  (user this ∉ prompts w) ∧ user this2 = user this ∧
                  prompts w2 = {[user this]} ∪ prompts w
              end).
  { intros t' this1 w1 Hu Hp. cbv zeta.
    pose proof (seed_reactions_prompts react options this1 w1) as Hs.
    rewrite Hp in Hs.
    destruct t', (attaches react options this1), (msg this1); done. }
  assert (S : ∀ this1 w1, sendQuestion sent question this (prompts_add (user this) w) = (this1, w1) →
              user this1 = user this ∧ prompts w1 = {[user this]} ∪ prompts w).
  { intros this1 w1 E. split.
    - change this1 with (this1, w1).1. rewrite <- E. apply sendQuestion_user.
    - change w1 with (this1, w1).2. rewrite <- E. by rewrite sendQuestion_prompts. }
  destruct t, (sends_embed initial this); try done;
    (destruct initial;
     [ destruct (sendQuestion _ _ _ _) as [this1 w1] eqn:E;
       destruct (S _ _ eq_refl) as [Hu Hp];
       first [ exact (G Delivered this1 w1 Hu Hp)
             | exact (G SendRejected this1 w1 Hu Hp)
             | exact (G ReactRejected this1 w1 Hu Hp) ]
     | first [ exact (G Delivered this (prompts_add (user this) w) eq_refl eq_refl)
             | exact (G SendRejected this (prompts_add (user this) w) eq_refl eq_refl)
             | exact (G ReactRejected this (prompts_add (user this) w) eq_refl eq_refl) ] ]).
Qed.

(** What the second phase leaves: the instance of the same user, the entry
    of that user withdrawn and no other entry touched. *)
Lemma resume_spec x o w again this1 w1 :
  resume x o w = Some (again, this1, w1) →
  user this1 = user (holder x) ∧ prompts w1 = prompts w ∖ {[user (holder x)]}.
Proof.
  unfold resume.
  destruct (call x) as [question options error sent|question options react error sent], o;
    try done; unfold message_resume, reaction_resume.
  - intros [= _ <- <-]. split; [done|].
    change (prompts (timed_out (holder x) w) = prompts w ∖ {[user (holder x)]}).
    apply timed_out_prompts.
  - destruct (is_quit _); [|destruct (accepts _ _)].
    + intros [= _ <- <-]. split; [done|]. by destruct (deletable m).
    + intros [= _ <- <-]. split; [done|]. by destruct (deletable m).
    + destruct (sendQuestion _ _ _ _) as [this2 w2] eqn:E. intros [= _ <- <-].
      split.
      * change this2 with (this2, w2).1. rewrite <- E. apply sendQuestion_user.
      * change w2 with (this2, w2).2. rewrite <- E. rewrite sendQuestion_prompts.
        by destruct (deletable m).
  - intros [= _ <- <-]. split; [done|].
    change (prompts (timed_out (holder x) w) = prompts w ∖ {[user (holder x)]}).
    apply timed_out_prompts.
  - destruct (accepts_emoji _ _).
    + intros [= _ <- <-]. done.
    + destruct (sendQuestion _ _ _ _) as [this2 w2] eqn:E. intros [= _ <- <-].
      split.
      * change this2 with (this2, w2).1. rewrite <- E. apply sendQuestion_user.
      * change w2 with (this2, w2).2. rewrite <- E. by rewrite sendQuestion_prompts.
Qed.

Lemma enter_one_per_user c initial t this s :
  one_per_user s → one_per_user (enter c initial t this s).
Proof.
  intros [Hnd Hin]. unfold enter.
  assert (G : ∀ e,
    match e with
    | Refused w' => user this ∈ prompts (world s) ∧ w' = refuse this (world s)
    | Threw this1 w1 | Suspended this1 w1 =>
        (user this ∉ prompts (world s)) ∧ user this1 = user this ∧
        prompts w1 = {[user this]} ∪ prompts (world s)
    end →
    one_per_user
      match e with
      | Refused w | Threw _ w => {| world := w; suspended := suspended s |}
      | Suspended this1 w =>
          {| world := w; suspended := {| holder := this1; call := c |} :: suspended s |}
      end).
  { intros [w'|this1 w1|this1 w1].
    - intros [_ ->]. split; [exact Hnd|exact Hin].
    - intros (_ & _ & Hp). split; [exact Hnd|]. simpl. intros x Hx.
      rewrite Hp. apply elem_of_union_r, Hin, Hx.
    - intros (Hout & Hu & Hp). split; simpl.
      + apply NoDup_cons. split; [|exact Hnd].
        rewrite Hu. intros Hx. apply list_elem_of_fmap in Hx as (x & Hux & Hx).
        apply Hout. rewrite Hux. apply Hin, Hx.
      + intros x Hx. rewrite Hp. apply elem_of_cons in Hx as [->|Hx].
        * simpl. rewrite Hu. apply elem_of_union_l, elem_of_singleton. done.
        * apply elem_of_union_r, Hin, Hx. }
  apply G. destruct c.
  - pose proof (message_start_spec this (world s) question initial sent) as H.
    destruct (message_start _ _ _ _ _); [exact H|done|exact H].
  - apply reaction_start_spec.
Qed.

Lemma settle_one_per_user i o t s :
  one_per_user s → one_per_user (settle i o t s).
Proof.
  intros [Hnd Hin]. unfold settle.
  destruct (suspended s !! i) as [x|] eqn:Hi; [|done].
  destruct (resume x o (world s)) as [[[again this1] w1]|] eqn:Hr; [|done].
  apply resume_spec in Hr as [Hu Hp].
  assert (Hs : suspended s = (take i (suspended s) ++ x :: drop (S i) (suspended s))%list).
  { symmetry. by apply take_drop_middle. }
  set (others := (take i (suspended s) ++ drop (S i) (suspended s))%list) in *.
  assert (Hrest : one_per_user {| world := w1; suspended := others |}).
  { rewrite Hs in Hnd. rewrite fmap_app, fmap_cons in Hnd.
    apply NoDup_app in Hnd as (Hn1 & Hn12 & Hn2).
    apply NoDup_cons in Hn2 as [Hx Hn2].
    split; simpl.
    - unfold others. rewrite fmap_app. apply NoDup_app. split_and!; [done| |done].
      intros u Hu1 Hu2. apply (Hn12 u Hu1). by apply elem_of_cons; right.
    - intros y Hy. rewrite Hp. apply elem_of_difference. split.
      + apply Hin. rewrite Hs. unfold others in Hy.
        apply elem_of_app in Hy as [Hy|Hy]; apply elem_of_app; [by left|].
        right. by apply elem_of_cons; right.
      + rewrite elem_of_singleton. intros Heq.
        unfold others in Hy. apply elem_of_app in Hy as [Hy|Hy].
        * apply (Hn12 (user (holder y))).
          -- apply list_elem_of_fmap; by exists y.
          -- rewrite Heq. by apply elem_of_cons; left.
        * apply Hx. rewrite <- Heq. apply list_elem_of_fmap; by exists y. }
  destruct again; [|exact Hrest].
  by apply enter_one_per_user.
Qed.

Lemma resolve_one_per_user i m s :
  one_per_user s → one_per_user (resolve i m s).
Proof.
  intros [Hnd Hin]. unfold resolve.
  set (f := fun x => {| holder := set_msg (holder x) m; call := call x |}).
  assert (Hu : (fun x => user (holder x)) <$> alter f i (suspended s)
               = (fun x => user (holder x)) <$> suspended s).
  { rewrite (list_fmap_alter _ f id).
    - apply list_alter_id. done.
    - apply Forall_forall. done. }
  split; simpl.
  - by rewrite Hu.
  - intros x Hx.
    assert (Hx' : user (holder x) ∈ (fun x => user (holder x)) <$> alter f i (suspended s)).
    { apply list_elem_of_fmap. by exists x. }
    rewrite Hu in Hx'. apply list_elem_of_fmap in Hx' as (y & -> & Hy).
    by apply Hin.
Qed.

Lemma run_one_per_user actions s :
  Forall prompt_action actions → one_per_user s → one_per_user (run actions s).
Proof.
  unfold run. intros Hall. revert s.
  induction Hall as [|a actions Ha _ IH]; intros s Hs; simpl; [done|].
  apply IH.
  destruct a;
    [by apply enter_one_per_user|by apply settle_one_per_user
    |by apply resolve_one_per_user|done].
Qed.

(** C1, as the code has it.  [message] and [reaction] are the two phases
    modelled above; as long as [delete()] is not called, at most one call
    per user is suspended at its await and the registry holds the entry of
    every user with a suspended call, whatever calls are made, whichever
    awaits settle in whatever order, whenever the sends in flight resolve
    and whichever awaited requests are rejected; and while a call of a user
    is suspended, every further call of [message] and of [reaction] for
    that user, on whatever instance, returns no result, suspends nothing,
    leaves the instance, the suspended calls and the registry as they were
    and adds to the outbox only the notice 'You already have another prompt
    open!'. *)
Theorem one_prompt_per_user_until_delete :
  (∀ this w question options error timeout initial sent events,
      message_body this w question options error timeout initial sent events
      = match message_start this w question initial sent with
        | Refused w' => Done (None, this, w')
        | Threw this1 w1 => Done (None, this1, w1)
        | Suspended this1 w1 =>
            message_resume this1 w1 question options error sent
              (awaitMessages this1 (default (promptTimeout this) timeout) events)
        end) ∧
  (∀ this w question options react error timeout initial sent events,
      reaction_body this w question options react error timeout initial sent events
      = match reaction_start this w question options react initial sent Delivered with
        | Refused w' => Done (Returned None, this, w')
        | Threw this1 w1 => Done (Thrown "TypeError", this1, w1)
        | Suspended this1 w1 =>
            reaction_resume this1 w1 question options error sent
              (awaitReactions this1 (default (promptTimeout this) timeout) events)
        end) ∧
  (∀ actions s,
      Forall prompt_action actions → one_per_user s → one_per_user (run actions s)) ∧
  (∀ s x this,
      one_per_user s → x ∈ suspended s → user this = user (holder x) →
      (∀ c initial t,
          enter c initial t this s
          = {| world := refuse this (world s); suspended := suspended s |}) ∧
      (∀ question options react error timeout initial sent events revents,
          message this (world s) question options error timeout initial sent events
            = (None, this, refuse this (world s)) ∧
          reaction this (world s) question options react error timeout initial sent revents
            = (Returned None, this, refuse this (world s))) ∧
      prompts (refuse this (world s)) = prompts (world s) ∧
      outbox (refuse this (world s))
        = (outbox (world s) ++ [ChannelSend (trigger_channel this)
                                  "You already have another prompt open!"])%list).
Proof.
  split_and!.
  - apply message_body_phases.
  - apply reaction_body_phases.
  - apply run_one_per_user.
  - intros s x this [_ Hin] Hx Hu.
    assert (Hopen : user this ∈ prompts (world s)) by (rewrite Hu; by apply Hin).
    split_and!; try reflexivity.
    + intros c initial t. unfold enter, message_start, reaction_start.
      destruct c; rewrite decide_True by done; reflexivity.
    + intros. split.
      * rewrite message_step. unfold message_body. by rewrite decide_True.
      * rewrite reaction_step. unfold reaction_body. by rewrite decide_True.
Qed.

Lemma one_prompt_per_user_until_delete_witness :
  let actions :=
    [Enter (MessageCall "Continue?" (Array ["yes"; "no"]) None card) true Delivered alice;
     Enter (ReactionCall "Sure?" (Array ["👍"]) true None card) true Delivered
       alice_elsewhere;
     Resolve 0 None;
     Settle 0 (Received (reply "maybe")) Delivered;
     Enter (MessageCall "Again?" (Array []) None card) true Delivered alice_elsewhere;
     Settle 0 Timeout Delivered] in
  Forall prompt_action actions ∧ one_per_user nothing_open ∧
  one_per_user (run actions nothing_open).
Proof.
  intros actions.
  assert (Ha : Forall prompt_action actions) by (repeat constructor).
  assert (H0 : one_per_user nothing_open).
  { split; simpl; [constructor|]. intros x Hx. inversion Hx. }
  split_and!; [exact Ha|exact H0|].
  exact (proj1 (proj2 (proj2 one_prompt_per_user_until_delete)) actions nothing_open Ha H0).
Defined.

(** C1 as stated fails once [delete()] is called: it withdraws the entry of
    the user (line 33) whether or not a call of that user is suspended.
    With the prompt of [alice] suspended at its await, [delete()] on another
    instance of the same user lets the next call of [message] for that user
    pass the guard: two prompts of user 42 are then open, and the second one
    returns the reply instead of being refused. *)
Lemma delete_reopens_guard :
  let first := MessageCall "Continue?" (Array ["yes"; "no"]) None card in
  let opened := run [Enter first true Delivered alice] nothing_open in
  let released := run [CallDelete alice_elsewhere] opened in
  let second := MessageCall "Again?" (Array []) None card in
  let both := run [Enter second true Delivered alice_elsewhere] released in
  (fun x => user (holder x)) <$> suspended opened = ["42"] ∧
  (fun x => user (holder x)) <$> suspended both = ["42"; "42"] ∧
  ¬ one_per_user both ∧
  (message alice_elsewhere (world released) "Again?" (Array []) None None true card
     [(10, reply "yes")]).1.1 = Some "yes".
Proof.
  split_and!.
  - vm_compute. reflexivity.
  - vm_compute. reflexivity.
  - intros [Hnd _]. vm_compute in Hnd.
    apply NoDup_cons in Hnd as [Hx _]. apply Hx. constructor.
  - vm_compute. reflexivity.
Qed.

(** ** C5: the reply that outruns the first render *)

Lemma unawaited_message_step r w question options error timeout initial events :
  Unawaited.message r w question options error timeout initial events =
  match Unawaited.message_body r w question options error timeout initial events with
  | Unawaited.Done res => res
  | Unawaited.Again r' w' rest =>
      Unawaited.message r' w' question options error timeout false rest
  end.
Proof.
  rewrite Unawaited.message_equation_1. unfold inspect.
  enough (G : ∀ s (H : Unawaited.message_body r w question options error timeout initial
                         events = s),
    Unawaited.message_unfold_clause_1 r w question options error timeout initial events
      (s ↾ H) =
    match s with
    | Unawaited.Done res => res
    | Unawaited.Again r' w' rest =>
        Unawaited.message r' w' question options error timeout false rest
    end) by apply G.
  intros [res|r' w' rest] H; simp message; reflexivity.
Qed.

(** The two collectors deliver the same event and leave the same events. *)
Lemma awaitFirstAt_awaitFirst {E} (filter : E → bool) time elapsed events :
  awaitFirst filter time events
  = match awaitFirstAt filter time elapsed events with
    | Some (e, _, rest) => Some (e, rest)
    | None => None
    end.
Proof.
  revert time elapsed.
  induction events as [|[gap x] events IH]; intros time elapsed; simpl; [done|].
  destruct (time <=? gap); [done|]. destruct (filter x); [done|]. apply IH.
Qed.

Lemma elapse_at_rest ms this answers :
  Unawaited.elapse ms (Unawaited.at_rest this answers) = Unawaited.at_rest this answers.
Proof. reflexivity. Qed.

(** With a rendered message and no send in flight, one activation does in
    the racing model what it does when sends are taken to have resolved. *)
Lemma unawaited_body_rendered this w question options error timeout initial sent events
    answers m :
  msg this = Some m →
  Unawaited.message_body (Unawaited.at_rest this answers) w question options error timeout
    initial events
  = match message_body this w question options error timeout initial sent events with
    | Done (res, this', w') => Unawaited.Done (res, Unawaited.at_rest this' answers, w')
    | Again this' w' rest => Unawaited.Again (Unawaited.at_rest this' answers) w' rest
    end
  ∧ match message_body this w question options error timeout initial sent events with
    | Done (_, this', _) | Again this' _ _ => this' = this
    end.
Proof.
  intros Hm.
  unfold Unawaited.message_body, message_body, message_pending, awaitMessages.
  cbn [Unawaited.manager Unawaited.at_rest].
  case_decide; [done|].
  unfold Unawaited.sendQuestion, sendQuestion.
  cbn [Unawaited.manager Unawaited.at_rest]. rewrite Hm.
  destruct initial; cbv beta iota zeta; cbn [Unawaited.manager];
    rewrite (awaitFirstAt_awaitFirst _ _ 0 events);
    (destruct (awaitFirstAt _ _ _ events) as [[[input elapsed] rest]|];
     rewrite !elapse_at_rest; cbn [Unawaited.manager Unawaited.at_rest];
     rewrite ?Hm; [|done];
     destruct (is_quit _); [done|]; destruct (accepts _ _); done).
Qed.

Lemma message_body_again_shorter this w question options error timeout initial sent events
    this' w' rest :
  message_body this w question options error timeout initial sent events
    = Again this' w' rest →
  (length rest < length events)%nat.
Proof.
  rewrite message_body_phases.
  destruct (message_start _ _ _ _ _) as [?|??|this1 w1]; [done..|].
  unfold message_resume, awaitMessages.
  destruct (awaitFirst _ _ events) as [[input rest0]|] eqn:Hw; [|done].
  destruct (is_quit _); [done|]. destruct (accepts _ _); [done|].
  destruct (sendQuestion _ _ _ _). intros [= _ _ <-].
  eapply awaitFirst_shorter, Hw.
Qed.

(** With a rendered message and no send in flight the two models of
    [message] agree on the whole call: the result, the instance and the
    world are the same, and nothing is in flight at the end. *)
Lemma unawaited_message_rendered question options error timeout sent answers events :
  ∀ this w initial m,
    msg this = Some m →
    Unawaited.message (Unawaited.at_rest this answers) w question options error timeout
      initial events
    = ((message this w question options error timeout initial sent events).1.1,
       Unawaited.at_rest
         (message this w question options error timeout initial sent events).1.2 answers,
       (message this w question options error timeout initial sent events).2).
Proof.
  remember (length events) as n eqn:Hn.
  revert events Hn. induction (lt_wf n) as [n _ IH]. intros events -> this w initial m Hm.
  rewrite unawaited_message_step, message_step.
  destruct (unawaited_body_rendered this w question options error timeout initial sent
              events answers m Hm) as [Hb Hsame].
  rewrite Hb.
  destruct (message_body this w question options error timeout initial sent events)
    as [[[res this'] w']|this' w' rest] eqn:E.
  - reflexivity.
  - subst this'.
    apply (IH (length rest) (message_body_again_shorter _ _ _ _ _ _ _ _ _ _ _ _ E)
             rest eq_refl this w' false m Hm).
Qed.

(** So do they on the initial call of an instance with no rendered message
    when the send of the first render resolves before the collector
    settles. *)
Lemma unawaited_message_first_render
    this w question options error timeout latency sent more events :
  msg this = None →
  user this ∉ prompts w →
  resolved_by_then latency this (default (promptTimeout this) timeout) events →
  Unawaited.message (Unawaited.at_rest this ((latency, sent) :: more)) w question options
    error timeout true events
  = ((message this w question options error timeout true sent events).1.1,
     Unawaited.at_rest
       (message this w question options error timeout true sent events).1.2 more,
     (message this w question options error timeout true sent events).2).
Proof.
  intros Hm Hfree Hres.
  remember (message this w question options error timeout true sent events) as res eqn:Hr.
  rewrite message_step in Hr.
  unfold message_body, message_pending, awaitMessages, sendQuestion in Hr.
  rewrite decide_False, Hm in Hr by done.
  cbv beta iota zeta in Hr. cbn [user set_msg msg trigger_channel] in Hr.
  rewrite (awaitFirstAt_awaitFirst _ _ 0 events) in Hr.
  rewrite unawaited_message_step.
  unfold Unawaited.message_body, Unawaited.sendQuestion.
  cbn [Unawaited.manager Unawaited.answers Unawaited.inflight Unawaited.at_rest lodge].
  rewrite decide_False, Hm by done. cbv beta iota zeta.
  unfold resolved_by_then in Hres.
  destruct (awaitFirstAt _ _ _ events) as [[[input elapsed] rest]|];
    cbn [Unawaited.elapse Unawaited.inflight Unawaited.manager Unawaited.answers foldl];
    (rewrite (proj2 (Z.leb_le _ _) Hres));
    cbn [Unawaited.manager Unawaited.inflight Unawaited.answers msg set_msg];
    [|by subst res].
  destruct (is_quit _); [by subst res|]. destruct (accepts _ _); [by subst res|].
  subst res.
  apply (unawaited_message_rendered question options error timeout sent more rest
           (set_msg this (Some sent)) _ false sent eq_refl).
Qed.

(** C5, as the code has it when the reply outruns the first render.  The
    initial call on an instance with no rendered message sends the embed
    and goes on to its await without awaiting the send (line 56).  When
    the reply of the user arrives before the send has resolved and is
    neither a prefix of quit nor accepted, [this.msg] is still undefined at
    line 78: the re-render does not edit the message that the first render
    creates but sends a second embed with the error line, an empty line and
    the question, and the call continues as the non-initial call with
    [this.msg] still undefined. *)
Theorem message_resends_when_reply_outruns_send
    this w question options error timeout latency sent more gap input rest :
  msg this = None →
  user this ∉ prompts w →
  author input = user this →
  gap < 1000 * 60 * default (promptTimeout this) timeout →
  gap < latency →
  is_quit (content input) = false →
  accepts options (content input) = false →
  ∃ r1 w1,
    Unawaited.message_body (Unawaited.at_rest this ((latency, sent) :: more)) w
      question options error timeout true ((gap, input) :: rest)
      = Unawaited.Again r1 w1 rest ∧
    Unawaited.message (Unawaited.at_rest this ((latency, sent) :: more)) w
      question options error timeout true ((gap, input) :: rest)
      = Unawaited.message r1 w1 question options error timeout false rest ∧
    Unawaited.manager r1 = this ∧
    prompts w1 = prompts w ∧
    outbox w1
      = (outbox w
           ++ [ChannelSendEmbed (channel this) question]
           ++ (if deletable input then [MessageDelete input 1000 true] else [])
           ++ [ChannelSendEmbed (channel this)
                 (error_line error (content input)
                    +:+ String "010" (String "010" question))])%list.
Proof.
  intros Hm Hfree Hau Hgap Hlat Hq Ha.
  assert (Hbody : ∃ r1 w1,
    Unawaited.message_body (Unawaited.at_rest this ((latency, sent) :: more)) w
      question options error timeout true ((gap, input) :: rest)
      = Unawaited.Again r1 w1 rest ∧
    Unawaited.manager r1 = this ∧
    prompts w1 = prompts w ∧
    outbox w1
      = (outbox w
           ++ [ChannelSendEmbed (channel this) question]
           ++ (if deletable input then [MessageDelete input 1000 true] else [])
           ++ [ChannelSendEmbed (channel this)
                 (error_line error (content input)
                    +:+ String "010" (String "010" question))])%list).
  { unfold Unawaited.message_body. cbn [Unawaited.manager Unawaited.at_rest].
    rewrite decide_False by done.
    unfold Unawaited.sendQuestion at 1.
    cbn [Unawaited.manager Unawaited.at_rest Unawaited.answers Unawaited.inflight].
    rewrite Hm. cbv beta iota zeta. cbn [awaitFirstAt].
    replace (_ <=? gap) with false by (symmetry; apply Z.leb_gt; lia).
    rewrite Hau, String.eqb_refl. rewrite Hq, Ha.
    cbn [lodge Unawaited.elapse Unawaited.inflight foldl Unawaited.manager Unawaited.answers].
    replace (latency <=? 0 + gap) with false by (symmetry; apply Z.leb_gt; lia).
    unfold Unawaited.sendQuestion.
    cbn [Unawaited.manager Unawaited.inflight Unawaited.answers]. rewrite Hm.
    assert (Hp : ({[user this]} ∪ prompts w) ∖ {[user this]} = prompts w).
    { apply set_eq. intros x.
      rewrite elem_of_difference, elem_of_union, elem_of_singleton.
      split; [tauto|]. intros Hx. split; [tauto|]. congruence. }
    destruct more as [|a more]; eexists _, _; (split; [reflexivity|]);
      (split; [reflexivity|]);
      destruct (deletable input); cbn [prompts outbox request prompts_delete prompts_add];
      (split; [exact Hp|]); rewrite <- ?app_assoc; reflexivity. }
  destruct Hbody as (r1 & w1 & Hb & Hrest).
  exists r1, w1. split; [exact Hb|]. split; [|exact Hrest].
  by rewrite unawaited_message_step, Hb.
Qed.

Lemma message_resends_when_reply_outruns_send_witness :
  ∃ r1 w1,
    Unawaited.message_body (Unawaited.at_rest alice [(500, card); (400, second_card)]) idle
      "Continue?" (Array ["yes"; "no"]) None None true
      [(100, reply "maybe"); (1000, reply "no")]
      = Unawaited.Again r1 w1 [(1000, reply "no")] ∧
    Unawaited.message (Unawaited.at_rest alice [(500, card); (400, second_card)]) idle
      "Continue?" (Array ["yes"; "no"]) None None true
      [(100, reply "maybe"); (1000, reply "no")]
      = Unawaited.message r1 w1 "Continue?" (Array ["yes"; "no"]) None None false
          [(1000, reply "no")] ∧
    Unawaited.manager r1 = alice ∧
    prompts w1 = prompts idle ∧
    outbox w1
      = (outbox idle
           ++ [ChannelSendEmbed (channel alice) "Continue?"]
           ++ (if deletable (reply "maybe")
               then [MessageDelete (reply "maybe") 1000 true] else [])
           ++ [ChannelSendEmbed (channel alice)
                 (error_line None (content (reply "maybe"))
                    +:+ String "010" (String "010" "Continue?"))])%list.
Proof.
  refine (message_resends_when_reply_outruns_send alice idle "Continue?"
            (Array ["yes"; "no"]) None None 500 card [(400, second_card)] 100
            (reply "maybe") [(1000, reply "no")] _ _ _ _ _ _ _).
  - reflexivity.
  - vm_compute. discriminate.
  - reflexivity.
  - reflexivity.
  - reflexivity.
  - reflexivity.
  - reflexivity.
Defined.

(** The whole call on that input: the reply maybe arrives 100 ms into a send
    that takes 500 ms, so two embeds are sent; the second one resolves
    first, the first one last and is the one [this.msg] ends with. *)
Lemma message_reply_outruns_send_run :
  let res :=
    Unawaited.message (Unawaited.at_rest alice [(500, card); (300, second_card)]) idle
      "Continue?" (Array ["yes"; "no"]) None None true
      [(100, reply "maybe"); (1000, reply "no")] in
  res.1.1 = Some "no" ∧
  msg (Unawaited.manager res.1.2) = Some card ∧
  outbox res.2
  = [ChannelSendEmbed "general" "Continue?";
     MessageDelete (reply "maybe") 1000 true;
     ChannelSendEmbed "general"
       ("`maybe` is not a valid choice! Please try again."
          +:+ String "010" (String "010" "Continue?"));
     MessageDelete (reply "no") 1000 true].
Proof. vm_compute. split_and!; reflexivity. Qed.

(** * Further properties of the prompt engine *)

(** ** The result of [message] *)

Lemma awaitFirst_elem {E} (filter : E → bool) events :
  ∀ time e rest, awaitFirst filter time events = Some (e, rest) →
  (∃ gap, (gap, e) ∈ events) ∧ ∀ ev, ev ∈ rest → ev ∈ events.
Proof.
  induction events as [|[gap x] events IH]; intros time e rest; simpl; [done|].
  destruct (time <=? gap); [done|].
  destruct (filter x).
  - intros [= <- <-]. split; [exists gap; apply elem_of_cons; by left|].
    intros ev Hev. apply elem_of_cons. by right.
  - intros H. apply IH in H as [[g Hg] Hrest]. split.
    + exists g. apply elem_of_cons. by right.
    + intros ev Hev. apply elem_of_cons. right. by apply Hrest.
Qed.

Lemma retry_state this w question initial sent this1 w1 input text this2 w2 :
  user this ∉ prompts w →
  message_pending this w question initial sent = (this1, w1) →
  sendQuestion sent text this1 (received input this1 w1) = (this2, w2) →
  same_session this2 this ∧ prompts w2 = prompts w ∧ is_Some (msg this2).
Proof.
  intros Hfree Hp Hs. split; [|split].
  - pose proof (sendQuestion_session sent text this1 (received input this1 w1)) as H2.
    pose proof (message_pending_session this w question initial sent) as H1.
    rewrite Hs in H2. rewrite Hp in H1. cbn [fst] in H1, H2.
    destruct H1 as (? & ? & ? & ?), H2 as (? & ? & ? & ?).
    repeat split; congruence.
  - change w2 with (this2, w2).2. rewrite <- Hs, sendQuestion_prompts.
    by eapply received_prompts.
  - revert Hs. unfold sendQuestion. destruct (msg this1) as [m|] eqn:Hm.
    + intros [= <- _]. by rewrite Hm.
    + intros [= <- _]. by eexists.
Qed.

Lemma message_result_from_events
    this w question options error timeout initial sent events v :
  (message this w question options error timeout initial sent events).1.1 = Some v →
  ∃ gap m, (gap, m) ∈ events ∧ author m = user this ∧ content m = v ∧
           is_quit v = false ∧ accepts options v = true.
Proof.
  revert this w initial events.
  apply (message_ind question options error timeout sent
           (fun this _ _ events res =>
              res.1.1 = Some v →
              ∃ gap m, (gap, m) ∈ events ∧ author m = user this ∧ content m = v ∧
                       is_quit v = false ∧ accepts options v = true));
    cbn [fst snd]; try done.
  - intros this w initial events this1 w1 input rest _ Hp Hwait Hq Ha [= <-].
    pose proof (awaited_author _ _ _ _ _ Hwait) as Hau.
    rewrite (pending_user _ _ _ _ _ _ _ Hp) in Hau.
    apply awaitFirst_elem in Hwait as [[gap Hgap] _]. by exists gap, input.
  - intros this w initial events this1 w1 input rest this2 w2 res Hfree Hp Hwait _ _ Hs
      _ _ IH Hres.
    destruct (IH Hres) as (gap & m & Hin & Hau & Hrest).
    destruct (retry_state _ _ _ _ _ _ _ _ _ _ _ Hfree Hp Hs) as ((Hu & _) & _ & _).
    apply awaitFirst_elem in Hwait as [_ Hsub].
    exists gap, m. split; [by apply Hsub|]. split; [congruence|exact Hrest].
Qed.

(** X1. Whatever [message] returns was written by the user of the prompt
    in the awaited conversation, is not a prefix of quit and passes the
    validation: the text of another user, or a text that was never sent, is
    never the result. *)
Theorem message_result_provenance
    this w question options error timeout initial sent events v :
  (message this w question options error timeout initial sent events).1.1 = Some v →
  ∃ gap m, (gap, m) ∈ events ∧ author m = user this ∧ content m = v ∧
           is_quit v = false ∧ accepts options v = true.
Proof. apply message_result_from_events. Qed.

Lemma message_result_provenance_witness :
  ∃ gap m, (gap, m) ∈ [(10, passerby "yes"); (10, reply "maybe"); (10, reply "no")] ∧
           author m = user alice ∧ content m = "no" ∧
           is_quit "no" = false ∧ accepts (Array ["yes"; "no"]) "no" = true.
Proof.
  refine (message_result_provenance alice idle "Continue?" (Array ["yes"; "no"]) None None
            true card [(10, passerby "yes"); (10, reply "maybe"); (10, reply "no")] "no" _).
  vm_compute. reflexivity.
Defined.




(** ** Embeds and edits *)

Lemma embeds_app a b : embeds (a ++ b) = (embeds a ++ embeds b)%list.
Proof. apply List.filter_app. Qed.

Lemma accounted_quiet sent this added :
  embeds added = [] → accounted sent this this added.
Proof. intros H. split; [apply same_session_refl|]. by left. Qed.

Lemma accounted_app sent this this1 this2 a1 a2 :
  accounted sent this this1 a1 → accounted sent this1 this2 a2 →
  accounted sent this this2 (a1 ++ a2).
Proof.
  intros [H1 C1] [H2 C2]. split.
  { destruct H1 as (? & ? & ? & ?), H2 as (? & ? & ? & ?). repeat split; congruence. }
  rewrite embeds_app.
  destruct C1 as [[Hm1 He1]|(Hm1 & Hs1 & d1 & He1)],
           C2 as [[Hm2 He2]|(Hm2 & Hs2 & d2 & He2)]; rewrite He1, He2.
  - left. split; [congruence|done].
  - right. rewrite <- Hm1. split; [done|]. split; [done|].
    exists d2. destruct H1 as (_ & -> & _). done.
  - right. split; [done|]. split; [congruence|]. by exists d1.
  - congruence.
Qed.

Lemma sendQuestion_accounted sent question this w :
  accounted sent this (sendQuestion sent question this w).1 [render this question].
Proof.
  split; [apply sendQuestion_session|].
  unfold sendQuestion, render. destruct (msg this) as [m|] eqn:Hm; cbn [fst].
  - left. by split.
  - right. split; [done|]. split; [done|]. by eexists.
Qed.

Lemma message_pending_accounted this w question initial sent :
  ∃ added,
    outbox (message_pending this w question initial sent).2 = (outbox w ++ added)%list ∧
    accounted sent this (message_pending this w question initial sent).1 added.
Proof.
  rewrite message_pending_outbox. eexists. split; [reflexivity|].
  unfold message_pending. destruct initial.
  - apply sendQuestion_accounted.
  - by apply accounted_quiet.
Qed.

Lemma embeds_cleanup this : embeds (cleanup this) = [].
Proof. unfold cleanup. destruct (msg this) as [m|]; [destruct (deletable m)|]; done. Qed.

Lemma embeds_input_deletion (input : Message) :
  embeds (if deletable input then [MessageDelete input 1000 true] else []) = [].
Proof. by destruct (deletable input). Qed.

Lemma message_accounted this w question options error timeout initial sent events :
  ∃ added,
    outbox (message this w question options error timeout initial sent events).2
      = (outbox w ++ added)%list ∧
    accounted sent this
      (message this w question options error timeout initial sent events).1.2 added.
Proof.
  revert this w initial events.
  apply (message_ind question options error timeout sent
           (fun this w _ _ res =>
              ∃ added, outbox res.2 = (outbox w ++ added)%list ∧
                       accounted sent this res.1.2 added));
    cbn [fst snd].
  - intros this w _ _ _. eexists. split; [reflexivity|]. by apply accounted_quiet.
  - intros this w initial events this1 w1 _ Hp _.
    destruct (message_pending_accounted this w question initial sent) as (a1 & Ho & Ha).
    rewrite Hp in Ho, Ha. cbn [fst snd] in Ho, Ha.
    rewrite timed_out_outbox, Ho, <- app_assoc.
    eexists. split; [reflexivity|]. eapply accounted_app; [exact Ha|].
    apply accounted_quiet. by rewrite embeds_app, embeds_cleanup.
  - intros this w initial events this1 w1 input rest _ Hp _ _.
    destruct (message_pending_accounted this w question initial sent) as (a1 & Ho & Ha).
    rewrite Hp in Ho, Ha. cbn [fst snd] in Ho, Ha.
    unfold notify. cbn [outbox request]. rewrite received_outbox, Ho, <- !app_assoc.
    eexists. split; [reflexivity|]. eapply accounted_app; [exact Ha|].
    apply accounted_quiet. by rewrite embeds_app, embeds_input_deletion.
  - intros this w initial events this1 w1 input rest _ Hp _ _ _.
    destruct (message_pending_accounted this w question initial sent) as (a1 & Ho & Ha).
    rewrite Hp in Ho, Ha. cbn [fst snd] in Ho, Ha.
    rewrite received_outbox, Ho, <- !app_assoc.
    eexists. split; [reflexivity|]. eapply accounted_app; [exact Ha|].
    apply accounted_quiet. apply embeds_input_deletion.
  - intros this w initial events this1 w1 input rest this2 w2 res _ Hp _ _ _ Hs _ _
      (a3 & Ho3 & Ha3).
    destruct (message_pending_accounted this w question initial sent) as (a1 & Ho & Ha).
    rewrite Hp in Ho, Ha. cbn [fst snd] in Ho, Ha.
    pose proof (sendQuestion_accounted sent (retry_text error question (content input))
                  this1 (received input this1 w1)) as Ha2.
    pose proof (sendQuestion_outbox sent (retry_text error question (content input))
                  this1 (received input this1 w1)) as Ho2.
    rewrite Hs in Ha2, Ho2. cbn [fst snd] in Ha2, Ho2.
    rewrite Ho3, Ho2, received_outbox, Ho, <- !app_assoc.
    eexists. split; [reflexivity|].
    eapply accounted_app; [exact Ha|].
    eapply accounted_app; [apply accounted_quiet, embeds_input_deletion|].
    eapply accounted_app; [exact Ha2|exact Ha3].
Qed.

(** ** Calls in sequence *)

Lemma message_after_render
    this w question options error timeout initial sent events this1 w1 card :
  user this ∉ prompts w →
  message_pending this w question initial sent = (this1, w1) →
  msg this1 = Some card →
  ∃ added,
    outbox (message this w question options error timeout initial sent events).2
      = (outbox w1 ++ added)%list ∧
    Forall (fun r => fresh_render r = false) added ∧
    (message this w question options error timeout initial sent events).1.2 = this1.
Proof.
  intros Hfree Hp Hcard. rewrite message_step.
  destruct (awaitMessages this1 (default (promptTimeout this) timeout) events)
    as [[input rest]|] eqn:Hwait.
  - rewrite (message_body_input _ _ _ options error _ _ _ _ _ _ Hfree Hp _ _ Hwait).
    destruct (is_quit (content input)); [|destruct (accepts options (content input))].
    + cbn [fst snd]. unfold notify. cbn [outbox request].
      rewrite received_outbox, <- app_assoc.
      eexists. split; [reflexivity|]. split; [|done].
      apply Forall_app. split; [destruct (deletable input)|]; by repeat constructor.
    + cbn [fst snd]. rewrite received_outbox.
      eexists. split; [reflexivity|]. split; [|done].
      destruct (deletable input); by repeat constructor.
    + rewrite (sendQuestion_card _ _ _ _ _ Hcard). cbn [fst snd].
      destruct (message_keeps_card this1
                  (request (MessageEdit card (retry_text error question (content input)) true)
                     (received input this1 w1))
                  question options error timeout false sent rest card Hcard)
        as (Hthis & added & Ho & Hadded).
      rewrite Ho. cbn [outbox request]. rewrite received_outbox, <- !app_assoc.
      eexists. split; [reflexivity|]. split; [|exact Hthis].
      repeat (apply Forall_app; split); try done.
      * destruct (deletable input); by repeat constructor.
      * by repeat constructor.
  - rewrite (message_body_timeout _ _ _ options error _ _ _ _ _ _ Hfree Hp Hwait).
    cbn [fst snd]. rewrite timed_out_outbox.
    eexists. split; [reflexivity|]. split; [|done].
    apply Forall_app. split; [|by repeat constructor].
    unfold cleanup. rewrite Hcard. destruct (deletable card); by repeat constructor.
Qed.

Lemma embeds_none added :
  Forall (fun r => fresh_render r = false) added → embeds added = [].
Proof.
  induction 1 as [|r added Hr _ IH]; [done|].
  unfold embeds in *. simpl. by rewrite Hr.
Qed.

(** X3. With each send taking the time the transport takes: over a whole
    call of [message], retries included, an instance that has a rendered
    message and no send in flight sends no new embed and is left as it
    was; and the initial call on an instance with no rendered message,
    when the send of its first render resolves before the collector of the
    call settles, sends exactly one new embed, to the channel of the
    instance and with the question, and leaves the instance with the
    message the channel answered and no send in flight.  Every other
    render is an edit. *)
Theorem message_embeds_once_send_resolves
    this w question options error timeout initial events answers :
  let res :=
    Unawaited.message (Unawaited.at_rest this answers) w question options error timeout
      initial events in
  (∀ m, msg this = Some m →
        res.1.2 = Unawaited.at_rest this answers ∧
        ∃ added, outbox res.2 = (outbox w ++ added)%list ∧ embeds added = []) ∧
  (∀ latency sent more,
      msg this = None → initial = true → user this ∉ prompts w →
      answers = (latency, sent) :: more →
      resolved_by_then latency this (default (promptTimeout this) timeout) events →
      res.1.2 = Unawaited.at_rest (set_msg this (Some sent)) more ∧
      ∃ added, outbox res.2 = (outbox w ++ added)%list ∧
               embeds added = [ChannelSendEmbed (channel this) question]).
Proof.
  intros res. split.
  - intros m Hm. unfold res.
    rewrite (unawaited_message_rendered question options error timeout m answers events
               this w initial m Hm). cbn [fst snd].
    destruct (message_keeps_card this w question options error timeout initial m events
                m Hm) as (Hthis & added & Ho & Hadded).
    rewrite Hthis. split; [done|].
    exists added. split; [exact Ho|by apply embeds_none].
  - intros latency sent more Hm -> Hfree -> Hres. unfold res.
    rewrite (unawaited_message_first_render this w question options error timeout latency
               sent more events Hm Hfree Hres). cbn [fst snd].
    assert (Hp : message_pending this w question true sent
                 = (set_msg this (Some sent),
                    request (ChannelSendEmbed (channel this) question)
                      (prompts_add (user this) w))).
    { unfold message_pending, sendQuestion. by rewrite Hm. }
    destruct (message_after_render this w question options error timeout true sent events
                _ _ sent Hfree Hp eq_refl) as (added & Ho & Hadded & Hthis).
    rewrite Hthis. split; [done|].
    exists (ChannelSendEmbed (channel this) question :: added).
    split.
    + rewrite Ho. cbn [outbox request prompts_add]. by rewrite <- app_assoc.
    + unfold embeds. simpl. f_equal. by apply embeds_none.
Qed.

Lemma message_embeds_once_send_resolves_witness :
  (Unawaited.message (Unawaited.at_rest alice [(50, card)]) idle "Continue?"
     (Array ["yes"; "no"]) None None true [(100, reply "maybe"); (10, reply "yes")]).1.2
  = Unawaited.at_rest (set_msg alice (Some card)) [].
Proof.
  refine (proj1 (proj2 (message_embeds_once_send_resolves alice idle "Continue?"
            (Array ["yes"; "no"]) None None true [(100, reply "maybe"); (10, reply "yes")]
            [(50, card)]) 50 card [] _ _ _ _ _)).
  - reflexivity.
  - reflexivity.
  - vm_compute. discriminate.
  - reflexivity.
  - vm_compute. discriminate.
Defined.

(** X4. [delete()] does not clear [this.msg].  When the first prompt of an
    instance times out, its rendered message is deleted (it is deletable)
    but stays the [msg] of the instance: a later question asked on the same
    instance is admitted and starts by editing that deleted message; it
    sends no new embed, whatever the conversation. *)
Theorem timeout_keeps_deleted_message
    this w question options error timeout sent events
    question2 options2 error2 timeout2 sent2 events2 :
  user this ∉ prompts w →
  msg this = None →
  deletable sent = true →
  awaitMessages (set_msg this (Some sent)) (default (promptTimeout this) timeout) events
    = None →
  let res := message this w question options error timeout true sent events in
  res.1.1 = None ∧
  msg res.1.2 = Some sent ∧
  outbox res.2
    = (outbox w ++ [ChannelSendEmbed (channel this) question;
                    MessageDelete sent 0 false;
                    ChannelSend (trigger_channel this) "The prompt timed out!"])%list ∧
  ∃ added,
    outbox (message res.1.2 res.2 question2 options2 error2 timeout2 true sent2 events2).2
      = (outbox res.2 ++ MessageEdit sent question2 true :: added)%list ∧
    Forall (fun r => fresh_render r = false) added.
Proof.
  intros Hfree Hnone Hdel Hwait res.
  assert (Hp : message_pending this w question true sent
               = (set_msg this (Some sent),
                  request (ChannelSendEmbed (channel this) question)
                    (prompts_add (user this) w))).
  { unfold message_pending, sendQuestion. by rewrite Hnone. }
  assert (Hres : res = (None, set_msg this (Some sent),
                        timed_out (set_msg this (Some sent))
                          (request (ChannelSendEmbed (channel this) question)
                             (prompts_add (user this) w)))).
  { unfold res.
    by rewrite message_step,
      (message_body_timeout _ _ _ options error _ _ _ _ _ _ Hfree Hp Hwait). }
  rewrite Hres. cbn [fst snd]. split; [done|]. split; [done|]. split.
  { rewrite timed_out_outbox. unfold cleanup. cbn [msg set_msg]. rewrite Hdel.
    cbn [outbox request prompts_add trigger_channel set_msg]. by rewrite <- app_assoc. }
  set (this1 := set_msg this (Some sent)).
  set (w' := timed_out this1 _).
  assert (Hfree' : user this1 ∉ prompts w').
  { unfold w'. rewrite timed_out_prompts. intros [_ H]%elem_of_difference.
    apply H. by apply elem_of_singleton. }
  assert (Hp' : message_pending this1 w' question2 true sent2
                = (this1, request (MessageEdit sent question2 true)
                            (prompts_add (user this1) w'))).
  { unfold message_pending. by rewrite (sendQuestion_card _ _ _ _ sent). }
  destruct (message_after_render this1 w' question2 options2 error2 timeout2 true sent2
              events2 _ _ sent Hfree' Hp' eq_refl) as (added & Ho & Hadded & _).
  exists added. split; [|exact Hadded].
  rewrite Ho. cbn [outbox request prompts_add]. by rewrite <- app_assoc.
Qed.

Lemma timeout_keeps_deleted_message_witness :
  msg (message alice idle "Continue?" (Array []) None (Some 1) true card
         [(70000, reply "late")]).1.2 = Some card ∧
  outbox (message alice idle "Continue?" (Array []) None (Some 1) true card
            [(70000, reply "late")]).2
  = ([] ++ [ChannelSendEmbed "general" "Continue?";
            MessageDelete card 0 false;
            ChannelSend "general" "The prompt timed out!"])%list.
Proof.
  refine ((fun H => conj (proj1 (proj2 H)) (proj1 (proj2 (proj2 H))))
            (timeout_keeps_deleted_message alice idle "Continue?" (Array []) None (Some 1)
               card [(70000, reply "late")] "Again?" (Array []) None None card
               [(10, reply "yes")] _ _ _ _)).
  - vm_compute. discriminate.
  - reflexivity.
  - reflexivity.
  - reflexivity.
Defined.

(** X5. [delete()] removes the registry entry of the user of the instance
    and no other, whoever holds it.  Called on one instance while the
    prompt of another instance of the same user is suspended at its await,
    it releases the entry that prompt holds: the guard passes again, and a
    reply the validation accepts is returned to a second prompt of the
    user although the first is still open. *)
Theorem delete_releases_any_holder
    holder other w question initial sent
    question2 options error timeout sent2 gap m rest :
  user other = user holder →
  let w1 := (message_pending holder w question initial sent).2 in
  user holder ∈ prompts w1 ∧
  prompts (delete other w1) = prompts w1 ∖ {[user holder]} ∧
  (∀ u, u ≠ user holder → u ∈ prompts (delete other w1) ↔ u ∈ prompts w1) ∧
  (user holder ∉ prompts (delete other w1)) ∧
  (gap < 1000 * 60 * default (promptTimeout other) timeout →
   author m = user other →
   is_quit (content m) = false →
   accepts options (content m) = true →
   (message other (delete other w1) question2 options error timeout true sent2
      ((gap, m) :: rest)).1.1 = Some (content m)).
Proof.
  intros Hu w1.
  assert (Hd : prompts (delete other w1) = prompts w1 ∖ {[user holder]}).
  { unfold delete. rewrite <- Hu.
    destruct (msg other) as [c|]; [destruct (deletable c)|]; reflexivity. }
  assert (Hfree : user other ∉ prompts (delete other w1)).
  { rewrite Hd, Hu. intros [_ H]%elem_of_difference. apply H. by apply elem_of_singleton. }
  split; [unfold w1; rewrite message_pending_prompts; apply elem_of_union_l;
          by apply elem_of_singleton|].
  split; [exact Hd|]. split.
  { intros u Hne. rewrite Hd, elem_of_difference, elem_of_singleton. tauto. }
  split; [by rewrite <- Hu|].
  intros Hgap Hau Hq Ha.
  destruct (message_pending other (delete other w1) question2 true sent2)
    as [this1 w2] eqn:Hp.
  assert (Hwait : awaitMessages this1 (default (promptTimeout other) timeout)
                    ((gap, m) :: rest) = Some (m, rest)).
  { unfold awaitMessages. cbn [awaitFirst].
    destruct (Z.leb_spec (1000 * 60 * default (promptTimeout other) timeout) gap); [lia|].
    rewrite (pending_user _ _ _ _ _ _ _ Hp), Hau. by rewrite String.eqb_refl. }
  destruct (message_resolved _ _ _ options error _ _ _ _ _ _ _ _ Hfree Hp Hwait Hq Ha)
    as (_ & -> & _).
  reflexivity.
Qed.

Lemma delete_releases_any_holder_witness :
  (message (set_msg alice None)
     (delete (set_msg alice None) (message_pending alice idle "Continue?" true card).2)
     "Second?" (Array []) None None true card [(10, reply "yes")]).1.1 = Some "yes".
Proof.
  refine (proj2 (proj2 (proj2 (proj2 (delete_releases_any_holder alice (set_msg alice None)
            idle "Continue?" true card "Second?" (Array []) None None card 10 (reply "yes")
            [] _)))) _ _ _ _).
  - reflexivity.
  - vm_compute. reflexivity.
  - reflexivity.
  - reflexivity.
  - reflexivity.
Defined.

(** ** The retries of [reaction] *)

Lemma reaction_pending_session this w question options react initial sent :
  same_session (reaction_pending this w question options react initial sent).1 this.
Proof.
  unfold reaction_pending. destruct initial; [|apply same_session_refl].
  destruct (sendQuestion _ _ _ _) as [this1 w1] eqn:E. cbn [fst].
  change this1 with (this1, w1).1. rewrite <- E. apply sendQuestion_session.
Qed.

Lemma reaction_pending_msg this w question options react initial sent :
  msg (reaction_pending this w question options react initial sent).1
  = if initial then Some (default sent (msg this)) else msg this.
Proof.
  unfold reaction_pending, sendQuestion. destruct initial; [|done].
  destruct (msg this) as [m|] eqn:Hm; cbn [fst msg set_msg]; by rewrite ?Hm.
Qed.

Section ReactionLoop.

Context (question : string) (options : Options) (react : bool)
        (error : option string) (timeout : option Z) (sent : Message).

Let Result : Type := Completion Emoji * PromptManager * World.

Let retry_text : string :=
  JS.or_else error "That is not a valid choice! Please try again."
    +:+ String "010" (String "010" question).

(** A property of a call of [reaction] and its result holds of every
    call as soon as it holds on the four paths that complete, and passes
    from the tail call to the call that makes it. *)
Lemma reaction_ind
    (P : PromptManager → World → bool → list (Z * MessageReaction) → Result → Prop) :
  (∀ this w initial events,
      user this ∈ prompts w →
      P this w initial events (Returned None, this, refuse this w)) →
  (∀ this w initial events this1 w1,
      user this ∉ prompts w →
      reaction_pending this w question options react initial sent = (this1, w1) →
      msg this1 = None →
      P this w initial events (Thrown "TypeError", this1, w1)) →
  (∀ this w initial events this1 w1 card,
      user this ∉ prompts w →
      reaction_pending this w question options react initial sent = (this1, w1) →
      msg this1 = Some card →
      awaitReactions this1 (default (promptTimeout this) timeout) events = None →
      P this w initial events (Returned None, this1, timed_out this1 w1)) →
  (∀ this w initial events this1 w1 card input rest,
      user this ∉ prompts w →
      reaction_pending this w question options react initial sent = (this1, w1) →
      msg this1 = Some card →
      awaitReactions this1 (default (promptTimeout this) timeout) events
        = Some (input, rest) →
      accepts_emoji options (emoji input) = true →
      P this w initial events
        (Returned (Some (emoji input)), this1, prompts_delete (user this1) w1)) →
  (∀ this w initial events this1 w1 card input rest res,
      user this ∉ prompts w →
      reaction_pending this w question options react initial sent = (this1, w1) →
      msg this1 = Some card →
      awaitReactions this1 (default (promptTimeout this) timeout) events
        = Some (input, rest) →
      accepts_emoji options (emoji input) = false →
      user this1 ∉ prompts (prompts_delete (user this1) w1) →
      P this1 (request (MessageEdit card retry_text true)
                 (prompts_delete (user this1) w1)) false rest res →
      P this w initial events res) →
  ∀ this w initial events,
    P this w initial events
      (reaction this w question options react error timeout initial sent events).
Proof.
  intros Hrefuse Hthrow Htimeout Haccept Hretry this w initial events.
  remember (length events) as n eqn:Hn.
  revert this w initial events Hn.
  induction n as [n IH] using lt_wf_ind.
  intros this w initial events ->.
  rewrite reaction_step. unfold reaction_body.
  destruct (decide (user this ∈ prompts w)) as [Hopen|Hfree]; [by apply Hrefuse|].
  destruct (reaction_pending this w question options react initial sent)
    as [this1 w1] eqn:Hp.
  destruct (msg this1) as [card|] eqn:Hcard; [|by eapply Hthrow].
  destruct (awaitReactions this1 (default (promptTimeout this) timeout) events)
    as [[input rest]|] eqn:Hwait; [|by eapply Htimeout].
  destruct (accepts_emoji options (emoji input)) eqn:Ha; [by eapply Haccept|].
  rewrite (sendQuestion_card _ _ _ _ _ Hcard).
  eapply Hretry; eauto.
  - cbn [prompts prompts_delete]. intros [_ H]%elem_of_difference.
    apply H. by apply elem_of_singleton.
  - eapply IH; [|reflexivity].
    unfold awaitReactions in Hwait. eapply awaitFirst_shorter, Hwait.
Qed.

End ReactionLoop.

Lemma released_after_pending this this1 w w1 :
  user this ∉ prompts w → user this1 = user this →
  prompts w1 = {[user this]} ∪ prompts w →
  prompts w1 ∖ {[user this1]} = prompts w.
Proof.
  intros Hfree -> ->. apply set_eq. intros x.
  rewrite elem_of_difference, elem_of_union, elem_of_singleton.
  split; [tauto|]. intros Hx. split; [tauto|]. congruence.
Qed.

Lemma reaction_registry this w question options react error timeout initial sent events :
  user this ∉ prompts w →
  match (reaction this w question options react error timeout initial sent events).1.1 with
  | Returned _ =>
      prompts (reaction this w question options react error timeout initial sent events).2
      = prompts w
  | Thrown _ =>
      initial = false ∧ msg this = None ∧
      prompts (reaction this w question options react error timeout initial sent events).2
      = {[user this]} ∪ prompts w
  end.
Proof.
  revert this w initial events.
  apply (reaction_ind question options react error timeout sent
           (fun this w initial _ res =>
              user this ∉ prompts w →
              match res.1.1 with
              | Returned _ => prompts res.2 = prompts w
              | Thrown _ =>
                  initial = false ∧ msg this = None ∧
                  prompts res.2 = {[user this]} ∪ prompts w
              end)); cbn [fst snd].
  - done.
  - intros this w initial events this1 w1 _ Hp Hnone _.
    pose proof (reaction_pending_msg this w question options react initial sent) as Hm.
    pose proof (reaction_pending_prompts this w question options react initial sent) as Hpr.
    rewrite Hp in Hm, Hpr. cbn [fst snd] in Hm, Hpr. rewrite Hnone in Hm.
    destruct initial; [done|]. by repeat split.
  - intros this w initial events this1 w1 card _ Hp _ _ Hfree.
    pose proof (reaction_pending_user this w question options react initial sent) as Hu.
    pose proof (reaction_pending_prompts this w question options react initial sent) as Hpr.
    rewrite Hp in Hu, Hpr. cbn [fst snd] in Hu, Hpr.
    rewrite timed_out_prompts. by apply (released_after_pending this).
  - intros this w initial events this1 w1 card input rest _ Hp _ _ _ Hfree.
    pose proof (reaction_pending_user this w question options react initial sent) as Hu.
    pose proof (reaction_pending_prompts this w question options react initial sent) as Hpr.
    rewrite Hp in Hu, Hpr. cbn [fst snd] in Hu, Hpr.
    by apply (released_after_pending this).
  - intros this w initial events this1 w1 card input rest res _ Hp Hcard _ _ Hfree1 IH Hfree.
    pose proof (reaction_pending_user this w question options react initial sent) as Hu.
    pose proof (reaction_pending_prompts this w question options react initial sent) as Hpr.
    rewrite Hp in Hu, Hpr. cbn [fst snd] in Hu, Hpr.
    specialize (IH Hfree1). cbn [prompts request prompts_delete] in IH.
    rewrite (released_after_pending _ _ _ _ Hfree Hu Hpr) in IH.
    destruct res.1.1; [exact IH|]. destruct IH as (_ & Hm & _). congruence.
Qed.

(** X6. A call of [reaction] that passed the guard and returns (with an
    emoji or with nothing) leaves the registry as it found it.  A call
    that passed the guard and throws before its await of the reactions
    leaves the entry it added in the registry: this happens when the send
    of line 103 is rejected, when a reaction of line 104 is rejected, and
    when there is no rendered message at line 106, as on every non-initial
    call on an instance that never rendered one.  Nothing withdraws that
    entry, and every call of [message] and of [reaction] for that user made
    in the state so left is refused. *)
Theorem reaction_releases_or_leaks
    this w question options react error timeout initial sent events :
  user this ∉ prompts w →
  let res := reaction this w question options react error timeout initial sent events in
  (∀ r, res.1.1 = Returned r → prompts res.2 = prompts w) ∧
  (∀ t this1 w1,
      reaction_start this w question options react initial sent t = Threw this1 w1 →
      user this1 = user this ∧
      prompts w1 = {[user this]} ∪ prompts w ∧
      ∀ question2 options2 react2 error2 timeout2 initial2 sent2 events2 revents2,
        message this1 w1 question2 options2 error2 timeout2 initial2 sent2 events2
          = (None, this1, refuse this1 w1) ∧
        reaction this1 w1 question2 options2 react2 error2 timeout2 initial2 sent2 revents2
          = (Returned None, this1, refuse this1 w1)) ∧
  (msg this = None → initial = true →
   reaction_start this w question options react initial sent SendRejected
   = Threw this (request (ChannelSendEmbed (channel this) question)
                   (prompts_add (user this) w))) ∧
  (∀ choice choices, react = true → options = Array (choice :: choices) →
     ∃ this1 w1,
       reaction_start this w question options react initial sent ReactRejected
       = Threw this1 w1) ∧
  (initial = false → msg this = None →
   (∀ t, reaction_start this w question options react initial sent t
         = Threw this (prompts_add (user this) w)) ∧
   res = (Thrown "TypeError", this, prompts_add (user this) w)).
Proof.
  intros Hfree res.
  pose proof (reaction_registry this w question options react error timeout initial sent
                events Hfree) as Hreg. fold res in Hreg.
  assert (Hseed : msg this = None →
                  seed_reactions react options this (prompts_add (user this) w)
                  = prompts_add (user this) w).
  { intros Hnone. unfold seed_reactions. rewrite Hnone. destruct options, react; reflexivity. }
  split_and!.
  - intros r Hr. by rewrite Hr in Hreg.
  - intros t this1 w1 Hs.
    pose proof (reaction_start_spec this w question options react initial sent t) as Hspec.
    rewrite Hs in Hspec. destruct Hspec as (_ & Hu & Hp).
    split; [exact Hu|]. split; [exact Hp|].
    assert (Hheld : user this1 ∈ prompts w1).
    { rewrite Hu, Hp. apply elem_of_union_l. by apply elem_of_singleton. }
    intros. split.
    + rewrite message_step. unfold message_body. by rewrite decide_True.
    + rewrite reaction_step. unfold reaction_body. by rewrite decide_True.
  - intros Hnone ->. unfold reaction_start, sends_embed.
    rewrite decide_False by done. by rewrite Hnone.
  - intros choice choices -> ->. unfold reaction_start.
    rewrite decide_False by done. unfold sends_embed, attaches, sendQuestion.
    destruct initial, (msg this) as [m|] eqn:Hm; cbv beta iota zeta; cbn [msg set_msg];
      rewrite ?Hm; by eexists _, _.
  - intros -> Hnone. split.
    + intros t. unfold reaction_start, sends_embed, attaches.
      rewrite decide_False by done. rewrite Hnone.
      rewrite (Hseed Hnone).
      destruct t, options as [|[|]]; reflexivity.
    + unfold res. rewrite reaction_step. unfold reaction_body.
      rewrite decide_False by exact Hfree. unfold reaction_pending.
      by rewrite (Hseed Hnone), Hnone.
Qed.

Lemma reaction_releases_or_leaks_witness :
  reaction alice idle "Sure?" (Array ["👍"]) true None None false card [(10, reacts thumbs_up)]
  = (Thrown "TypeError", alice, prompts_add (user alice) idle).
Proof.
  refine (proj2 (proj2 (proj2 (proj2 (proj2 (reaction_releases_or_leaks alice idle "Sure?"
            (Array ["👍"]) true None None false card [(10, reacts thumbs_up)] _))))
            _ _)).
  - vm_compute. discriminate.
  - reflexivity.
  - reflexivity.
Defined.



Lemma foldl_request (f : string → Request) choices :
  ∀ w, outbox (foldl (fun w r => request (f r) w) w choices)
       = (outbox w ++ (f <$> choices))%list.
Proof.
  induction choices as [|r choices IH]; intros w; cbn [foldl fmap list_fmap].
  - by rewrite app_nil_r.
  - rewrite IH. cbn [outbox request]. by rewrite <- app_assoc.
Qed.

Lemma reaction_pending_outbox
    this w question options react initial sent this1 w1 card :
  reaction_pending this w question options react initial sent = (this1, w1) →
  msg this1 = Some card →
  outbox w1
  = (outbox w ++
     (if initial then [render this question] else []) ++
     match options with
     | Array choices => if react then MessageReact card <$> choices else []
     | RegExp _ => []
     end)%list.
Proof.
  unfold reaction_pending.
  destruct (if initial then _ else _) as [this0 w0] eqn:Hrender.
  intros [= <- <-] Hcard.
  assert (Ho : outbox w0
               = (outbox w ++ if initial then [render this question] else [])%list).
  { destruct initial.
    - change w0 with (this0, w0).2. by rewrite <- Hrender, sendQuestion_outbox.
    - injection Hrender as <- <-. cbn [outbox prompts_add]. by rewrite app_nil_r. }
  unfold seed_reactions. rewrite Hcard.
  destruct options as [test|choices]; [|destruct react].
  - by rewrite Ho, app_nil_r.
  - by rewrite foldl_request, Ho, <- app_assoc.
  - by rewrite Ho, app_nil_r.
Qed.

(** X8. The emoji [reaction] returns is the emoji of a reaction that the
    user of the prompt added in the awaited events and that passes the
    validation; the reaction of another user is never the result. *)
Theorem reaction_result_provenance
    this w question options react error timeout initial sent events e :
  (reaction this w question options react error timeout initial sent events).1.1
    = Returned (Some e) →
  ∃ gap r, (gap, r) ∈ events ∧ reactor r = user this ∧ emoji r = e ∧
           accepts_emoji options e = true.
Proof.
  revert this w initial events.
  apply (reaction_ind question options react error timeout sent
           (fun this _ _ events res =>
              res.1.1 = Returned (Some e) →
              ∃ gap r, (gap, r) ∈ events ∧ reactor r = user this ∧ emoji r = e ∧
                       accepts_emoji options e = true));
    cbn [fst snd]; try done.
  - intros this w initial events this1 w1 card input rest _ Hp _ Hwait Ha [= <-].
    pose proof (reaction_pending_user this w question options react initial sent) as Hu.
    rewrite Hp in Hu. cbn [fst] in Hu.
    pose proof (awaitFirst_filter _ _ _ _ _ Hwait) as Hr. apply String.eqb_eq in Hr.
    apply awaitFirst_elem in Hwait as [[gap Hgap] _].
    exists gap, input. split; [done|]. split; [congruence|done].
  - intros this w initial events this1 w1 card input rest res _ Hp _ Hwait _ _ IH Hres.
    destruct (IH Hres) as (gap & r & Hin & Hr & Hrest).
    pose proof (reaction_pending_user this w question options react initial sent) as Hu.
    rewrite Hp in Hu. cbn [fst] in Hu.
    apply awaitFirst_elem in Hwait as [_ Hsub].
    exists gap, r. split; [by apply Hsub|]. split; [congruence|exact Hrest].
Qed.

Lemma reaction_result_provenance_witness :
  ∃ gap r, (gap, r) ∈ [(5, {| emoji := party; reactor := "7" |}); (5, reacts thumbs_up);
                       (5, reacts party)] ∧
           reactor r = user alice ∧ emoji r = party ∧
           accepts_emoji (Array ["123"]) party = true.
Proof.
  refine (reaction_result_provenance alice idle "Sure?" (Array ["123"]) false None None true
            card [(5, {| emoji := party; reactor := "7" |}); (5, reacts thumbs_up);
                  (5, reacts party)] party _).
  vm_compute. reflexivity.
Defined.

Lemma filter_reacts card (choices : list string) :
  List.filter is_react (MessageReact card <$> choices) = MessageReact card <$> choices.
Proof. induction choices as [|c choices IH]; [done|]. csimpl. by f_equal. Qed.

Lemma filter_render this question : List.filter is_react [render this question] = [].
Proof. unfold render. by destruct (msg this). Qed.

Lemma filter_cleanup this : List.filter is_react (cleanup this) = [].
Proof. unfold cleanup. destruct (msg this) as [m|]; [destruct (deletable m)|]; done. Qed.

(** X9. With [react] set and an array of options, [reaction] attaches the
    options to the rendered message, one reaction request per option,
    before each await, not only before the first: when the user answers
    with [n] reactions that are all rejected and then lets the prompt time
    out, the call returns nothing and has requested [(n + 1)] times as many
    reactions as there are options. *)
Theorem reaction_reattaches_options
    this w question choices error timeout initial sent events :
  user this ∉ prompts w →
  initial = true ∨ is_Some (msg this) →
  Forall (fun ev : Z * MessageReaction =>
            ev.1 < 1000 * 60 * default (promptTimeout this) timeout ∧
            reactor ev.2 = user this ∧
            accepts_emoji (Array choices) (emoji ev.2) = false) events →
  (reaction this w question (Array choices) true error timeout initial sent events).1.1
    = Returned None ∧
  ∃ added,
    outbox (reaction this w question (Array choices) true error timeout initial sent
              events).2 = (outbox w ++ added)%list ∧
    length (List.filter is_react added) = ((length events + 1) * length choices)%nat.
Proof.
  revert this w initial.
  induction events as [|[gap r] events IH]; intros this w initial Hfree Hmsg Hall.
  all: destruct (reaction_pending this w question (Array choices) true initial sent)
         as [this1 w1] eqn:Hp.
  all: pose proof (reaction_pending_msg this w question (Array choices) true initial sent)
         as Hm; rewrite Hp in Hm; cbn [fst] in Hm.
  all: assert (∃ card, msg this1 = Some card) as [card Hcard]
         by (rewrite Hm; destruct initial; [by eexists|by destruct Hmsg as [|[? ?]]; eauto]).
  all: pose proof (reaction_pending_outbox _ _ _ _ _ _ _ _ _ _ Hp Hcard) as Ho;
       cbv beta iota in Ho.
  - assert (Hrun : reaction this w question (Array choices) true error timeout initial sent []
                   = (Returned None, this1, timed_out this1 w1)).
    { rewrite reaction_step. unfold reaction_body. rewrite decide_False by exact Hfree.
      by rewrite Hp, Hcard. }
    rewrite Hrun. cbn [fst snd]. split; [done|].
    rewrite timed_out_outbox, Ho, <- !app_assoc.
    eexists. split; [reflexivity|].
    rewrite !List.filter_app, filter_reacts, filter_cleanup, !length_app, length_fmap.
    destruct initial; [rewrite filter_render|]; simpl; lia.
  - apply Forall_cons in Hall as [(Hgap & Hr & Ha) Hall]. cbn [fst snd] in Hgap, Hr, Ha.
    pose proof (reaction_pending_session this w question (Array choices) true initial sent)
      as (Hu & _ & _ & Ht).
    rewrite Hp in Hu, Ht. cbn [fst] in Hu, Ht.
    assert (Hwait : awaitReactions this1 (default (promptTimeout this) timeout)
                      ((gap, r) :: events) = Some (r, events)).
    { unfold awaitReactions. cbn [awaitFirst].
      destruct (Z.leb_spec (1000 * 60 * default (promptTimeout this) timeout) gap); [lia|].
      by rewrite Hu, Hr, String.eqb_refl. }
    rewrite reaction_step. unfold reaction_body. rewrite decide_False by exact Hfree.
    rewrite Hp, Hcard, Hwait, Ha, (sendQuestion_card _ _ _ _ _ Hcard).
    pose proof (reaction_pending_prompts this w question (Array choices) true initial sent)
      as Hpr.
    rewrite Hp in Hpr. cbn [snd] in Hpr.
    match goal with
    | |- context [reaction this1 ?w2 _ _ _ _ _ false _ _] =>
        destruct (IH this1 w2 false) as (Hres & added & Ho2 & Hcount)
    end.
    + cbn [prompts request prompts_delete]. intros [_ H]%elem_of_difference.
      apply H. by apply elem_of_singleton.
    + right. by eexists.
    + rewrite Ht, Hu. exact Hall.
    + split; [exact Hres|]. rewrite Ho2. cbn [outbox request prompts_delete].
      rewrite Ho, <- !app_assoc.
      eexists. split; [reflexivity|].
      rewrite !List.filter_app, filter_reacts, !length_app, length_fmap, Hcount.
      destruct initial; [rewrite filter_render|]; simpl; lia.
Qed.

Lemma reaction_reattaches_options_witness :
  ∃ added,
    outbox (reaction alice idle "Sure?" (Array ["👎"; "✋"]) true None None true card
              [(10, reacts thumbs_up); (10, reacts party)]).2 = (outbox idle ++ added)%list ∧
    length (List.filter is_react added) = ((2 + 1) * 2)%nat.
Proof.
  refine (proj2 (reaction_reattaches_options alice idle "Sure?" ["👎"; "✋"] None None true
                   card [(10, reacts thumbs_up); (10, reacts party)] _ _ _)).
  - vm_compute. discriminate.
  - by left.
  - repeat constructor.
Defined.

(** ** Further properties of [chooseOne] *)

Lemma toString_inj a b : JS.toString a = JS.toString b → a = b.
Proof.
  intros H. apply (f_equal JS.parseInt) in H. rewrite !parseInt_toString in H.
  injection H. lia.
Qed.

Lemma fixed_error_line text :
  error_line (Some "`{VALUE}` is not a valid option! Please try again.") text
  = "`" +:+ text +:+ "` is not a valid option! Please try again.".
Proof. reflexivity. Qed.

Section ChooseOneFurther.

Context {T : Type} (show : T → string) (toCodeblock : string → string → string).

Lemma choice_keys_NoDup (choices : list T) : NoDup (choice_keys choices).
Proof.
  rewrite choice_keys_seq. apply NoDup_fmap_2_strong; [|apply NoDup_seq].
  intros a b _ _. apply toString_inj.
Qed.

Lemma elem_of_choice_keys (choices : list T) n :
  JS.toString n ∈ choice_keys choices ↔ (1 ≤ n ≤ length choices)%nat.
Proof.
  rewrite choice_keys_seq, list_elem_of_fmap. split.
  - intros (k & Hk%toString_inj & Hin). subst k. apply elem_of_seq in Hin. lia.
  - intros Hn. exists n. split; [done|]. apply elem_of_seq. lia.
Qed.

(** X10. The keys [chooseOne] offers are pairwise distinct, none of them
    is a prefix of quit, and each maps back to the choice at its own
    position: typing the key of a choice can neither cancel the prompt
    nor select another choice. *)
Theorem chooseOne_keys_round_trip (choices : list T) :
  NoDup (choice_keys choices) ∧
  length (choice_keys choices) = length choices ∧
  (∀ k, k ∈ choice_keys choices → is_quit k = false) ∧
  (∀ i c, choices !! i = Some c →
     ∃ k, choice_keys choices !! i = Some k ∧ pick choices k = Some c) ∧
  (∀ i j k, choice_keys choices !! i = Some k → choice_keys choices !! j = Some k →
     i = j).
Proof.
  split; [apply choice_keys_NoDup|]. split; [apply length_imap|]. split; [|split].
  - intros k (i & c & -> & _)%elem_of_lookup_imap_1. apply toString_not_quit.
  - intros i c Hi. exists (JS.toString (i + 1)).
    split; [by eapply choice_keys_lookup|].
    replace (i + 1)%nat with (S i) by lia. by rewrite pick_toString.
  - intros i j k Hi Hj. eapply NoDup_lookup; [apply choice_keys_NoDup|done..].
Qed.

(** X11. A value returned by [chooseOne] is an element of the list of
    choices: the one at position [i] when the user of the prompt wrote
    the decimal string of [i + 1] in the awaited conversation.  With no
    choices it returns nothing. *)
Theorem chooseOne_result_is_choice
    this w question (choices : list T) sent events c :
  (chooseOne show toCodeblock this w question choices sent events).1.1 = Some c →
  ∃ i gap m, choices !! i = Some c ∧ (gap, m) ∈ events ∧ author m = user this ∧
             content m = JS.toString (i + 1).
Proof.
  unfold chooseOne.
  destruct (message _ _ _ _ _ _ _ _ _) as [[r this'] w'] eqn:Hrun.
  destruct r as [v|]; [|done]. destruct (JS.truthy v); [|done]. cbn [fst snd].
  intros Hpick.
  destruct (message_result_from_events _ _ _ _ _ _ _ _ _ v
              (f_equal (fun x => x.1.1) Hrun))
    as (gap & m & Hin & Hau & Hc & _ & Ha).
  destruct choices as [|c0 choices'] eqn:Hch.
  { unfold pick in Hpick. destruct (JS.parseInt v) as [n|]; [|done].
    by destruct (0 <=? n - 1). }
  rewrite <- Hch in *.
  assert (Hne : choices ≠ []) by (by rewrite Hch).
  apply (accepted_key _ _ Hne) in Ha as (i & c' & Hi & ->).
  rewrite pick_toString, Hi in Hpick. injection Hpick as ->.
  exists i, gap, m. repeat split; try done. rewrite Hc. f_equal. lia.
Qed.

(** X12. With at least one choice, a reply of [chooseOne]'s prompt that
    is neither a prefix of quit nor one of the keys is rejected: the
    rendered message is edited to the line saying that the reply, quoted,
    is not a valid option, an empty line and the full question, and the
    prompt goes on with the replies still to come.  The decimal string of
    0 and of every number above the number of choices is such a reply. *)
Theorem chooseOne_rejects_other_replies
    this w question (choices : list T) sent events this1 w1 card input rest :
  let prompt := question +:+
                toCodeblock "css" (JS.join (String "010" "") (choice_lines show choices)) in
  let template := Some "`{VALUE}` is not a valid option! Please try again." in
  choices ≠ [] →
  user this ∉ prompts w →
  message_pending this w prompt true sent = (this1, w1) →
  msg this1 = Some card →
  awaitMessages this1 (promptTimeout this) events = Some (input, rest) →
  is_quit (content input) = false →
  content input ∉ choice_keys choices →
  message this w prompt (Array (choice_keys choices)) template None true sent events
  = message this1
      (request (MessageEdit card
                  (("`" +:+ content input +:+ "` is not a valid option! Please try again.")
                   +:+ String "010" (String "010" prompt)) true)
               (received input this1 w1))
      prompt (Array (choice_keys choices)) template None false sent rest ∧
  (∀ n, (n = 0 ∨ length choices < n)%nat →
        is_quit (JS.toString n) = false ∧ JS.toString n ∉ choice_keys choices).
Proof.
  intros prompt template Hne Hfree Hp Hcard Hwait Hq Hnot. split.
  - assert (Ha : accepts (Array (choice_keys choices)) (content input) = false).
    { apply not_true_is_false. intros Ha. apply accepts_spec in Ha.
      destruct Ha as [(t & [=] & _)|[[= Hk]|(l & [= <-] & Hin)]]; [|done].
      destruct choices; [done|discriminate Hk]. }
    rewrite message_step,
      (message_rejected _ _ _ _ template None _ _ _ _ _ _ _ Hfree Hp Hwait Hq Ha).
    rewrite (sendQuestion_card _ _ _ _ _ Hcard). cbn [fst snd].
    unfold retry_text, template. by rewrite fixed_error_line.
  - intros n Hn. split; [apply toString_not_quit|].
    rewrite elem_of_choice_keys. lia.
Qed.

End ChooseOneFurther.

Lemma chooseOne_keys_round_trip_witness :
  ∃ k, choice_keys ["A"; "B"; "C"] !! 2%nat = Some k ∧ pick ["A"; "B"; "C"] k = Some "C".
Proof.
  refine (proj1 (proj2 (proj2 (proj2 (chooseOne_keys_round_trip ["A"; "B"; "C"]))))
            2%nat "C" _).
  reflexivity.
Defined.

Lemma chooseOne_result_is_choice_witness :
  ∃ i gap m, ["A"; "B"; "C"] !! i = Some "B" ∧
             (gap, m) ∈ [(10, reply "9"); (10, reply "2")] ∧ author m = user alice ∧
             content m = JS.toString (i + 1).
Proof.
  refine (chooseOne_result_is_choice id (fun _ body => body) alice idle "Pick one"
            ["A"; "B"; "C"] card [(10, reply "9"); (10, reply "2")] "B" _).
  vm_compute. reflexivity.
Defined.

Lemma chooseOne_rejects_other_replies_witness :
  message alice idle ("Pick one" +:+ JS.join (String "010" "") (choice_lines id ["A"; "B"]))
    (Array (choice_keys ["A"; "B"]))
    (Some "`{VALUE}` is not a valid option! Please try again.") None true card
    [(10, reply "9"); (10, reply "2")]
  = message (set_msg alice (Some card))
      (request (MessageEdit card
                  (("`" +:+ "9" +:+ "` is not a valid option! Please try again.")
                   +:+ String "010" (String "010"
                     ("Pick one" +:+
                      JS.join (String "010" "") (choice_lines id ["A"; "B"])))) true)
               (received (reply "9") (set_msg alice (Some card))
                  (message_pending alice idle
                     ("Pick one" +:+
                      JS.join (String "010" "") (choice_lines id ["A"; "B"]))
                     true card).2))
      ("Pick one" +:+ JS.join (String "010" "") (choice_lines id ["A"; "B"]))
      (Array (choice_keys ["A"; "B"]))
      (Some "`{VALUE}` is not a valid option! Please try again.") None false card
      [(10, reply "2")].
Proof.
  refine (proj1 (chooseOne_rejects_other_replies id (fun _ body => body) alice idle
            "Pick one" ["A"; "B"] card [(10, reply "9"); (10, reply "2")]
            (set_msg alice (Some card)) _ card (reply "9") [(10, reply "2")]
            _ _ _ _ _ _ _)).
  - discriminate.
  - vm_compute. discriminate.
  - reflexivity.
  - reflexivity.
  - reflexivity.
  - reflexivity.
  - vm_compute. intros H.
    repeat (apply elem_of_cons in H as [H|H]; [discriminate H|]).
    by apply elem_of_nil in H.
Defined.

(** ** Notices *)

Lemma quiet_render this question : is_notice (render this question) = false.
Proof. unfold render. by destruct (msg this). Qed.

Lemma quiet_pending this w question initial sent :
  ∃ added,
    outbox (message_pending this w question initial sent).2 = (outbox w ++ added)%list ∧
    Forall (fun r => is_notice r = false) added.
Proof.
  rewrite message_pending_outbox. eexists. split; [reflexivity|].
  destruct initial; repeat constructor. apply quiet_render.
Qed.

Lemma quiet_input_deletion (input : Message) :
  Forall (fun r => is_notice r = false)
    (if deletable input then [MessageDelete input 1000 true] else []).
Proof. destruct (deletable input); by repeat constructor. Qed.

Lemma quiet_cleanup this : Forall (fun r => is_notice r = false) (cleanup this).
Proof.
  unfold cleanup. destruct (msg this) as [m|]; [destruct (deletable m)|];
    by repeat constructor.
Qed.

Lemma message_notices this w question options error timeout initial sent events :
  ∃ added,
    outbox (message this w question options error timeout initial sent events).2
      = (outbox w ++ added)%list ∧
    match (message this w question options error timeout initial sent events).1.1 with
    | Some _ => Forall (fun r => is_notice r = false) added
    | None =>
        ∃ before text,
          added = (before ++ [ChannelSend (trigger_channel this) text])%list ∧
          text ∈ notices ∧ Forall (fun r => is_notice r = false) before
    end.
Proof.
  revert this w initial events.
  apply (message_ind question options error timeout sent
           (fun this w _ _ res =>
              ∃ added, outbox res.2 = (outbox w ++ added)%list ∧
                match res.1.1 with
                | Some _ => Forall (fun r => is_notice r = false) added
                | None =>
                    ∃ before text,
                      added = (before ++ [ChannelSend (trigger_channel this) text])%list ∧
                      text ∈ notices ∧ Forall (fun r => is_notice r = false) before
                end));
    cbn [fst snd].
  - intros this w _ _ _. eexists. split; [reflexivity|].
    exists [], "You already have another prompt open!".
    split; [done|]. split; [|constructor]. apply elem_of_cons. by left.
  - intros this w initial events this1 w1 _ Hp _.
    destruct (quiet_pending this w question initial sent) as (a1 & Ho & Ha).
    rewrite Hp in Ho. cbn [snd] in Ho.
    pose proof (message_pending_session this w question initial sent) as (_ & _ & Ht & _).
    rewrite Hp in Ht. cbn [fst] in Ht.
    rewrite timed_out_outbox, Ho, <- app_assoc, Ht.
    eexists. split; [reflexivity|].
    exists (a1 ++ cleanup this1)%list, "The prompt timed out!".
    split; [by rewrite <- app_assoc|]. split.
    + apply elem_of_cons. right. apply elem_of_cons. by left.
    + apply Forall_app. split; [done|apply quiet_cleanup].
  - intros this w initial events this1 w1 input rest _ Hp _ _.
    destruct (quiet_pending this w question initial sent) as (a1 & Ho & Ha).
    rewrite Hp in Ho. cbn [snd] in Ho.
    pose proof (message_pending_session this w question initial sent) as (_ & _ & Ht & _).
    rewrite Hp in Ht. cbn [fst] in Ht.
    unfold notify. cbn [outbox request]. rewrite received_outbox, Ho, <- !app_assoc, Ht.
    eexists. split; [reflexivity|].
    eexists (a1 ++ _)%list, "Successfully cancelled the prompt!".
    split; [by rewrite <- app_assoc|]. split.
    + do 2 (apply elem_of_cons; right). apply elem_of_cons. by left.
    + apply Forall_app. split; [done|apply quiet_input_deletion].
  - intros this w initial events this1 w1 input rest _ Hp _ _ _.
    destruct (quiet_pending this w question initial sent) as (a1 & Ho & Ha).
    rewrite Hp in Ho. cbn [snd] in Ho.
    rewrite received_outbox, Ho, <- !app_assoc.
    eexists. split; [reflexivity|].
    apply Forall_app. split; [done|apply quiet_input_deletion].
  - intros this w initial events this1 w1 input rest this2 w2 res Hfree Hp _ _ _ Hs _ _
      (a3 & Ho3 & Ha3).
    destruct (quiet_pending this w question initial sent) as (a1 & Ho & Ha).
    rewrite Hp in Ho. cbn [snd] in Ho.
    destruct (retry_state _ _ _ _ _ _ _ _ _ _ _ Hfree Hp Hs) as ((_ & _ & Ht & _) & _ & _).
    pose proof (sendQuestion_outbox sent (retry_text error question (content input))
                  this1 (received input this1 w1)) as Ho2.
    rewrite Hs in Ho2. cbn [snd] in Ho2.
    rewrite Ho3, Ho2, received_outbox, Ho, <- !app_assoc.
    eexists. split; [reflexivity|].
    assert (Hlocal : Forall (fun r => is_notice r = false)
              (a1 ++ (if deletable input then [MessageDelete input 1000 true] else []) ++
               [render this1 (retry_text error question (content input))])%list).
    { repeat (apply Forall_app; split); try done; [apply quiet_input_deletion|].
      repeat constructor. apply quiet_render. }
    destruct res.1.1.
    + rewrite !app_assoc, <- (app_assoc a1). apply Forall_app. by split.
    + destruct Ha3 as (before & text & -> & Hin & Hbefore). rewrite Ht.
      exists ((a1 ++ (if deletable input then [MessageDelete input 1000 true] else []) ++
               [render this1 (retry_text error question (content input))]) ++ before)%list,
             text.
      split; [by rewrite <- !app_assoc|]. split; [done|]. apply Forall_app. by split.
Qed.

(** X13. A call of [message] tells the user why it ends without result
    and says nothing otherwise: when it returns no result, the last request
    it adds is one of the three notices, sent to the channel of the
    trigger, and it is the only plain text the call sends; when it returns
    a result, the call sends no plain text at all. *)
Theorem message_notice_iff_no_result
    this w question options error timeout initial sent events :
  ∃ added,
    outbox (message this w question options error timeout initial sent events).2
      = (outbox w ++ added)%list ∧
    (∀ v, (message this w question options error timeout initial sent events).1.1 = Some v →
          Forall (fun r => is_notice r = false) added) ∧
    ((message this w question options error timeout initial sent events).1.1 = None →
     ∃ before text,
       added = (before ++ [ChannelSend (trigger_channel this) text])%list ∧
       text ∈ notices ∧ Forall (fun r => is_notice r = false) before).
Proof.
  destruct (message_notices this w question options error timeout initial sent events)
    as (added & Ho & Ha).
  exists added. split; [exact Ho|]. split.
  - intros v Hv. by rewrite Hv in Ha.
  - intros Hn. by rewrite Hn in Ha.
Qed.

Lemma message_notice_iff_no_result_witness :
  ∃ added,
    outbox (message alice idle "Continue?" (Array ["yes"]) None None true card
              [(10, reply "no"); (10, reply "q")]).2 = (outbox idle ++ added)%list ∧
    ∃ before text,
      added = (before ++ [ChannelSend (trigger_channel alice) text])%list ∧
      text ∈ notices ∧ Forall (fun r => is_notice r = false) before.
Proof.
  destruct (message_notice_iff_no_result alice idle "Continue?" (Array ["yes"]) None None
              true card [(10, reply "no"); (10, reply "q")]) as (added & Ho & _ & Hn).
  exists added. split; [exact Ho|]. apply Hn. vm_compute. reflexivity.
Defined.

(** * Further properties of the troubleshoot command *)

Module TroubleshootFurther.
Import Troubleshoot.

Lemma collect_rewind page :
collect page "⏪" = if page =? 0 then (page, None) else (0, Some 0).
Proof. reflexivity. Qed.

Lemma collect_left page :
collect page "⬅️" = if page =? 0 then (page, None) else (page - 1, Some (page - 1)).
Proof. reflexivity. Qed.

Lemma collect_right page :
collect page "➡️" = if page + 1 =? 10 then (page, None) else (page + 1, Some (page + 1)).
Proof. reflexivity. Qed.

Lemma collect_forward page :
collect page "⏩" = if page + 1 =? 10 then (page, None) else (9, Some 9).
Proof. reflexivity. Qed.

Lemma page_at_footer page :
0 ≤ page ≤ 9 →
∃ e, page_at page = Some e ∧ footer e = JS.toString (Z.to_nat page + 1) +:+ "/10".
Proof.
intros Hp.
assert (H : page = 0 ∨ page = 1 ∨ page = 2 ∨ page = 3 ∨ page = 4 ∨ page = 5 ∨
            page = 6 ∨ page = 7 ∨ page = 8 ∨ page = 9) by lia.
destruct H as [->|[->|[->|[->|[->|[->|[->|[->|[->| ->]]]]]]]]]; by eexists.
Qed.

(** X14. Every page the command sends or edits its message to is one of
  the ten pages, and its footer shows its position: [troubleshoot n] with
  [n] from 1 to 10 sends the page whose footer is [n/10], every other
  argument sends the page [1/10], and after any sequence of collected
  reactions the counter is the index of the page whose footer is the
  counter plus one. *)
Theorem troubleshoot_shows_numbered_page :
(∀ n rest, (1 ≤ n ≤ 10)%nat →
   ∃ e, page_at (start_page (JS.toString n :: rest)) = Some e ∧
        footer e = JS.toString n +:+ "/10") ∧
(∀ args, (∀ n, parsed args = Some n → ¬ 1 ≤ n ≤ 10) →
   ∃ e, page_at (start_page args) = Some e ∧ footer e = "1/10") ∧
(∀ args names,
   ∃ e, page_at (browse (start_page args) names) = Some e ∧
        footer e
        = JS.toString (Z.to_nat (browse (start_page args) names) + 1) +:+ "/10") ∧
(∀ page name shown, 0 ≤ page ≤ 9 → (collect page name).2 = Some shown →
   is_Some (page_at shown)).
Proof.
split; [|split; [|split]].
- intros n rest Hn.
  assert (Hs : start_page (JS.toString n :: rest) = Z.of_nat n - 1).
  { rewrite TroubleshootProperties.start_page_parsed. cbn [parsed]. rewrite parseInt_toString.
    destruct (Z.leb_spec 1 (Z.of_nat n)), (Z.leb_spec (Z.of_nat n) 10); simpl; lia. }
  rewrite Hs. destruct (page_at_footer (Z.of_nat n - 1)) as (e & He & Hf); [lia|].
  exists e. split; [done|]. rewrite Hf. do 2 f_equal. lia.
- intros args Hout.
  assert (Hs : start_page args = 0).
  { rewrite TroubleshootProperties.start_page_parsed. destruct (parsed args) as [n|] eqn:Hn; [|done].
    specialize (Hout n eq_refl).
    destruct (Z.leb_spec 1 n), (Z.leb_spec n 10); simpl; lia. }
  rewrite Hs. by eexists.
- intros args names. apply page_at_footer, TroubleshootProperties.browse_range, TroubleshootProperties.start_page_range.
- intros page name shown Hp Hshown.
  assert (Hr : 0 ≤ shown ≤ 9).
  { pose proof (TroubleshootProperties.collect_range page name Hp) as Hb. revert Hshown Hb. unfold collect.
    change pages_length with 10.
    repeat match goal with
           | |- context [if ?b then _ else _] => destruct b eqn:?
           end; cbn [fst snd]; intros [= <-]; lia. }
  destruct (page_at_footer shown Hr) as (e & He & _). by rewrite He.
Qed.

Lemma troubleshoot_shows_numbered_page_witness :
∃ e, page_at (start_page [JS.toString 8; "please"]) = Some e ∧
     footer e = JS.toString 8 +:+ "/10".
Proof.
refine (proj1 troubleshoot_shows_numbered_page 8%nat ["please"] _). lia.
Defined.

(** X15. The collector is installed exactly on the index page: the command
  answers with a page on its own, without reactions, exactly when
  [parseInt] of its argument is a number from 2 to 10; asking for page 1
  opens the browsable index like no argument at all. *)
Theorem execute_modes args :
(∀ page, execute args = Static page ↔
         ∃ n, parsed args = Some n ∧ 2 ≤ n ≤ 10 ∧ page = n - 1) ∧
(execute args = Paged 0 ↔ ∀ n, parsed args = Some n → ¬ 2 ≤ n ≤ 10).
Proof.
unfold execute. rewrite TroubleshootProperties.start_page_parsed.
destruct (parsed args) as [n|]; cbn zeta.
- destruct (Z.leb_spec 1 n), (Z.leb_spec n 10); cbn [andb].
  + destruct (Z.gtb_spec (n - 1) 0).
    * split.
      -- intros page. split.
         ++ intros [= <-]. exists n. repeat split; lia.
         ++ intros (k & [= <-] & Hk & ->). done.
      -- split; [done|]. intros Hall. specialize (Hall n eq_refl). lia.
    * assert (n = 1) as -> by lia. split.
      -- intros page. split; [done|]. intros (k & [= <-] & Hk & _). lia.
      -- split; [|done]. intros _ k [= <-]. lia.
  + split.
    * intros page. split; [done|]. intros (k & [= <-] & Hk & _). lia.
    * split; [|done]. intros _ k [= <-]. lia.
  + split.
    * intros page. split; [done|]. intros (k & [= <-] & Hk & _). lia.
    * split; [|done]. intros _ k [= <-]. lia.
  + split.
    * intros page. split; [done|]. intros (k & [= <-] & Hk & _). lia.
    * split; [|done]. intros _ k [= <-]. lia.
- split.
  + intros page. split; [done|]. by intros (k & [=] & _).
  + split; [|done]. intros _ k [=].
Qed.

Lemma execute_modes_witness :
execute ["1"] = Paged 0 ∧ execute ["2"] = Static 1.
Proof.
split.
- refine (proj2 (proj2 (execute_modes ["1"])) _).
  intros n Hn. vm_compute in Hn. injection Hn as <-. lia.
- refine (proj2 (proj1 (execute_modes ["2"]) 1) _). exists 2. by repeat split.
Defined.

Lemma browse_app page names names' :
browse page (names ++ names') = browse (browse page names) names'.
Proof. apply foldl_app. Qed.

(** X16. Pressing the right arrow [n] times from the index leads to page
  [min n 9] and pressing the left arrow [n] times from page [p] leads to
  page [max (p - n) 0]: the arrows stop at the last and the first page
  and never wrap around.  Hence every page can be reached from the index
  with the arrows alone. *)
Theorem arrows_saturate :
(∀ n page, 0 ≤ page ≤ 9 →
   browse page (replicate n "➡️") = Z.min (page + Z.of_nat n) 9) ∧
(∀ n page, 0 ≤ page ≤ 9 →
   browse page (replicate n "⬅️") = Z.max (page - Z.of_nat n) 0) ∧
(∀ page, 0 ≤ page ≤ 9 → ∃ names, browse 0 names = page).
Proof.
assert (Hright : ∀ n page, 0 ≤ page ≤ 9 →
          browse page (replicate n "➡️") = Z.min (page + Z.of_nat n) 9).
{ induction n as [|n IH]; intros page Hp.
  - simpl. lia.
  - change (browse page (replicate (S n) "➡️"))
      with (browse (collect page "➡️").1 (replicate n "➡️")).
    rewrite collect_right.
    destruct (Z.eqb_spec (page + 1) 10); cbn [fst]; rewrite IH; lia. }
split; [exact Hright|]. split.
- induction n as [|n IH]; intros page Hp.
  + simpl. lia.
  + change (browse page (replicate (S n) "⬅️"))
      with (browse (collect page "⬅️").1 (replicate n "⬅️")).
    rewrite collect_left.
    destruct (Z.eqb_spec page 0); cbn [fst]; rewrite IH; lia.
- intros page Hp. exists (replicate (Z.to_nat page) "➡️").
  rewrite Hright by lia. lia.
Qed.

Lemma arrows_saturate_witness :
browse 0 (replicate 12 "➡️") = Z.min (0 + Z.of_nat 12) 9.
Proof. refine (proj1 arrows_saturate 12%nat 0 _). lia. Defined.

Ltac case_eqb :=
match goal with
| |- context [if ?a =? ?b then _ else _] => destruct (Z.eqb_spec a b)
end.

(** X17. Away from the ends the two arrows undo each other, and the
  rewind and fast-forward emojis are idempotent: the second press in a
  row changes nothing and edits nothing. *)
Theorem arrows_round_trip page :
0 ≤ page ≤ 9 →
(page ≠ 9 → browse page ["➡️"; "⬅️"] = page) ∧
(page ≠ 0 → browse page ["⬅️"; "➡️"] = page) ∧
collect (collect page "⏪").1 "⏪" = (0, None) ∧
collect (collect page "⏩").1 "⏩" = (9, None) ∧
browse page ["⏩"; "⏪"] = 0 ∧
browse page ["⏪"; "⏩"] = 9.
Proof.
intros Hp. unfold browse. cbn [foldl].
rewrite !collect_right, !collect_left, !collect_rewind, !collect_forward.
split_and!.
- intros H9. destruct (Z.eqb_spec (page + 1) 10); [lia|]. cbn [fst].
  destruct (Z.eqb_spec (page + 1) 0); [lia|]. cbn [fst]. lia.
- intros H0. destruct (Z.eqb_spec page 0); [lia|]. cbn [fst].
  destruct (Z.eqb_spec (page - 1 + 1) 10); [lia|]. cbn [fst]. lia.
- destruct (Z.eqb_spec page 0) as [->|]; reflexivity.
- destruct (Z.eqb_spec (page + 1) 10); [|reflexivity].
  assert (page = 9) as -> by lia. reflexivity.
- destruct (Z.eqb_spec (page + 1) 10); cbn [fst]; case_eqb; cbn [fst] in *; lia.
- destruct (Z.eqb_spec page 0); cbn [fst]; case_eqb; cbn [fst] in *; lia.
Qed.

Lemma arrows_round_trip_witness :
browse 4 ["➡️"; "⬅️"] = 4 ∧ browse 4 ["⬅️"; "➡️"] = 4.
Proof.
assert (H : 0 ≤ 4 ≤ 9) by lia.
split.
- refine (proj1 (arrows_round_trip 4 H) _). lia.
- refine (proj1 (proj2 (arrows_round_trip 4 H)) _). lia.
Defined.

End TroubleshootFurther.
